(** * Training-loop protocol of the generative models (DCGAN, VAE,
    convolutional autoencoder)

    A shallow embedding of [simplegan/gan/dcgan.py],
    [simplegan/autoencoder/vae.py] and
    [easygan/autoencoder/convolutional_autoencoder.py].

    Python objects are records, [None]-able attributes are options, the
    exceptions of the interpreter are values of [Py.exn], and a method is a
    function in a state-and-exception monad: an exception keeps every
    mutation done before it was raised.  TensorFlow variables live in one
    shared store indexed by variable identifiers; a Keras model only holds
    the identifiers of its trainable variables.  Scalars are real numbers:
    rounding of the floating-point kernels is not modelled. *)

From Stdlib Require Import ZArith List String Ascii Reals Lra Lia DecimalString
  DecimalPos DecimalZ.
From stdpp Require Import gmap strings list fin_maps.

Local Open Scope Z_scope.
Set Warnings "-register-all".

(** ** Python values, exceptions and sequences *)

Module Py.

Inductive exn :=
| AssertionError (msg : string)
| TypeError
| IndexError
| ValueError
| AttributeError
| NotFoundError.

Inductive value :=
| VNone
| VBool (b : bool)
| VInt (z : Z)
| VStr (s : string)
| VList (l : list value)
| VTuple (l : list value).

Inductive result (A : Type) :=
| Ok (a : A)
| Raise (e : exn).

Arguments Ok {A} a.
Arguments Raise {A} e.

Definition is_ok {A} (r : result A) : bool :=
  match r with Ok _ => true | Raise _ => false end.

(** [l[i]], negative indices counting from the end. *)
Definition index {A} (l : list A) (i : Z) : result A :=
  let n := Z.of_nat (length l) in
  let j := if i <? 0 then i + n else i in
  if (0 <=? j) && (j <? n)
  then match l !! Z.to_nat j with Some x => Ok x | None => Raise IndexError end
  else Raise IndexError.

(** [range(n)]: empty when [n <= 0]. *)
Definition range (n : Z) : list Z := map Z.of_nat (seq 0 (Z.to_nat n)).

(** [str(i)] on an integer. *)
Definition str (i : Z) : string := NilZero.string_of_int (Z.to_int i).

(** [s[-1]] on a string. *)
Fixpoint last_char (s : string) : option Ascii.ascii :=
  match s with
  | EmptyString => None
  | String c EmptyString => Some c
  | String _ rest => last_char rest
  end.

Definition starts_with_slash (s : string) : bool :=
  match s with
  | String c _ => bool_decide (c = "/"%char)
  | EmptyString => false
  end.

Definition ends_with_slash (s : string) : bool :=
  bool_decide (last_char s = Some "/"%char).

(** [os.path.join(a, b)] of [posixpath]. *)
Definition path_join (a b : string) : string :=
  if starts_with_slash b then b
  else if bool_decide (a = ""%string) || ends_with_slash a then a +:+ b
  else a +:+ "/" +:+ b.

(** The path of a checkpoint as the specification words it: [name] in the
    directory [dir], the separator appended exactly when [dir] does not end
    with one. *)
Definition checkpoint_path (dir name : string) : string :=
  (if ends_with_slash dir then dir else dir +:+ "/") +:+ name.

(** [enumerate(l)]. *)
Definition enumerate {A} (l : list A) : list (Z * A) :=
  zip (map Z.of_nat (seq 0 (length l))) l.

(** [len(v)]. *)
Definition len (v : value) : result Z :=
  match v with
  | VList l | VTuple l => Ok (Z.of_nat (length l))
  | VStr s => Ok (Z.of_nat (String.length s))
  | _ => Raise TypeError
  end.

(** An argument that has to be an integer ([bool] is a subclass of
    [int]). *)
Definition as_int (v : value) : result Z :=
  match v with
  | VInt z => Ok z
  | VBool b => Ok (if b then 1 else 0)
  | _ => Raise TypeError
  end.

(** [n == v] for an integer [n]. *)
Definition eq_int (n : Z) (v : value) : bool :=
  match v with
  | VInt z => n =? z
  | VBool b => n =? (if b then 1 else 0)
  | _ => false
  end.

(** [v[i]] on a list or tuple. *)
Definition getitem (v : value) (i : Z) : result value :=
  match v with
  | VList l | VTuple l => index l i
  | _ => Raise TypeError
  end.

(** An argument that has to be a string or [None]. *)
Definition as_opt_str (v : value) : result (option string) :=
  match v with
  | VNone => Ok None
  | VStr s => Ok (Some s)
  | _ => Raise TypeError
  end.

(** A kernel size or stride: a pair of integers, or one integer for both. *)
Definition as_pair (v : value) : result (Z * Z) :=
  match v with
  | VInt z => Ok (z, z)
  | VTuple [VInt a; VInt b] | VList [VInt a; VInt b] => Ok (a, b)
  | _ => Raise TypeError
  end.

End Py.

Import Py.

(** The state-and-exception monad of a method body. *)
Definition M (S A : Type) : Type := S → result A * S.

Definition ret {S A} (a : A) : M S A := λ s, (Ok a, s).

Definition bind {S A B} (m : M S A) (k : A → M S B) : M S B :=
  λ s, match m s with
       | (Ok a, s') => k a s'
       | (Raise e, s') => (Raise e, s')
       end.

Definition raise {S A} (e : exn) : M S A := λ s, (Raise e, s).

Definition get {S} : M S S := λ s, (Ok s, s).

Definition modify {S} (f : S → S) : M S unit := λ s, (Ok tt, f s).

Definition lift {S A} (r : result A) : M S A := λ s, (r, s).

(** [assert c, msg]. *)
Definition assert {S} (c : bool) (msg : string) : M S unit :=
  if c then ret tt else raise (AssertionError msg).

Declare Scope py_scope.
Delimit Scope py_scope with py.
Notation "x <- c ;; k" := (bind c (λ x, k))
  (at level 100, c at next level, right associativity) : py_scope.
Notation "c ;;; k" := (bind c (λ _, k))
  (at level 100, right associativity) : py_scope.
Local Open Scope py_scope.

(** [for x in l: acc = body(x, acc)] with the loop-carried locals [acc]. *)
Fixpoint for_each {S A L} (l : list A) (body : A → L → M S L) (acc : L) : M S L :=
  match l with
  | [] => ret acc
  | x :: rest => acc' <- body x acc ;; for_each rest body acc'
  end.

(** The same on a computation without state, for code that only builds
    values. *)
Definition rbind {A B} (r : result A) (k : A → result B) : result B :=
  match r with Ok a => k a | Raise e => Raise e end.

Notation "x <~ c ;; k" := (rbind c (λ x, k))
  (at level 100, c at next level, right associativity) : py_scope.

(** ** Tensors *)

Record tensor := Tensor { tshape : list Z; tdata : list R }.

Definition numel (s : list Z) : Z := fold_right Z.mul 1 s.

Definition zeros (s : list Z) : tensor :=
  Tensor s (replicate (Z.to_nat (numel s)) 0%R).

Definition t_map (f : R → R) (t : tensor) : tensor :=
  Tensor (tshape t) (map f (tdata t)).

Definition t_map2 (f : R → R → R) (a b : tensor) : tensor :=
  Tensor (tshape a) (zip_with f (tdata a) (tdata b)).

Definition t_sub := t_map2 Rminus.
Definition t_add := t_map2 Rplus.
Definition t_mul := t_map2 Rmult.
Definition t_square := t_map (λ x, x * x)%R.
Definition t_exp := t_map exp.
Definition t_add_scalar (t : tensor) (c : R) := t_map (λ x, x + c)%R t.
Definition t_scale (c : R) (t : tensor) := t_map (λ x, c * x)%R t.

Definition rsum (l : list R) : R := fold_right Rplus 0%R l.

(** The arithmetic mean of a list of numbers, 0 for the empty list. *)
Definition mean_of (l : list R) : R :=
  match l with
  | [] => 0%R
  | _ => (rsum l / INR (length l))%R
  end.

(** [tf.math.reduce_mean] over every element. *)
Definition reduce_mean (t : tensor) : R :=
  (rsum (tdata t) / INR (length (tdata t)))%R.

(** A batch has a leading dimension, which is not negative. *)
Definition is_batch (t : tensor) : bool :=
  match tshape t with
  | n :: _ => 0 <=? n
  | [] => false
  end.

(** A batch of [b] flattened examples of [d] values each. *)
Definition is_flat_batch (d : Z) (t : tensor) : bool :=
  match tshape t with
  | [b; d'] => (0 <=? b) && (d' =? d)
  | _ => false
  end.

(** Batches of examples of the shape [s], as [load_data] cuts them from an
    array whose examples have that shape. *)
Definition batches_of (s : list Z) (ds : list tensor) : Prop :=
  Forall (λ d, ∃ b, tshape d = b :: s ∧ 0 ≤ b) ds.

(** The number of examples in a list of batches. *)
Definition sum_rows (ds : list tensor) : Z :=
  foldr (λ x s, hd 0 (tshape x) + s) 0 ds.

(** Iterating over the first axis of an array. *)
Definition unstack (t : tensor) : result (list tensor) :=
  match tshape t with
  | [] => Raise TypeError
  | n :: rest =>
      let k := Z.to_nat (numel rest) in
      Ok (map (λ i, Tensor rest (take k (drop (i * k)%nat (tdata t))))
              (seq 0 (Z.to_nat n)))
  end.

(** [np.concatenate((a, b), 0)]. *)
Definition concatenate0 (a b : tensor) : result tensor :=
  match tshape a, tshape b with
  | n :: ra, m :: rb =>
      if bool_decide (ra = rb)
      then Ok (Tensor (n + m :: ra) (tdata a ++ tdata b))
      else Raise ValueError
  | _, _ => Raise ValueError
  end.

(** [np.array(l)] on a list of arrays: an empty list gives an array of
    shape [(0,)], arrays of one shape are stacked along a new first axis,
    and arrays of different shapes are refused, as NumPy does since it
    stopped building arrays of objects from ragged lists. *)
Definition np_array (l : list tensor) : result tensor :=
  match l with
  | [] => Ok (Tensor [0] [])
  | t :: _ =>
      if forallb (λ x, bool_decide (tshape x = tshape t)) l
      then Ok (Tensor (Z.of_nat (length l) :: tshape t) (concat (map tdata l)))
      else Raise ValueError
  end.

(** An array holds as many values as its shape says. *)
Definition well_formed (t : tensor) : Prop :=
  length (tdata t) = Z.to_nat (numel (tshape t)).

(** [a.reshape((-1,) + rest)]. *)
Definition reshape_rows (t : tensor) (rest : list Z) : result tensor :=
  let total := numel (tshape t) in
  let k := numel rest in
  if (k =? 0) || negb (total mod k =? 0) then Raise ValueError
  else Ok (Tensor (total / k :: rest) (tdata t)).

(** ** Keras layers

    Only what the training loop and the sample generators observe of a layer
    is kept: its constructor arguments and the shape of its output.  Every
    convolution of the sources is built with [padding='same']. *)

Record kernel_opts := KernelOpts {
  k_initializer : option string;
  k_regularizer : option string;
}.

Inductive layer :=
| Dense (units : Z) (activation : option string) (k : option kernel_opts)
        (input_dim : option Z)
| BatchNormalization
| LeakyReLU
| Dropout (rate : R)
| Flatten
| MaxPool2D
| Reshape (target : list Z)
| Conv2D (filters : Z) (kernel_size strides : Z * Z)
         (activation : option string) (k : option kernel_opts)
         (input_shape : option (list Z))
| Conv2DTranspose (filters : Z) (kernel_size strides : Z * Z)
                  (use_bias : bool) (activation : option string)
                  (k : option kernel_opts).

(** Replace the last dimension, as [Dense] does. *)
Fixpoint set_last (s : list Z) (u : Z) : list Z :=
  match s with
  | [] => []
  | [_] => [u]
  | d :: rest => d :: set_last rest u
  end.

Definition ceil_div (a b : Z) : Z := (a + b - 1) / b.

Definition layer_output_shape (l : layer) (s : list Z) : option (list Z) :=
  match l, s with
  | Dense u _ _ _, _ :: _ :: _ => Some (set_last s u)
  | BatchNormalization, _ => Some s
  | LeakyReLU, _ => Some s
  | Dropout _, _ => Some s
  | Flatten, n :: rest => Some [n; numel rest]
  | MaxPool2D, [n; h; w; c] => Some [n; h / 2; w / 2; c]
  | Reshape target, n :: rest =>
      if numel rest =? numel target then Some (n :: target) else None
  | Conv2D f _ (sh, sw) _ _ _, [n; h; w; _] =>
      Some [n; ceil_div h sh; ceil_div w sw; f]
  | Conv2DTranspose f _ (sh, sw) _ _ _, [n; h; w; _] =>
      Some [n; h * sh; w * sw; f]
  | _, _ => None
  end.

Fixpoint output_shape (ls : list layer) (s : list Z) : option (list Z) :=
  match ls with
  | [] => Some s
  | l :: rest =>
      match layer_output_shape l s with
      | Some s' => output_shape rest s'
      | None => None
      end
  end.

(** Every pooling layer of a stack applied to an input of shape [s] sees
    at least one whole window of 2 x 2 values. *)
Fixpoint pools_fit (ls : list layer) (s : list Z) : bool :=
  match ls with
  | [] => true
  | l :: rest =>
      match l, s with
      | MaxPool2D, [_; h; w; _] => (2 <=? h) && (2 <=? w)
      | _, _ => true
      end
      && match layer_output_shape l s with
         | Some s' => pools_fit rest s'
         | None => false
         end
  end.

(** A stack of layers that maps [b] rows to [b] rows, as a stack of dense
    layers does. *)
Definition rows_to_rows (ls : list layer) : Prop :=
  ∀ b d, ∃ u, output_shape ls [b; d] = Some [b; u].

(** The numbers of filters of the transposed convolutions of a stack, and
    of its convolutions, in the order of the layers. *)
Definition transposed_filters (ls : list layer) : list Z :=
  omap (λ l, match l with Conv2DTranspose f _ _ _ _ _ => Some f | _ => None end) ls.


(** The widths of the dense layers of a stack, in order. *)
Definition dense_units (ls : list layer) : list Z :=
  omap (λ l, match l with Dense u _ _ _ => Some u | _ => None end) ls.

(** ** The numerical library

    TensorFlow and Keras are external: the random generator, the
    initialisers, the forward pass of a stack of layers, automatic
    differentiation and the optimizers are operations of an interface.  The
    adversarial losses of [losses/minmax_loss.py] are taken as operations of
    the same interface. *)

Class Backend := {
  rng_state : Type;
  optimizer : Type;
  (** [tf.random.normal(shape)] *)
  random_normal : list Z → rng_state → tensor * rng_state;
  (** initial values of the trainable variables of a stack of layers *)
  init_weights : list layer → rng_state → list tensor * rng_state;
  (** forward pass with the given values of the trainable variables; the
      flag is the [training] argument of the call, [None] when absent *)
  apply_layers : list layer → list tensor → option bool → tensor → tensor;
  (** [tape.gradient(loss, [v])] of a scalar computed from the variables *)
  partial_derivative : (gmap nat tensor → R) → gmap nat tensor → nat → tensor;
  (** the class [name] of [tf.keras.optimizers] called with the keyword
      arguments; [None] when the module has no such attribute *)
  make_optimizer : string → list (string * R) → option optimizer;
  (** the value an optimizer assigns to a variable from its gradient *)
  opt_new_value : optimizer → nat → tensor → tensor → tensor;
  (** the optimizer's own state after one [apply_gradients] *)
  opt_advance : optimizer → list (tensor * nat) → optimizer;
  gan_discriminator_loss : tensor → tensor → R;
  gan_generator_loss : tensor → R;
}.

(** What is relied on of the library where shapes matter: a draw has the
    shape asked for, and a stack of layers gives the shape its layers
    infer. *)
Class BackendLaws (B : Backend) : Prop := {
  random_normal_shape : ∀ s r, tshape (random_normal s r).1 = s;
  apply_layers_shape : ∀ ls ws training x s,
    output_shape ls (tshape x) = Some s →
    tshape (apply_layers ls ws training x) = s;
}.

(** Modelled from the spec: [mse_loss] of [losses/mse_loss.py], which is not
    among the sources: the elementwise squared error between input and
    output, reduced to a scalar by the mean over all elements and batch
    members. *)
Definition mse_loss (y_true y_pred : tensor) : R :=
  reduce_mean (t_square (t_sub y_true y_pred)).

(** ** The world a method runs in *)

Inductive owner := Generator | Discriminator | Autoencoder.

#[global] Instance owner_eq_dec : EqDecision owner.
Proof. solve_decision. Defined.

Inductive print_arg :=
| PStr (s : string)
| PInt (z : Z)
| PReal (r : R).

Inductive event :=
| EvGradient (loss : R) (sources : list nat)
| EvApplyGradients (opt : owner) (vars : list nat)
| EvLoadWeights (path : string)
| EvSaveWeights (path : string)
| EvImwrite (path : string) (img : tensor)
| EvScalar (name : string) (v : R) (step : Z)
| EvPrint (args : list print_arg).

(** The optimizer steps of a trace, in order, by the network they update. *)
Definition updates (t : list event) : list owner :=
  omap (λ e, match e with EvApplyGradients who _ => Some who | _ => None end) t.


(** The scalars handed to [tape.gradient] in a trace, in order. *)
Definition gradient_losses (t : list event) : list R :=
  omap (λ e, match e with EvGradient loss _ => Some loss | _ => None end) t.

(** The losses of the steps of an adversarial epoch as its tapes see them:
    the discriminator's, then the generator's, step after step. *)
Definition flat_pairs (pairs : list (R * R)) : list R :=
  concat (map (λ p, [p.1; p.2]) pairs).

(** The checkpoints written in a trace, in order. *)
Definition saves (t : list event) : list string :=
  omap (λ e, match e with EvSaveWeights p => Some p | _ => None end) t.

(** The writes of one file per sample into [dir], as [generate_samples]
    names them: [sample_0.jpg], [sample_1.jpg], ... in the order of the
    samples. *)
Definition imwrites (dir : string) (samples : list tensor) : list event :=
  map (λ is_, EvImwrite (path_join dir ("sample_" +:+ str is_.1 +:+ ".jpg")) is_.2)
      (enumerate samples).

(** The scalars written for TensorBoard in a trace, in order: the name and
    the step of each. *)
Definition scalar_steps (t : list event) : list (string * Z) :=
  omap (λ e, match e with EvScalar name _ step => Some (name, step) | _ => None end) t.

(** The lists of variables handed to the optimizers in a trace, one per
    step, in order. *)
Definition update_targets (t : list event) : list (list nat) :=
  omap (λ e, match e with EvApplyGradients _ vs => Some vs | _ => None end) t.

(** The file of the sample of index [i] in [dir]. *)
Definition sample_path (dir : string) (i : nat) : string :=
  path_join dir ("sample_" +:+ str (Z.of_nat i) +:+ ".jpg").

Section World.
Context `{B : Backend}.

Record world := World {
  store : gmap nat tensor;          (* values of the tf.Variables *)
  next_var : nat;                   (* first unused variable identifier *)
  rng : rng_state;
  checkpoints : gmap string (list tensor);
  images : gmap string tensor;
  paths : gset string;              (* what os.path.exists answers *)
  trace : list event;               (* calls to the outside, oldest first *)
}.

Definition set_store (f : gmap nat tensor → gmap nat tensor) (w : world) : world :=
  World (f (store w)) (next_var w) (rng w) (checkpoints w) (images w)
        (paths w) (trace w).

Definition emit (e : event) : M world unit :=
  modify (λ w, World (store w) (next_var w) (rng w) (checkpoints w)
                     (images w) (paths w) (trace w ++ [e])).

(** [tf.random.normal(shape)]: a negative dimension is rejected. *)
Definition tf_random_normal (shape : list Z) : M world tensor :=
  λ w, if forallb (λ d, 0 <=? d) shape then
         let (t, r) := random_normal shape (rng w) in
         (Ok t, World (store w) (next_var w) r (checkpoints w) (images w)
                      (paths w) (trace w))
       else (Raise ValueError, w).

(** A Keras model: its layers and the identifiers of its trainable
    variables. *)
Record model := Model {
  layers : list layer;
  trainable_variables : list nat;
}.

Definition read_var (st : gmap nat tensor) (v : nat) : tensor :=
  default (zeros []) (st !! v).

Definition read_vars (st : gmap nat tensor) (vs : list nat) : list tensor :=
  map (read_var st) vs.

Definition assign_all (vs : list nat) (ts : list tensor)
    (st : gmap nat tensor) : gmap nat tensor :=
  foldl (λ acc vt, <[vt.1 := vt.2]> acc) st (zip vs ts).

(** Building a model creates fresh variables holding the initial values. *)
Definition new_model (ls : list layer) : M world model :=
  λ w, let (ws, r) := init_weights ls (rng w) in
       let vs := seq (next_var w) (length ws) in
       (Ok (Model ls vs),
        World (assign_all vs ws (store w)) (next_var w + length ws)%nat r
              (checkpoints w) (images w) (paths w) (trace w)).

(** [m(x)] and [m(x, training=...)]. *)
Definition call_model (m : model) (st : gmap nat tensor)
    (training : option bool) (x : tensor) : tensor :=
  apply_layers (layers m) (read_vars st (trainable_variables m)) training x.

(** [m.load_weights(path)]: the checkpoint must exist and match the
    topology of [m]. *)
Definition load_weights (m : model) (path : string) : M world unit :=
  w <- get ;;
  match checkpoints w !! path with
  | None => raise NotFoundError
  | Some ws =>
      if bool_decide (map tshape ws
                      = map tshape (read_vars (store w) (trainable_variables m)))
      then modify (set_store (assign_all (trainable_variables m) ws)) ;;;
           emit (EvLoadWeights path)
      else raise ValueError
  end.

(** Writing the values of the listed variables as one checkpoint. *)
Definition save_variables (vs : list nat) (path : string) : M world unit :=
  modify (λ w, World (store w) (next_var w) (rng w)
                 (<[path := read_vars (store w) vs]> (checkpoints w))
                 (images w) (paths w) (trace w)) ;;;
  emit (EvSaveWeights path).

(** [m.save_weights(path)]. *)
Definition save_weights (m : model) (path : string) : M world unit :=
  save_variables (trainable_variables m) path.

(** [tape.gradient(loss, sources)]: one gradient per source. *)
Definition tape_gradient (loss : gmap nat tensor → R) (sources : list nat)
    : M world (list tensor) :=
  w <- get ;;
  emit (EvGradient (loss (store w)) sources) ;;;
  ret (map (partial_derivative loss (store w)) sources).

(** The store after an optimizer has assigned each listed variable its new
    value, in the order of the list. *)
Definition apply_updates (opt : optimizer) (grads_and_vars : list (tensor * nat))
    (st : gmap nat tensor) : gmap nat tensor :=
  foldl (λ acc gv,
           <[gv.2 := opt_new_value opt gv.2 gv.1 (read_var acc gv.2)]> acc)
        st grads_and_vars.

(** [opt.apply_gradients(grads_and_vars)]: each listed variable, and no
    other, is assigned. *)
Definition apply_gradients (who : owner) (opt : optimizer)
    (grads_and_vars : list (tensor * nat)) : M world optimizer :=
  modify (set_store (apply_updates opt grads_and_vars)) ;;;
  emit (EvApplyGradients who (map snd grads_and_vars)) ;;;
  ret (opt_advance opt grads_and_vars).

Definition path_exists (p : string) : M world bool :=
  w <- get ;; ret (bool_decide (p ∈ paths w)).

(** [imageio.imwrite(path, img)]. *)
Definition imwrite (path : string) (img : tensor) : M world unit :=
  modify (λ w, World (store w) (next_var w) (rng w) (checkpoints w)
                 (<[path := img]> (images w)) (paths w) (trace w)) ;;;
  emit (EvImwrite path img).

(** An instance of a class: its attributes and the world around it. *)
Record obj (Self : Type) := Obj { self : Self; env : world }.
Arguments Obj {Self} self env.
Arguments self {Self} o.
Arguments env {Self} o.

Definition in_world {Self A} (m : M world A) : M (obj Self) A :=
  λ o, let (r, w) := m (env o) in (r, Obj (self o) w).

Definition get_self {Self} : M (obj Self) Self := λ o, (Ok (self o), o).

Definition set_self {Self} (f : Self → Self) : M (obj Self) unit :=
  modify (λ o, Obj (f (self o)) (env o)).

(** Calling an attribute that may still be [None]. *)
Definition callable (m : option model) : result model :=
  match m with Some m => Ok m | None => Raise TypeError end.

(** [tf.keras.metrics.Mean]. *)
Record Mean := MkMean { total : R; count : nat }.

Definition Mean_new : Mean := MkMean 0 0.
Definition reset_states (m : Mean) : Mean := MkMean 0 0.
Definition Mean_update (m : Mean) (v : R) : Mean :=
  MkMean (total m + v) (S (count m)).
Definition Mean_result (m : Mean) : R :=
  match count m with
  | O => 0%R
  | S _ => (total m / INR (count m))%R
  end.

(** What a method leaves as it found it when all it does is train or
    report: the attributes, the files, and the set of variables that
    exist; [evs] are its calls to the outside. *)
Definition extends {Self} (o o' : obj Self) (evs : list event) : Prop :=
  self o' = self o ∧ trace (env o') = trace (env o) ++ evs
  ∧ next_var (env o') = next_var (env o)
  ∧ checkpoints (env o') = checkpoints (env o)
  ∧ images (env o') = images (env o)
  ∧ paths (env o') = paths (env o).

(** The same world, respectively instance, with another record of its
    calls to the outside. *)
Definition set_trace (w : world) (tr : list event) : world :=
  World (store w) (next_var w) (rng w) (checkpoints w) (images w) (paths w) tr.

Definition with_trace {Self} (o : obj Self) (tr : list event) : obj Self :=
  Obj (self o) (set_trace (env o) tr).

(** Two instances that agree on everything except on what was logged,
    printed and written along the way. *)
Definition same_but_trace {Self} (o o' : obj Self) : Prop :=
  self o' = self o ∧ store (env o') = store (env o)
  ∧ next_var (env o') = next_var (env o) ∧ rng (env o') = rng (env o)
  ∧ checkpoints (env o') = checkpoints (env o)
  ∧ images (env o') = images (env o) ∧ paths (env o') = paths (env o).

(** Two computations that differ at most in what they record: started on
    instances that differ in the record only, they give the same result
    and again instances that differ in the record only. *)
Definition log_equivalent {Self A} (m m' : M (obj Self) A) : Prop :=
  ∀ o tr, ∃ tr', m' (with_trace o tr) = ((m o).1, with_trace (m o).2 tr').

Definition log_equivalent_w {A} (c c' : M world A) : Prop :=
  ∀ w tr, ∃ tr', c' (set_trace w tr) = ((c w).1, set_trace (c w).2 tr').

End World.

Arguments Obj {B Self} self env.
Arguments self {B Self} o.
Arguments env {B Self} o.

(** [for x in l] in code that only builds values. *)
Fixpoint rfor_each {A L} (l : list A) (body : A → L → result L) (acc : L)
    : result L :=
  match l with
  | [] => Ok acc
  | x :: rest => acc' <~ body x acc ;; rfor_each rest body acc'
  end.

(** [data.unbatch()]: the examples of the batches, in order. *)
Definition unbatch (data : list tensor) : result (list tensor) :=
  rfor_each data (λ b acc, rows <~ unstack b ;; Ok (acc ++ rows)) [].

(** [data.take(n)]: the first [n] elements, all of them when [n] is
    negative. *)
Definition ds_take {A} (n : Z) (data : list A) : list A :=
  if n <? 0 then data else take (Z.to_nat n) data.

(** [a.reshape(s)] for a shape [s] without inferred dimension. *)
Definition reshape_to (t : tensor) (s : list Z) : result tensor :=
  if forallb (λ d, 0 <=? d) s && (numel (tshape t) =? numel s)
  then Ok (Tensor s (tdata t)) else Raise ValueError.

(** ** [easygan/autoencoder/convolutional_autoencoder.py] *)

Module ConvolutionalAutoencoder.
Section Defs.
Context `{B : Backend}.

Record attrs := Attrs {
  enc : option model;
  dec : option model;
  image_size : option (list Z);
}.

(** [__init__]. *)
Definition init : attrs := Attrs None None None.

(** [params[key] if key in params else d]. *)
Definition param (params : gmap string value) (key : string) (d : value) : value :=
  match params !! key with Some v => v | None => d end.

(** [self.image_size[i]]: subscripting [None] is a [TypeError]. *)
Definition image_dim (a : attrs) (i : Z) : result Z :=
  match image_size a with
  | None => Raise TypeError
  | Some s => index s i
  end.

Definition enc_assert_msg : string :=
  "Dimension mismatch: length of enocoder encoder channels should match number of encoder layers".

Definition dec_assert_msg : string :=
  "Dimension mismatch: length of decoder channels should match number of decoder layers".

(** The layers stacked by [encoder], or the exception it raises. *)
Definition encoder_layers_of (a : attrs) (params : gmap string value)
    : result (list layer) :=
  let enc_channels := param params "enc_channels" (VList [VInt 32; VInt 64]) in
  let encoder_layers := param params "encoder_layers" (VInt 2) in
  let interm_dim := param params "interm_dim" (VInt 128) in
  let activation := param params "activation" (VStr "relu") in
  let kernel_initializer := param params "kernel_initializer" (VStr "glorot_uniform") in
  let kernel_regularizer := param params "kernel_regularizer" VNone in
  let kernel_size := param params "kernel_size" (VTuple [VInt 5; VInt 5]) in
  n <~ len enc_channels ;;
  if negb (eq_int n encoder_layers) then Raise (AssertionError enc_assert_msg)
  else
    c0 <~ getitem enc_channels 0 ;;
    c0 <~ as_int c0 ;;
    ks <~ as_pair kernel_size ;;
    act <~ as_opt_str activation ;;
    ki <~ as_opt_str kernel_initializer ;;
    kr <~ as_opt_str kernel_regularizer ;;
    let ko := Some (KernelOpts ki kr) in
    let first := [Conv2D (c0 / 2) ks (1, 1) act ko (image_size a); MaxPool2D] in
    count <~ as_int encoder_layers ;;
    body <~ rfor_each (range count)
              (λ i acc, c <~ getitem enc_channels i ;;
                        c <~ as_int c ;;
                        Ok (acc ++ [Conv2D c ks (1, 1) act ko None; MaxPool2D]))
              first ;;
    d <~ as_int interm_dim ;;
    Ok (body ++ [Flatten; Dense d (Some "sigmoid"%string) None None]).

(** The layers stacked by [decoder], or the exception it raises. *)
Definition decoder_layers_of (a : attrs) (params : gmap string value)
    : result (list layer) :=
  let dec_channels := param params "dec_channels" (VList [VInt 64; VInt 32]) in
  let decoder_layers := param params "decoder_layers" (VInt 2) in
  let interm_dim := param params "interm_dim" (VInt 128) in
  let activation := param params "activation" (VStr "relu") in
  let kernel_initializer := param params "kernel_initializer" (VStr "glorot_uniform") in
  let kernel_regularizer := param params "kernel_regularizer" VNone in
  let kernel_size := param params "kernel_size" (VTuple [VInt 5; VInt 5]) in
  n <~ len dec_channels ;;
  if negb (eq_int n decoder_layers) then Raise (AssertionError dec_assert_msg)
  else
    h <~ image_dim a 0 ;;
    w <~ image_dim a 1 ;;
    c0 <~ getitem dec_channels 0 ;;
    c0 <~ as_int c0 ;;
    act <~ as_opt_str activation ;;
    ki <~ as_opt_str kernel_initializer ;;
    kr <~ as_opt_str kernel_regularizer ;;
    d <~ as_int interm_dim ;;
    ks <~ as_pair kernel_size ;;
    let ko := Some (KernelOpts ki kr) in
    let first := [Dense ((h / 4) * (w / 4) * (c0 * 2)) act ko (Some d);
                  Reshape [h / 4; w / 4; c0 * 2]] in
    count <~ as_int decoder_layers ;;
    let block (strides : Z * Z) (ls_k : list layer * Z) :=
      c <~ getitem dec_channels ls_k.2 ;;
      c <~ as_int c ;;
      Ok (ls_k.1 ++ [Conv2DTranspose c ks strides true None ko]) in
    let step (_ : Z) (ls_k : list layer * Z) :=
      ls <~ block (1, 1) ls_k ;; Ok (ls, ls_k.2 + 1) in
    s1 <~ rfor_each (range (count / 2)) step (first, 0) ;;
    ls2 <~ block (2, 2) s1 ;;
    s3 <~ rfor_each (range (count / 2)) step (ls2, s1.2) ;;
    ch <~ image_dim a 2 ;;
    Ok (s3.1 ++ [Conv2DTranspose ch ks (2, 2) true (Some "tanh"%string) None]).

Definition encoder (params : gmap string value) : M (obj attrs) model :=
  a <- get_self ;;
  ls <- lift (encoder_layers_of a params) ;;
  in_world (new_model ls).






Definition decoder (params : gmap string value) : M (obj attrs) model :=
  a <- get_self ;;
  ls <- lift (decoder_layers_of a params) ;;
  in_world (new_model ls).

(** The default value of [params] in [build_model]. *)
Definition default_params : gmap string value :=
  list_to_map
    [("encoder_layers", VInt 2); ("decoder_layers", VInt 2);
     ("interm_dim", VInt 128);
     ("enc_channels", VList [VInt 32; VInt 64]);
     ("dec_channels", VList [VInt 64; VInt 32]);
     ("kernel_size", VTuple [VInt 5; VInt 5]); ("activation", VStr "relu");
     ("kernel_initializer", VStr "glorot_uniform");
     ("kernel_regularizer", VNone)]%string.

Definition build_model (params : gmap string value) : M (obj attrs) unit :=
  e <- encoder params ;;
  set_self (λ a, Attrs (Some e) (dec a) (image_size a)) ;;;
  d <- decoder params ;;
  set_self (λ a, Attrs (enc a) (Some d) (image_size a)).

(** [call]: the decoder applied to the code of the encoder. *)
Definition call (x : tensor) : M (obj attrs) tensor :=
  a <- get_self ;;
  e <- lift (callable (enc a)) ;;
  w <- in_world get ;;
  let x := call_model e (store w) None x in
  a <- get_self ;;
  d <- lift (callable (dec a)) ;;
  w <- in_world get ;;
  ret (call_model d (store w) None x).

End Defs.
End ConvolutionalAutoencoder.

(** ** [simplegan/gan/dcgan.py] *)

Module DCGAN.
Section Defs.
Context `{B : Backend}.

(** The hyperparameters captured by [self.config = locals()]. *)
Record config := Config {
  cfg_noise_dim : Z;
  dropout_rate : R;
  gen_channels : list Z;
  disc_channels : list Z;
  kernel_size : Z * Z;
  activation : string;
  kernel_initializer : string;
  kernel_regularizer : option string;
  gen_path : option string;
  disc_path : option string;
}.

Definition default_config : config :=
  Config 100 (4 / 10)%R [64; 32; 16] [16; 32; 64] (5, 5) "relu"
         "glorot_uniform" None None None.

Record attrs := Attrs {
  image_size : option (list Z);
  noise_dim : Z;
  gen_model : option model;
  disc_model : option model;
  cfg : config;
}.

(** [__init__]. *)
Definition init (c : config) : attrs :=
  Attrs None (cfg_noise_dim c) None None c.

(** What [load_data] leaves in the instance: the shape of one example of
    the array the loader returned.  The batches it returns are the
    [train_ds] given to [fit]. *)
Definition load_data (train_data : tensor) : M (obj attrs) unit :=
  set_self (λ a, Attrs (Some (tail (tshape train_data))) (noise_dim a)
                       (gen_model a) (disc_model a) (cfg a)).

(** [self.image_size[i]]. *)
Definition image_dim (a : attrs) (i : Z) : result Z :=
  match image_size a with
  | None => Raise TypeError
  | Some s => index s i
  end.

Definition kopts (c : config) : option kernel_opts :=
  Some (KernelOpts (Some (kernel_initializer c)) (kernel_regularizer c)).

(** One transposed convolution of [generator] with its normalisation and
    activation, reading [gen_channels[i]]; the loops also advance [i]. *)
Definition gen_block (c : config) (strides : Z * Z) (ls_i : list layer * Z)
    : result (list layer) :=
  ch <~ index (gen_channels c) ls_i.2 ;;
  Ok (ls_i.1 ++ [Conv2DTranspose ch (kernel_size c) strides false None (kopts c);
                 BatchNormalization; LeakyReLU]).

Definition gen_step (c : config) (_ : Z) (ls_i : list layer * Z)
    : result (list layer * Z) :=
  ls <~ gen_block c (1, 1) ls_i ;; Ok (ls, ls_i.2 + 1).

(** The layers stacked by [generator]. *)
Definition generator_layers (a : attrs) : result (list layer) :=
  let c := cfg a in
  let gen_layers := Z.of_nat (length (gen_channels c)) in
  h <~ image_dim a 0 ;;
  w <~ image_dim a 1 ;;
  c0 <~ index (gen_channels c) 0 ;;
  let first :=
    [Dense ((h / 4) * (w / 4) * (c0 * 2)) (Some (activation c)) (kopts c)
           (Some (cfg_noise_dim c));
     BatchNormalization; LeakyReLU;
     Reshape [h / 4; w / 4; c0 * 2]] in
  s1 <~ rfor_each (range (gen_layers / 2)) (gen_step c) (first, 0) ;;
  ls2 <~ gen_block c (2, 2) s1 ;;
  s3 <~ rfor_each (range (gen_layers / 2)) (gen_step c) (ls2, s1.2) ;;
  ch <~ image_dim a 2 ;;
  Ok (s3.1 ++ [Conv2DTranspose ch (kernel_size c) (2, 2) false
                               (Some "tanh"%string) None]).

(** The layers stacked by [discriminator]. *)
Definition discriminator_layers (a : attrs) : result (list layer) :=
  let c := cfg a in
  let disc_layers := Z.of_nat (length (disc_channels c)) in
  c0 <~ index (disc_channels c) 0 ;;
  let first :=
    [Conv2D (c0 / 2) (kernel_size c) (2, 2) None (kopts c) (image_size a);
     LeakyReLU; Dropout (dropout_rate c)] in
  body <~ rfor_each (range disc_layers)
            (λ i acc, ch <~ index (disc_channels c) i ;;
                      Ok (acc ++ [Conv2D ch (kernel_size c) (1, 1) None (kopts c) None;
                                  LeakyReLU; Dropout (dropout_rate c)]))
            first ;;
  cl <~ index (disc_channels c) (-1) ;;
  Ok (body ++ [Conv2D (cl * 2) (kernel_size c) (2, 2) None (kopts c) None;
               LeakyReLU; Dropout (dropout_rate c);
               Flatten; Dense 1 None None None]).

Definition generator : M (obj attrs) model :=
  a <- get_self ;;
  ls <- lift (generator_layers a) ;;
  in_world (new_model ls).

Definition discriminator : M (obj attrs) model :=
  a <- get_self ;;
  ls <- lift (discriminator_layers a) ;;
  in_world (new_model ls).

(** [__load_model]: both networks are built anew, then the checkpoints
    named in the configuration are restored. *)
Definition load_model : M (obj attrs) unit :=
  g <- generator ;;
  d <- discriminator ;;
  set_self (λ a, Attrs (image_size a) (noise_dim a) (Some g) (Some d) (cfg a)) ;;;
  a <- get_self ;;
  match gen_path (cfg a) with
  | Some p => in_world (load_weights g p ;;;
                        emit (EvPrint [PStr "Generator checkpoint restored"]))
  | None => ret tt
  end ;;;
  match disc_path (cfg a) with
  | Some p => in_world (load_weights d p ;;;
                        emit (EvPrint [PStr "Discriminator checkpoint restored"]))
  | None => ret tt
  end.

(** What building one network changes: fresh variables, nothing else. *)
Definition built (ls : result (list layer)) (o : obj attrs) (m : model)
    (o1 : obj attrs) : Prop :=
  ls = Ok (layers m)
  ∧ (∃ k, trainable_variables m = seq (next_var (env o)) k
          ∧ next_var (env o1) = (next_var (env o) + k)%nat)
  ∧ self o1 = self o ∧ trace (env o1) = trace (env o)
  ∧ checkpoints (env o1) = checkpoints (env o)
  ∧ images (env o1) = images (env o) ∧ paths (env o1) = paths (env o)
  ∧ (∀ v, (v < next_var (env o))%nat → store (env o1) !! v = store (env o) !! v).

(** An instance the loops of [fit] can run on: both networks are there and
    the noise dimension is not negative. *)
Definition trainable (o : obj attrs) : Prop :=
  ∃ g d, gen_model (self o) = Some g ∧ disc_model (self o) = Some d
         ∧ 0 ≤ noise_dim (self o).

(** The local variables of [fit] that its loops update. *)
Record locals := Locals {
  gen_optimizer : optimizer;
  disc_optimizer : optimizer;
  steps : Z;
  generator_loss : Mean;
  discriminator_loss : Mean;
}.

(** The keyword arguments of an optimizer: the learning rate and, for Adam
    only, [beta_1]. *)
Definition optimizer_kwargs (name : string) (learning_rate beta_1 : R)
    : list (string * R) :=
  let kwargs := [("learning_rate"%string, learning_rate)] in
  if bool_decide (name = "Adam"%string)
  then kwargs ++ [("beta_1"%string, beta_1)] else kwargs.

Definition build_optimizer {S} (name : string) (learning_rate beta_1 : R)
    : M S optimizer :=
  match make_optimizer name (optimizer_kwargs name learning_rate beta_1) with
  | Some o => ret o
  | None => raise AttributeError
  end.

(** The discriminator's loss as the first tape records it. *)
Definition D_loss_of (g d : model) (noise data : tensor)
    (st : gmap nat tensor) : R :=
  let fake := call_model g st None noise in
  let fake_logits := call_model d st None fake in
  let real_logits := call_model d st None data in
  gan_discriminator_loss real_logits fake_logits.

(** The generator's loss as the second tape records it. *)
Definition G_loss_of (g d : model) (noise : tensor)
    (st : gmap nat tensor) : R :=
  let fake := call_model g st None noise in
  let fake_logits := call_model d st None fake in
  gan_generator_loss fake_logits.

(** First half of a step: lines 405-416. *)
Definition phase_D (data : tensor) (opt : optimizer) : M (obj attrs) (R * optimizer) :=
  a <- get_self ;;
  n <- lift (index (tshape data) 0) ;;
  noise <- in_world (tf_random_normal [n; noise_dim a]) ;;
  g <- lift (callable (gen_model a)) ;;
  d <- lift (callable (disc_model a)) ;;
  w <- in_world get ;;
  let D_loss := D_loss_of g d noise data (store w) in
  gradients <- in_world (tape_gradient (D_loss_of g d noise data)
                                       (trainable_variables d)) ;;
  opt' <- in_world (apply_gradients Discriminator opt
                      (zip gradients (trainable_variables d))) ;;
  ret (D_loss, opt').

(** Second half of a step: lines 418-428. *)
Definition phase_G (data : tensor) (opt : optimizer) : M (obj attrs) (R * optimizer) :=
  a <- get_self ;;
  n <- lift (index (tshape data) 0) ;;
  noise <- in_world (tf_random_normal [n; noise_dim a]) ;;
  g <- lift (callable (gen_model a)) ;;
  d <- lift (callable (disc_model a)) ;;
  w <- in_world get ;;
  let G_loss := G_loss_of g d noise (store w) in
  gradients <- in_world (tape_gradient (G_loss_of g d noise)
                                       (trainable_variables g)) ;;
  opt' <- in_world (apply_gradients Generator opt
                      (zip gradients (trainable_variables g))) ;;
  ret (G_loss, opt').

(** The body of [for data in train_ds]. *)
Definition train_step (tensorboard : bool) (data : tensor) (l : locals)
    : M (obj attrs) locals :=
  dl <- phase_D data (disc_optimizer l) ;;
  gl <- phase_G data (gen_optimizer l) ;;
  let l' := Locals gl.2 dl.2 (steps l + 1)
                   (Mean_update (generator_loss l) gl.1)
                   (Mean_update (discriminator_loss l) dl.1) in
  (if tensorboard
   then in_world (emit (EvScalar "discr_loss" dl.1 (steps l')) ;;;
                  emit (EvScalar "genr_loss" gl.1 (steps l')))
   else ret tt) ;;;
  ret l'.

(** The body of [for epoch in range(epochs)].  The progress bar only
    displays; the labels of the printed line are those of the source, where
    ["D_loss:"] precedes the generator's mean. *)
Definition train_epoch (train_ds : list tensor) (verbose : Z)
    (tensorboard : bool) (epoch : Z) (l : locals) : M (obj attrs) locals :=
  let l := Locals (gen_optimizer l) (disc_optimizer l) (steps l)
                  (reset_states (generator_loss l))
                  (reset_states (discriminator_loss l)) in
  l <- for_each train_ds (train_step tensorboard) l ;;
  (if verbose =? 1
   then in_world (emit (EvPrint
          [PStr "Epoch:"; PInt (epoch + 1);
           PStr "D_loss:"; PReal (Mean_result (generator_loss l));
           PStr "G_loss"; PReal (Mean_result (discriminator_loss l))]))
   else ret tt) ;;;
  ret l.

(** Lines 458-466. *)
Definition save_checkpoints (save_model : value) : M (obj attrs) unit :=
  match save_model with
  | VNone => ret tt
  | VStr save_model =>
      c <- lift (match last_char save_model with
                 | Some c => Ok c
                 | None => Raise IndexError
                 end) ;;
      a <- get_self ;;
      if bool_decide (c ≠ "/"%char) then
        g <- lift (callable (gen_model a)) ;;
        in_world (save_weights g (save_model +:+ "/generator_checkpoint")) ;;;
        d <- lift (callable (disc_model a)) ;;
        in_world (save_weights d (save_model +:+ "/discriminator_checkpoint"))
      else
        g <- lift (callable (gen_model a)) ;;
        in_world (save_weights g (save_model +:+ "generator_checkpoint")) ;;;
        d <- lift (callable (disc_model a)) ;;
        in_world (save_weights d (save_model +:+ "discriminator_checkpoint"))
  | _ => raise (AssertionError "Not a valid directory")
  end.

(** [fit] up to the end of its loops: lines 369-456.  The summary writer
    and the cardinality of the dataset, which only feed the log directory
    and the progress bar, are left out. *)
Definition training (train_ds : list tensor) (epochs : Z)
    (gen_optimizer disc_optimizer : string) (verbose : Z)
    (gen_learning_rate disc_learning_rate beta_1 : R) (tensorboard : bool)
    : M (obj attrs) locals :=
  load_model ;;;
  gen_opt <- build_optimizer gen_optimizer gen_learning_rate beta_1 ;;
  disc_opt <- build_optimizer disc_optimizer disc_learning_rate beta_1 ;;
  let l := Locals gen_opt disc_opt 0 Mean_new Mean_new in
  for_each (range epochs) (train_epoch train_ds verbose tensorboard) l.

Definition fit (train_ds : option (list tensor)) (epochs : Z)
    (gen_optimizer disc_optimizer : string) (verbose : Z)
    (gen_learning_rate disc_learning_rate beta_1 : R) (tensorboard : bool)
    (save_model : value) : M (obj attrs) unit :=
  match train_ds with
  | None => raise (AssertionError "Initialize training data through train_ds parameter")
  | Some train_ds =>
      training train_ds epochs gen_optimizer disc_optimizer verbose
               gen_learning_rate disc_learning_rate beta_1 tensorboard ;;;
      save_checkpoints save_model
  end.

(** Lines 483-491 of [generate_samples]: the array when [save_dir] is
    [None], otherwise [None] after one file per sample has been written. *)
Definition generate_from_model (n_samples : Z) (save_dir : option string)
    : M (obj attrs) (option tensor) :=
  a <- get_self ;;
  noise <- in_world (tf_random_normal [n_samples; noise_dim a]) ;;
  g <- lift (callable (gen_model a)) ;;
  w <- in_world get ;;
  let generated_samples := call_model g (store w) None noise in
  match save_dir with
  | None => ret (Some generated_samples)
  | Some dir =>
      ex <- in_world (path_exists dir) ;;
      assert ex "Directory does not exist" ;;;
      samples <- lift (unstack generated_samples) ;;
      for_each (enumerate samples)
        (λ is_ _, in_world (imwrite (path_join dir ("sample_" +:+ str is_.1 +:+ ".jpg"))
                                    is_.2))
        tt ;;;
      ret None
  end.

(** [generate_samples]: the networks are built first when the generator is
    missing. *)
Definition generate_samples (n_samples : Z) (save_dir : option string)
    : M (obj attrs) (option tensor) :=
  a <- get_self ;;
  match gen_model a with
  | None => load_model
  | Some _ => ret tt
  end ;;;
  generate_from_model n_samples save_dir.

(** [get_sample]. *)
Definition get_sample (data : option (list tensor)) (n_samples : Z)
    (save_dir : option string) : M (obj attrs) (option tensor) :=
  match data with
  | None => raise (AssertionError "Data not provided")
  | Some data =>
      data <- lift (unbatch data) ;;
      sample_images <- lift (rfor_each (ds_take n_samples data)
                               (λ img acc, Ok (acc ++ [img])) []) ;;
      sample_images <- lift (np_array sample_images) ;;
      match save_dir with
      | None => ret (Some sample_images)
      | Some dir =>
          ex <- in_world (path_exists dir) ;;
          assert ex "Directory does not exist" ;;;
          samples <- lift (unstack sample_images) ;;
          for_each (enumerate samples)
            (λ is_ _, in_world (imwrite (path_join dir ("sample_" +:+ str is_.1 +:+ ".jpg"))
                                        is_.2))
            tt ;;;
          ret None
      end
  end.

End Defs.
End DCGAN.

(** ** [simplegan/autoencoder/vae.py] *)

Module VAE.
Section Defs.
Context `{B : Backend}.

Record config := Config {
  interm_dim : Z;
  latent_dim : Z;
  enc_units : list Z;
  dec_units : list Z;
  activation : string;
  kernel_initializer : string;
  kernel_regularizer : option string;
}.

Definition default_config : config :=
  Config 256 32 [256; 128] [128; 256] "relu" "glorot_uniform" None.

(** Lines 239-241: the closed-form KL term, from the two outputs of the
    encoder. *)
Definition kl_loss (z_mean z_var : tensor) : R :=
  (- (1 / 2) *
   reduce_mean
     (t_add_scalar (t_sub (t_sub z_var (t_square z_mean)) (t_exp z_var)) 1))%R.

(** The closed form as the specification writes it,
    [-0.5 * mean(z_var - z_mean² - exp(z_var) + 1)], on the entries of the
    latent batch. *)
Definition kl_formula (z_mean z_var : list R) : R :=
  (- (1 / 2) *
   (rsum (zip_with (λ m v, v - m * m - exp v + 1) z_mean z_var)
    / INR (length z_mean)))%R.

(** The functional model returned by [vae]: the dense stack of the encoder,
    its two heads, the decoder, and the losses registered with
    [add_loss]. *)
Record vae_model := VaeModel {
  trunk : model;
  mean_head : model;
  var_head : model;
  decoder : model;
  losses : list (tensor → tensor → R);
}.

Definition vae_trainable_variables (m : vae_model) : list nat :=
  trainable_variables (trunk m) ++ trainable_variables (mean_head m)
  ++ trainable_variables (var_head m) ++ trainable_variables (decoder m).

Record attrs := Attrs {
  model_ : option vae_model;
  image_size : option (list Z);
  cfg : config;
}.

(** [__init__]. *)
Definition init (c : config) : attrs := Attrs None None c.

(** What [load_data] leaves in the instance. *)
Definition load_data (train_data : tensor) : M (obj attrs) unit :=
  set_self (λ a, Attrs (model_ a) (Some (tail (tshape train_data))) (cfg a)).

Definition image_dim (a : attrs) (i : Z) : result Z :=
  match image_size a with
  | None => Raise TypeError
  | Some s => index s i
  end.

Definition kopts (c : config) : option kernel_opts :=
  Some (KernelOpts (Some (kernel_initializer c)) (kernel_regularizer c)).

Definition dense (c : config) (units : Z) : layer :=
  Dense units (Some (activation c)) (kopts c) None.

(** The dense layers of the encoder, before the two heads. *)
Definition encoder_layers_of (a : attrs) (c : config) : result (list layer) :=
  let encoder_layers := Z.of_nat (length (enc_units c)) in
  h <~ image_dim a 0 ;;
  w <~ image_dim a 1 ;;
  ch <~ image_dim a 2 ;;
  u0 <~ index (enc_units c) 0 ;;
  let first := [Dense (u0 * 2) (Some (activation c)) (kopts c) (Some (h * w * ch))] in
  body <~ rfor_each (range encoder_layers)
            (λ i acc, u <~ index (enc_units c) i ;; Ok (acc ++ [dense c u]))
            first ;;
  Ok (body ++ [dense c (interm_dim c)]).

(** The layers of the decoder. *)
Definition decoder_layers_of (a : attrs) (c : config) : result (list layer) :=
  let decoder_layers := Z.of_nat (length (dec_units c)) in
  u0 <~ index (dec_units c) 0 ;;
  let first := [Dense (u0 / 2) (Some (activation c)) (kopts c) (Some (latent_dim c))] in
  body <~ rfor_each (range decoder_layers)
            (λ i acc, u <~ index (dec_units c) i ;; Ok (acc ++ [dense c u]))
            first ;;
  h <~ image_dim a 0 ;;
  w <~ image_dim a 1 ;;
  ch <~ image_dim a 2 ;;
  Ok (body ++ [Dense (h * w * ch) (Some "sigmoid"%string) None None]).

(** [vae(config)]. *)
Definition vae (c : config) : M (obj attrs) vae_model :=
  a <- get_self ;;
  enc <- lift (encoder_layers_of a c) ;;
  t <- in_world (new_model enc) ;;
  zm <- in_world (new_model [Dense (latent_dim c) None None None]) ;;
  zv <- in_world (new_model [Dense (latent_dim c) None None None]) ;;
  dec <- lift (decoder_layers_of a c) ;;
  d <- in_world (new_model dec) ;;
  ret (VaeModel t zm zv d [kl_loss]).

(** The model is the one [vae] builds from the present configuration and
    image size. *)
Definition built_from_config (a : attrs) (m : vae_model) : Prop :=
  encoder_layers_of a (cfg a) = Ok (layers (trunk m))
  ∧ layers (mean_head m) = [Dense (latent_dim (cfg a)) None None None]
  ∧ layers (var_head m) = [Dense (latent_dim (cfg a)) None None None]
  ∧ decoder_layers_of a (cfg a) = Ok (layers (decoder m)).

(** [__load_model]. *)
Definition load_model : M (obj attrs) unit :=
  a <- get_self ;;
  m <- vae (cfg a) ;;
  set_self (λ a, Attrs (Some m) (image_size a) (cfg a)).

(** The two outputs of the encoder. *)
Definition encode (m : vae_model) (st : gmap nat tensor)
    (training : option bool) (x : tensor) : tensor * tensor :=
  let x := call_model (trunk m) st training x in
  (call_model (mean_head m) st training x,
   call_model (var_head m) st training x).

(** [sampling], given the draw [epsilon]. *)
Definition sampling (z_mean z_var epsilon : tensor) : tensor :=
  t_add z_mean (t_mul (t_exp (t_scale (1 / 2) z_var)) epsilon).

(** The output of the model for one draw of [epsilon]. *)
Definition forward (m : vae_model) (st : gmap nat tensor)
    (training : option bool) (epsilon x : tensor) : tensor :=
  let zs := encode m st training x in
  call_model (decoder m) st training (sampling zs.1 zs.2 epsilon).

(** The draw made by the [Lambda] layer during one call of the model. *)
Definition draw_epsilon (m : vae_model) (training : option bool) (x : tensor)
    : M world tensor :=
  w <- get ;;
  let z_mean := (encode m (store w) training x).1 in
  batch <- lift (index (tshape z_mean) 0) ;;
  dim <- lift (index (tshape z_mean) 1) ;;
  tf_random_normal [batch; dim].

Definition callable_vae (m : option vae_model) : result vae_model :=
  match m with Some m => Ok m | None => Raise TypeError end.

(** The scalar the tape of [fit] records: lines 307-308. *)
Definition loss_of (m : vae_model) (epsilon data : tensor)
    (st : gmap nat tensor) : R :=
  let data_recon := forward m st None epsilon data in
  mse_loss data data_recon.

Record locals := Locals {
  optimizer_ : optimizer;
  steps : Z;
  train_loss : Mean;
}.

(** The body of [for data in train_ds]. *)
Definition train_step (tensorboard : bool) (data : tensor) (l : locals)
    : M (obj attrs) locals :=
  a <- get_self ;;
  m <- lift (callable_vae (model_ a)) ;;
  epsilon <- in_world (draw_epsilon m None data) ;;
  w <- in_world get ;;
  let loss := loss_of m epsilon data (store w) in
  gradients <- in_world (tape_gradient (loss_of m epsilon data)
                                       (vae_trainable_variables m)) ;;
  opt' <- in_world (apply_gradients Autoencoder (optimizer_ l)
                      (zip gradients (vae_trainable_variables m))) ;;
  let l' := Locals opt' (steps l + 1) (Mean_update (train_loss l) loss) in
  (if tensorboard then in_world (emit (EvScalar "loss" loss (steps l')))
   else ret tt) ;;;
  ret l'.

(** The body of [for epoch in range(epochs)]. *)
Definition train_epoch (train_ds : list tensor) (verbose : Z)
    (tensorboard : bool) (epoch : Z) (l : locals) : M (obj attrs) locals :=
  let l := Locals (optimizer_ l) (steps l) (reset_states (train_loss l)) in
  l <- for_each train_ds (train_step tensorboard) l ;;
  (if verbose =? 1
   then in_world (emit (EvPrint
          [PStr "Epoch:"; PInt (epoch + 1);
           PStr "reconstruction loss:"; PReal (Mean_result (train_loss l))]))
   else ret tt) ;;;
  ret l.

(** Lines 328-334. *)
Definition save_checkpoint (save_model : value) : M (obj attrs) unit :=
  match save_model with
  | VNone => ret tt
  | VStr save_model =>
      c <- lift (match last_char save_model with
                 | Some c => Ok c
                 | None => Raise IndexError
                 end) ;;
      a <- get_self ;;
      if bool_decide (c ≠ "/"%char) then
        m <- lift (callable_vae (model_ a)) ;;
        in_world (save_variables (vae_trainable_variables m)
                    (save_model +:+ "/variational_autoencoder_checkpoint"))
      else
        m <- lift (callable_vae (model_ a)) ;;
        in_world (save_variables (vae_trainable_variables m)
                    (save_model +:+ "variational_autoencoder_checkpoint"))
  | _ => raise (AssertionError "Not a valid directory")
  end.

(** [fit] up to the end of its loops: lines 280-326, without the summary
    writer and the progress bar. *)
Definition training (train_ds : list tensor) (epochs : Z)
    (optimizer : string) (verbose : Z) (learning_rate : R)
    (tensorboard : bool) : M (obj attrs) locals :=
  load_model ;;;
  opt <- match make_optimizer optimizer [("learning_rate"%string, learning_rate)] with
         | Some o => ret o
         | None => raise AttributeError
         end ;;
  let l := Locals opt 0 Mean_new in
  for_each (range epochs) (train_epoch train_ds verbose tensorboard) l.

Definition fit (train_ds : option (list tensor)) (epochs : Z)
    (optimizer : string) (verbose : Z) (learning_rate : R)
    (tensorboard : bool) (save_model : value) : M (obj attrs) unit :=
  match train_ds with
  | None => raise (AssertionError "Initialize training data through train_ds parameter")
  | Some train_ds =>
      training train_ds epochs optimizer verbose learning_rate tensorboard ;;;
      save_checkpoint save_model
  end.

(** The body of the loop of [generate_samples]: lines 352-357. *)
Definition generate_step (i_data : Z * tensor) (generated_samples : tensor)
    : M (obj attrs) tensor :=
  a <- get_self ;;
  m <- lift (callable_vae (model_ a)) ;;
  epsilon <- in_world (draw_epsilon m (Some false) i_data.2) ;;
  w <- in_world get ;;
  let gen_sample := forward m (store w) (Some false) epsilon i_data.2 in
  if i_data.1 =? 0 then ret gen_sample
  else lift (concatenate0 generated_samples gen_sample).

(** [generate_samples]. *)
Definition generate_samples (test_ds : option (list tensor))
    (save_dir : option string) : M (obj attrs) (option tensor) :=
  match test_ds with
  | None => raise (AssertionError "Enter input test dataset")
  | Some test_ds =>
      generated_samples <-
        for_each (enumerate test_ds) generate_step (Tensor [0] []) ;;
      a <- get_self ;;
      h <- lift (image_dim a 0) ;;
      w <- lift (image_dim a 1) ;;
      ch <- lift (image_dim a 2) ;;
      generated_samples <- lift (reshape_rows generated_samples [h; w; ch]) ;;
      match save_dir with
      | None => ret (Some generated_samples)
      | Some dir =>
          ex <- in_world (path_exists dir) ;;
          assert ex "Directory does not exist" ;;;
          samples <- lift (unstack generated_samples) ;;
          for_each (enumerate samples)
            (λ is_ _, in_world (imwrite (path_join dir ("sample_" +:+ str is_.1 +:+ ".jpg"))
                                        is_.2))
            tt ;;;
          ret None
      end
  end.

(** [get_sample]: every example taken is given the shape of an image. *)
Definition get_sample (data : option (list tensor)) (n_samples : Z)
    (save_dir : option string) : M (obj attrs) (option tensor) :=
  match data with
  | None => raise (AssertionError "Data not provided")
  | Some data =>
      data <- lift (unbatch data) ;;
      a <- get_self ;;
      sample_images <- lift (rfor_each (ds_take n_samples data)
                               (λ img acc,
                                  h <~ image_dim a 0 ;;
                                  w <~ image_dim a 1 ;;
                                  ch <~ image_dim a 2 ;;
                                  img <~ reshape_to img [h; w; ch] ;;
                                  Ok (acc ++ [img])) []) ;;
      sample_images <- lift (np_array sample_images) ;;
      match save_dir with
      | None => ret (Some sample_images)
      | Some dir =>
          ex <- in_world (path_exists dir) ;;
          assert ex "Directory does not exist" ;;;
          samples <- lift (unstack sample_images) ;;
          for_each (enumerate samples)
            (λ is_ _, in_world (imwrite (path_join dir ("sample_" +:+ str is_.1 +:+ ".jpg"))
                                        is_.2))
            tt ;;;
          ret None
      end
  end.

End Defs.
End VAE.

(** ** A small numerical library to run the models on

    Every draw of the random generator is a tensor of zeros, a layer has one
    trainable variable, the forward pass fills a tensor of the inferred
    shape with the first weight of the stack, every gradient is one, and an
    optimizer subtracts the gradient. *)

Module Toy.

Definition fill (s : list Z) (c : R) : tensor :=
  Tensor s (replicate (Z.to_nat (numel s)) c).

Definition first_weight (ws : list tensor) : R :=
  match ws with
  | w :: _ => match tdata w with x :: _ => x | [] => 0%R end
  | [] => 0%R
  end.

#[global] Instance backend : Backend := {|
  rng_state := nat;
  optimizer := nat;
  random_normal := λ s r, (zeros s, S r);
  init_weights := λ ls r,
    (map (λ _, Tensor [1] [if Nat.odd r then 1%R else 0%R]) ls, S r);
  apply_layers := λ ls ws _ x,
    fill (default (tshape x) (output_shape ls (tshape x))) (first_weight ws);
  partial_derivative := λ _ _ _, Tensor [1] [1%R];
  make_optimizer := λ name _,
    if bool_decide (name ∈ ["Adam"; "SGD"; "RMSprop"]%string) then Some O else None;
  opt_new_value := λ _ _ g old, t_sub old g;
  opt_advance := λ o _, S o;
  gan_discriminator_loss := λ real fake, (rsum (tdata real) + rsum (tdata fake))%R;
  gan_generator_loss := λ fake, rsum (tdata fake);
|}.

Definition world0 : world :=
  World ∅ 0 0%nat ∅ ∅ {["out"%string]} [].

(** An optimizer that has made no step. *)
Definition opt0 : @optimizer backend := O.

(** A DCGAN with the default hyperparameters, before and after [load_data]
    on two 4x4 grey images, and one batch of that data. *)
Definition dcgan0 : obj DCGAN.attrs :=
  Obj (DCGAN.init DCGAN.default_config) world0.

Definition dcgan_loaded : obj DCGAN.attrs :=
  (DCGAN.load_data (zeros [2; 4; 4; 1]) dcgan0).2.

Definition batch : tensor := zeros [2; 4; 4; 1].

(** The same instance once its networks are built. *)
Definition dcgan_built : obj DCGAN.attrs := (DCGAN.load_model dcgan_loaded).2.




(** The same on 8x8 grey images, which the three poolings of the default
    encoder can halve. *)
Definition convae_8 : obj ConvolutionalAutoencoder.attrs :=
  Obj (ConvolutionalAutoencoder.Attrs None None (Some [8; 8; 1])) world0.


(** A DCGAN whose data are 30x30 colour images. *)
Definition dcgan_30 : obj DCGAN.attrs :=
  (DCGAN.load_data (zeros [1; 30; 30; 3]) dcgan0).2.

Definition vae_config : VAE.config :=
  VAE.Config 2 1 [1] [2] "relu" "glorot_uniform" None.

Definition vae_loaded : obj VAE.attrs :=
  (VAE.load_data (zeros [2; 1; 1; 1]) (Obj (VAE.init vae_config) world0)).2.

Definition vae_built : obj VAE.attrs := (VAE.load_model vae_loaded).2.

Definition vae_batch : tensor := zeros [2; 1].

Definition vae_locals0 : VAE.locals := VAE.Locals opt0 0 Mean_new.

(** A DCGAN configured to restore its generator from a checkpoint that was
    never written, after [load_data] on 4x4 grey images. *)
Definition dcgan_restoring : obj DCGAN.attrs :=
  Obj (DCGAN.Attrs (Some [4; 4; 1]) 100 None None
         (DCGAN.Config 100 (4 / 10)%R [64; 32; 16] [16; 32; 64] (5, 5) "relu"
            "glorot_uniform" None (Some "ckpt/generator"%string) None))
      world0.

End Toy.

(** * Properties *)

(** ** The monad and the store *)

Section Facts.
Context `{B : Backend}.

Lemma bind_inv {S A C} (m : M S A) (k : A → M S C) s c s'' :
  bind m k s = (Ok c, s'') →
  ∃ a s', m s = (Ok a, s') ∧ k a s' = (Ok c, s'').
Proof.
  unfold bind. destruct (m s) as [[a|e] s'] eqn:E; intros H; [eauto | discriminate].
Qed.

Lemma bind_ok {S A C} (m : M S A) (k : A → M S C) s a s' :
  m s = (Ok a, s') → bind m k s = k a s'.
Proof. unfold bind. by intros ->. Qed.


Lemma index_ok {A} (l : list A) i x :
  0 ≤ i → l !! Z.to_nat i = Some x → index l i = Ok x.
Proof.
  intros Hi Hx. unfold index.
  pose proof (lookup_lt_Some _ _ _ Hx) as Hlt.
  destruct (i <? 0) eqn:E; [apply Z.ltb_lt in E; lia|].
  replace ((0 <=? i) && (i <? Z.of_nat (length l))) with true; [by rewrite Hx|].
  symmetry. apply andb_true_iff. split; [apply Z.leb_le | apply Z.ltb_lt]; lia.
Qed.

Lemma index_nonneg_inv {A} (l : list A) i x :
  0 ≤ i → index l i = Ok x → l !! Z.to_nat i = Some x.
Proof.
  intros Hi. unfold index.
  destruct (i <? 0) eqn:E; [apply Z.ltb_lt in E; lia|].
  destruct ((0 <=? i) && (i <? Z.of_nat (length l))); [|discriminate].
  destruct (l !! Z.to_nat i); [|discriminate]. by intros [= ->].
Qed.

Lemma snd_zip_map {A C} (f : A → C) (l : list A) :
  map snd (zip (map f l) l) = l.
Proof. induction l as [|x l IH]; simpl; [done | by rewrite IH]. Qed.

(** An optimizer step leaves every variable it was not given as it is. *)
Lemma apply_updates_frame opt gv st v :
  v ∉ map snd gv → apply_updates opt gv st !! v = st !! v.
Proof.
  unfold apply_updates. revert st.
  induction gv as [|[g u] gv IH]; intros st Hv; simpl in *; [done|].
  rewrite IH by (intros Hin; apply Hv; by right).
  rewrite lookup_insert_ne; [done |].
  intros ->. apply Hv. by left.
Qed.

Lemma read_vars_frame (st st' : gmap nat tensor) vs :
  (∀ v, v ∈ vs → st' !! v = st !! v) → read_vars st' vs = read_vars st vs.
Proof.
  intros H. unfold read_vars. apply map_ext_in. intros v Hv.
  unfold read_var. rewrite H; [done | by apply list_elem_of_In].
Qed.

Lemma assign_all_frame vs ts (st : gmap nat tensor) v :
  v ∉ vs → assign_all vs ts st !! v = st !! v.
Proof.
  unfold assign_all. revert ts st.
  induction vs as [|u vs IH]; intros [|t ts] st Hv; simpl; try done.
  rewrite IH by (intros Hin; apply Hv; by right).
  rewrite lookup_insert_ne; [done |].
  intros ->. apply Hv. by left.
Qed.

Lemma updates_app t1 t2 : updates (t1 ++ t2) = updates t1 ++ updates t2.
Proof. unfold updates. apply omap_app. Qed.

Lemma saves_app t1 t2 : saves (t1 ++ t2) = saves t1 ++ saves t2.
Proof. unfold saves. apply omap_app. Qed.

Lemma extends_refl {Self} (o : obj Self) : extends o o [].
Proof. unfold extends. by rewrite app_nil_r. Qed.

Lemma extends_trans {Self} (o o1 o2 : obj Self) e1 e2 :
  extends o o1 e1 → extends o1 o2 e2 → extends o o2 (e1 ++ e2).
Proof.
  unfold extends. intros (?&?&?&?&?&?) (?&?&?&?&?&?).
  rewrite app_assoc. repeat split; congruence.
Qed.

End Facts.

(** ** The adversarial training loop *)

Section DCGANFacts.
Context `{B : Backend}.
Import DCGAN.

Lemma is_batch_shape data :
  is_batch data = true → ∃ n rest, tshape data = n :: rest ∧ 0 ≤ n.
Proof.
  unfold is_batch. destruct (tshape data) as [|n rest]; [discriminate|].
  intros H. exists n, rest. split; [done | by apply Z.leb_le].
Qed.

Lemma phase_D_eq (o : obj attrs) data opt g d n rest :
  gen_model (self o) = Some g →
  disc_model (self o) = Some d →
  tshape data = n :: rest → 0 ≤ n → 0 ≤ noise_dim (self o) →
  phase_D data opt o =
    let noise := random_normal [n; noise_dim (self o)] (rng (env o)) in
    let st := store (env o) in
    let loss := D_loss_of g d noise.1 data st in
    let gv := zip (map (partial_derivative (D_loss_of g d noise.1 data) st)
                       (trainable_variables d)) (trainable_variables d) in
    (Ok (loss, opt_advance opt gv),
     Obj (self o)
         (World (apply_updates opt gv st) (next_var (env o)) noise.2
                (checkpoints (env o)) (images (env o)) (paths (env o))
                (trace (env o)
                 ++ [EvGradient loss (trainable_variables d);
                     EvApplyGradients Discriminator (trainable_variables d)]))).
Proof.
  intros Hg Hd Hs Hn Hnd.
  destruct o as [a w]; simpl in *.
  unfold phase_D, bind, get_self, lift, in_world, tf_random_normal; simpl.
  rewrite Hs; simpl. unfold index; simpl.
  assert (Hc : (0 <=? n) && ((0 <=? noise_dim a) && true) = true)
    by (rewrite andb_true_r, andb_true_iff; split; apply Z.leb_le; lia).
  rewrite Hc, Hg, Hd.
  destruct (random_normal [n; noise_dim a] (rng w)) as [t r]; simpl.
  unfold ret. rewrite snd_zip_map, <- app_assoc. reflexivity.
Qed.

Lemma phase_G_eq (o : obj attrs) data opt g d n rest :
  gen_model (self o) = Some g →
  disc_model (self o) = Some d →
  tshape data = n :: rest → 0 ≤ n → 0 ≤ noise_dim (self o) →
  phase_G data opt o =
    let noise := random_normal [n; noise_dim (self o)] (rng (env o)) in
    let st := store (env o) in
    let loss := G_loss_of g d noise.1 st in
    let gv := zip (map (partial_derivative (G_loss_of g d noise.1) st)
                       (trainable_variables g)) (trainable_variables g) in
    (Ok (loss, opt_advance opt gv),
     Obj (self o)
         (World (apply_updates opt gv st) (next_var (env o)) noise.2
                (checkpoints (env o)) (images (env o)) (paths (env o))
                (trace (env o)
                 ++ [EvGradient loss (trainable_variables g);
                     EvApplyGradients Generator (trainable_variables g)]))).
Proof.
  intros Hg Hd Hs Hn Hnd.
  destruct o as [a w]; simpl in *.
  unfold phase_G, bind, get_self, lift, in_world, tf_random_normal; simpl.
  rewrite Hs; simpl. unfold index; simpl.
  assert (Hc : (0 <=? n) && ((0 <=? noise_dim a) && true) = true)
    by (rewrite andb_true_r, andb_true_iff; split; apply Z.leb_le; lia).
  rewrite Hc, Hg, Hd.
  destruct (random_normal [n; noise_dim a] (rng w)) as [t r]; simpl.
  unfold ret. rewrite snd_zip_map, <- app_assoc. reflexivity.
Qed.

Lemma phase_D_extends (o : obj attrs) data opt :
  trainable o → is_batch data = true →
  ∃ r o' vs, phase_D data opt o = (Ok r, o')
    ∧ extends o o' [EvGradient r.1 vs; EvApplyGradients Discriminator vs].
Proof.
  intros (g & d & Hg & Hd & Hnd) (n & rest & Hs & Hn)%is_batch_shape.
  rewrite (phase_D_eq o data opt g d n rest) by done.
  eexists _, _, _. split; [reflexivity|]. by repeat split.
Qed.

Lemma phase_G_extends (o : obj attrs) data opt :
  trainable o → is_batch data = true →
  ∃ r o' vs, phase_G data opt o = (Ok r, o')
    ∧ extends o o' [EvGradient r.1 vs; EvApplyGradients Generator vs].
Proof.
  intros (g & d & Hg & Hd & Hnd) (n & rest & Hs & Hn)%is_batch_shape.
  rewrite (phase_G_eq o data opt g d n rest) by done.
  eexists _, _, _. split; [reflexivity|]. by repeat split.
Qed.

Lemma trainable_extends (o o' : obj attrs) evs :
  extends o o' evs → trainable o → trainable o'.
Proof. intros (Hs & _) H. unfold trainable in *. by rewrite Hs. Qed.

(** One step: it succeeds, and its optimizer steps are the discriminator's,
    then the generator's. *)
Lemma train_step_spec (o : obj attrs) tb data l :
  trainable o → is_batch data = true →
  ∃ l' o' evs, train_step tb data l o = (Ok l', o')
    ∧ extends o o' evs
    ∧ updates evs = [Discriminator; Generator] ∧ saves evs = []
    ∧ count (generator_loss l') = S (count (generator_loss l))
    ∧ count (discriminator_loss l') = S (count (discriminator_loss l))
    ∧ ∃ dl gl, gradient_losses evs = [dl; gl]
        ∧ generator_loss l' = Mean_update (generator_loss l) gl
        ∧ discriminator_loss l' = Mean_update (discriminator_loss l) dl.
Proof.
  intros Ht Hb.
  destruct (phase_D_extends o data (disc_optimizer l) Ht Hb)
    as (dl & o1 & vd & HD & E1).
  pose proof (trainable_extends _ _ _ E1 Ht) as Ht1.
  destruct (phase_G_extends o1 data (gen_optimizer l) Ht1 Hb)
    as (gl & o2 & vg & HG & E2).
  unfold train_step.
  rewrite (bind_ok _ _ _ _ _ HD), (bind_ok _ _ _ _ _ HG).
  pose proof (extends_trans _ _ _ _ _ E1 E2) as E12.
  set (l' := Locals gl.2 dl.2 (steps l + 1)
                     (Mean_update (generator_loss l) gl.1)
                     (Mean_update (discriminator_loss l) dl.1)).
  destruct tb.
  - exists l', (Obj (self o2)
                 (World (store (env o2)) (next_var (env o2)) (rng (env o2))
                    (checkpoints (env o2)) (images (env o2)) (paths (env o2))
                    ((trace (env o2) ++ [EvScalar "discr_loss" dl.1 (steps l')])
                     ++ [EvScalar "genr_loss" gl.1 (steps l')]))),
           (([EvGradient dl.1 vd; EvApplyGradients Discriminator vd]
             ++ [EvGradient gl.1 vg; EvApplyGradients Generator vg])
            ++ [EvScalar "discr_loss" dl.1 (steps l');
                EvScalar "genr_loss" gl.1 (steps l')]).
    split; [reflexivity|]. split; [|split_and!; try done; by exists dl.1, gl.1].
    eapply extends_trans; [exact E12|].
    unfold extends; simpl. rewrite <- app_assoc. by repeat split.
  - exists l', o2, ([EvGradient dl.1 vd; EvApplyGradients Discriminator vd]
                    ++ [EvGradient gl.1 vg; EvApplyGradients Generator vg]).
    split; [reflexivity|]. split; [exact E12|].
    split_and!; try done. by exists dl.1, gl.1.
Qed.

End DCGANFacts.

Section DCGANLoops.
Context `{B : Backend}.
Import DCGAN.

Lemma epoch_loop_spec tb ds : ∀ l (o : obj attrs),
  trainable o → Forall (λ d, is_batch d = true) ds →
  ∃ l' o' evs, for_each ds (train_step tb) l o = (Ok l', o')
    ∧ extends o o' evs
    ∧ updates evs = concat (replicate (length ds) [Discriminator; Generator])
    ∧ saves evs = []
    ∧ count (generator_loss l') = (count (generator_loss l) + length ds)%nat
    ∧ count (discriminator_loss l') = (count (discriminator_loss l) + length ds)%nat.
Proof.
  induction ds as [|data ds IH]; intros l o Ht Hds.
  - exists l, o, []. simpl. rewrite !Nat.add_0_r.
    split; [done|]. split; [apply extends_refl | done].
  - inversion Hds as [|? ? Hb Hds']; subst.
    destruct (train_step_spec o tb data l Ht Hb)
      as (l1 & o1 & e1 & Hstep & E1 & U1 & V1 & C1 & C2 & _).
    destruct (IH l1 o1 (trainable_extends _ _ _ E1 Ht) Hds')
      as (l2 & o2 & e2 & Hrest & E2 & U2 & V2 & C3 & C4).
    exists l2, o2, (e1 ++ e2). simpl.
    rewrite (bind_ok _ _ _ _ _ Hstep), Hrest.
    split; [done|]. split; [by eapply extends_trans|].
    rewrite updates_app, U1, U2, saves_app, V1, V2. split; [done|].
    split; [done|]. lia.
Qed.

(** One epoch: the accumulators it ends with count the steps of this epoch
    only. *)
Lemma train_epoch_spec ds verbose tb epoch l (o : obj attrs) :
  trainable o → Forall (λ d, is_batch d = true) ds →
  ∃ l' o' evs, train_epoch ds verbose tb epoch l o = (Ok l', o')
    ∧ extends o o' evs
    ∧ updates evs = concat (replicate (length ds) [Discriminator; Generator])
    ∧ saves evs = []
    ∧ count (generator_loss l') = length ds
    ∧ count (discriminator_loss l') = length ds.
Proof.
  intros Ht Hds. unfold train_epoch.
  destruct (epoch_loop_spec tb ds
              (Locals (gen_optimizer l) (disc_optimizer l) (steps l)
                      (reset_states (generator_loss l))
                      (reset_states (discriminator_loss l))) o Ht Hds)
    as (l1 & o1 & e1 & Hloop & E1 & U1 & V1 & C1 & C2).
  rewrite (bind_ok _ _ _ _ _ Hloop). simpl in C1, C2.
  destruct (verbose =? 1).
  - eexists l1, _, (e1 ++ [EvPrint _]). split; [reflexivity|].
    split; [|by rewrite updates_app, U1, saves_app, V1; simpl; rewrite app_nil_r].
    eapply extends_trans; [exact E1|]. unfold extends; simpl. by repeat split.
  - exists l1, o1, e1. auto 10.
Qed.

Lemma epochs_spec ds verbose tb es : ∀ l (o : obj attrs),
  trainable o → Forall (λ d, is_batch d = true) ds →
  ∃ l' o' evs, for_each es (train_epoch ds verbose tb) l o = (Ok l', o')
    ∧ extends o o' evs
    ∧ updates evs
      = concat (replicate (length es * length ds) [Discriminator; Generator])
    ∧ saves evs = [].
Proof.
  induction es as [|e es IH]; intros l o Ht Hds.
  - exists l, o, []. split; [done|]. split; [apply extends_refl | done].
  - destruct (train_epoch_spec ds verbose tb e l o Ht Hds)
      as (l1 & o1 & e1 & Hep & E1 & U1 & V1 & _).
    destruct (IH l1 o1 (trainable_extends _ _ _ E1 Ht) Hds)
      as (l2 & o2 & e2 & Hrest & E2 & U2 & V2).
    exists l2, o2, (e1 ++ e2). simpl.
    rewrite (bind_ok _ _ _ _ _ Hep), Hrest.
    split; [done|]. split; [by eapply extends_trans|].
    rewrite updates_app, U1, U2, saves_app, V1, V2,
      <- concat_app, <- replicate_add. done.
Qed.

Lemma length_range n : length (range n) = Z.to_nat n.
Proof. unfold range. by rewrite length_map, length_seq. Qed.

End DCGANLoops.

Section DCGANBuild.
Context `{B : Backend}.
Import DCGAN.

Lemma new_model_eq ls w :
  new_model ls w =
    let ws := init_weights ls (rng w) in
    let vs := seq (next_var w) (length ws.1) in
    (Ok (Model ls vs),
     World (assign_all vs ws.1 (store w)) (next_var w + length ws.1)%nat ws.2
           (checkpoints w) (images w) (paths w) (trace w)).
Proof. unfold new_model. by destruct (init_weights ls (rng w)). Qed.

Lemma build_inv (f : attrs → result (list layer)) (o : obj attrs) m o1 :
  (a <- get_self ;; ls <- lift (f a) ;; in_world (new_model ls)) o = (Ok m, o1) →
  built (f (self o)) o m o1.
Proof.
  unfold bind, get_self, lift, in_world.
  destruct (f (self o)) as [ls|e] eqn:E; [|discriminate].
  rewrite new_model_eq. simpl. intros [= <- <-]. simpl.
  split; [done|]. split; [eauto|]. repeat split; try done.
  intros v Hv. apply assign_all_frame.
  rewrite list_elem_of_In, in_seq. lia.
Qed.

Lemma load_weights_inv m p w w' :
  load_weights m p w = (Ok tt, w') →
  trace w' = trace w ++ [EvLoadWeights p] ∧ next_var w' = next_var w
  ∧ checkpoints w' = checkpoints w ∧ images w' = images w ∧ paths w' = paths w.
Proof.
  unfold load_weights, bind, get. simpl.
  destruct (checkpoints w !! p) as [ws|]; [|discriminate].
  case_bool_decide; [|discriminate].
  unfold modify, emit, modify, set_store. simpl. by intros [= <-].
Qed.

Lemma restore_inv (path : option string) m msg (o o1 : obj attrs) :
  match path with
  | Some p => in_world (load_weights m p ;;; emit (EvPrint [PStr msg]))
  | None => ret tt
  end o = (Ok tt, o1) →
  ∃ evs, extends o o1 evs ∧ updates evs = [] ∧ saves evs = [].
Proof.
  destruct path as [p|].
  - unfold in_world.
    destruct ((load_weights m p;;; emit (EvPrint [PStr msg])) (env o))
      as [r w] eqn:E.
    intros [= -> <-].
    apply bind_inv in E as ([] & w1 & Hl & He).
    apply load_weights_inv in Hl as (Ht & ? & ? & ? & ?).
    unfold emit, modify in He. injection He as <-.
    exists [EvLoadWeights p; EvPrint [PStr msg]]. split; [|done].
    unfold extends; simpl. rewrite Ht, <- app_assoc. by repeat split.
  - intros [= <-]. exists []. split; [apply extends_refl | done].
Qed.

(** What [__load_model] leaves: two networks on variables that did not
    exist before the call, the generator's below the discriminator's. *)
Lemma load_model_inv (o o1 : obj attrs) :
  load_model o = (Ok tt, o1) →
  ∃ g d evs kg kd,
    self o1 = Attrs (image_size (self o)) (noise_dim (self o)) (Some g) (Some d)
                    (cfg (self o))
    ∧ generator_layers (self o) = Ok (layers g)
    ∧ discriminator_layers (self o) = Ok (layers d)
    ∧ trainable_variables g = seq (next_var (env o)) kg
    ∧ trainable_variables d = seq (next_var (env o) + kg) kd
    ∧ next_var (env o1) = (next_var (env o) + kg + kd)%nat
    ∧ trace (env o1) = trace (env o) ++ evs
    ∧ updates evs = [] ∧ saves evs = []
    ∧ checkpoints (env o1) = checkpoints (env o)
    ∧ images (env o1) = images (env o) ∧ paths (env o1) = paths (env o).
Proof.
  unfold load_model. intros H.
  apply bind_inv in H as (g & o2 & Hg & H).
  apply bind_inv in H as (d & o3 & Hd & H).
  apply bind_inv in H as ([] & o4 & Hset & H).
  apply bind_inv in H as (a & o5 & Hget & H).
  apply bind_inv in H as ([] & o6 & Hr1 & Hr2).
  apply build_inv in Hg as (Lg & (kg & Vg & Ng) & Sg & Tg & Cg & Ig & Pg & _).
  apply build_inv in Hd as (Ld & (kd & Vd & Nd) & Sd & Td & Cd & Id & Pd & _).
  unfold set_self, modify in Hset. injection Hset as <-.
  unfold get_self in Hget. injection Hget as <- <-.
  apply restore_inv in Hr1 as (e1 & (S1 & T1 & N1 & C1 & I1 & P1) & U1 & V1).
  apply restore_inv in Hr2 as (e2 & (S2 & T2 & N2 & C2 & I2 & P2) & U2 & V2).
  simpl in *.
  exists g, d, (e1 ++ e2), kg, kd.
  rewrite S2, S1, Sd, Sg. split; [done|].
  rewrite Sg in Ld.
  split_and!; try congruence.
  - rewrite T2, T1, Td, Tg, app_assoc. done.
  - by rewrite updates_app, U1, U2.
  - by rewrite saves_app, V1, V2.
Qed.

End DCGANBuild.

Section DCGANFit.
Context `{B : Backend}.
Import DCGAN.

Lemma is_ok_inv {A S} (r : result A * S) :
  is_ok r.1 = true → ∃ a s, r = (Ok a, s).
Proof. destruct r as [[a|e] s]; [eauto | discriminate]. Qed.

Lemma build_optimizer_ok {S} name lr beta (s : S) :
  is_Some (make_optimizer name (optimizer_kwargs name lr beta)) →
  ∃ opt, build_optimizer name lr beta s = (Ok opt, s).
Proof. intros [opt H]. exists opt. unfold build_optimizer. by rewrite H. Qed.

(** The loops of [fit] run to their end once the networks are built and the
    optimizers exist. *)
Lemma training_spec (o : obj attrs) ds epochs gopt dopt verbose glr dlr beta tb :
  is_ok (load_model o).1 = true →
  is_Some (make_optimizer gopt (optimizer_kwargs gopt glr beta)) →
  is_Some (make_optimizer dopt (optimizer_kwargs dopt dlr beta)) →
  Forall (λ d, is_batch d = true) ds →
  0 ≤ noise_dim (self o) →
  ∃ l o1 o' pre evs,
    load_model o = (Ok tt, o1)
    ∧ training ds epochs gopt dopt verbose glr dlr beta tb o = (Ok l, o')
    ∧ trace (env o1) = trace (env o) ++ pre
    ∧ updates pre = [] ∧ saves pre = []
    ∧ extends o1 o' evs
    ∧ updates evs
      = concat (replicate (Z.to_nat epochs * length ds) [Discriminator; Generator])
    ∧ saves evs = [].
Proof.
  intros Hload Hg Hd Hds Hnd.
  apply is_ok_inv in Hload as ([] & o1 & Hload).
  pose proof (load_model_inv o o1 Hload)
    as (g & d & pre & kg & kd & Hs & _ & _ & _ & _ & _ & Ht & Hu & Hv & _).
  assert (Htr : trainable o1).
  { exists g, d. rewrite Hs. simpl. done. }
  destruct (build_optimizer_ok gopt glr beta o1 Hg) as (og & Hog).
  destruct (build_optimizer_ok dopt dlr beta o1 Hd) as (od & Hod).
  destruct (epochs_spec ds verbose tb (range epochs)
              (Locals og od 0 Mean_new Mean_new) o1 Htr Hds)
    as (l & o' & evs & Hloop & E & U & V).
  exists l, o1, o', pre, evs. unfold training.
  rewrite (bind_ok _ _ _ _ _ Hload), (bind_ok _ _ _ _ _ Hog),
    (bind_ok _ _ _ _ _ Hod), Hloop.
  rewrite length_range in U. done.
Qed.


End DCGANFit.

(** ** Claims on the adversarial loop *)

Section DCGANClaims.
Context `{B : Backend}.
Import DCGAN.



End DCGANClaims.


Section DCGANFrame.
Context `{B : Backend}.
Import DCGAN.

(** The two networks built by [__load_model] share no variable. *)
Lemma load_model_disjoint (o o1 : obj attrs) g d :
  load_model o = (Ok tt, o1) →
  gen_model (self o1) = Some g → disc_model (self o1) = Some d →
  Forall (λ v, v ∉ trainable_variables d) (trainable_variables g).
Proof.
  intros H Hg Hd.
  apply load_model_inv in H
    as (g' & d' & evs & kg & kd & Hs & _ & _ & Vg & Vd & _).
  rewrite Hs in Hg, Hd. simpl in *. injection Hg as <-. injection Hd as <-.
  rewrite Vg, Vd. apply Forall_forall. intros v Hv Hv'.
  apply list_elem_of_In, in_seq in Hv. apply list_elem_of_In, in_seq in Hv'. lia.
Qed.

(** C3.  In a step, the first phase differentiates the discriminator's loss
    with respect to the discriminator's variables and assigns those
    variables only, so the generator's parameters are as before; the second
    phase differentiates the generator's loss, computed on the store the
    first phase left, with respect to the generator's variables and assigns
    those only, so the discriminator's parameters stay as the first phase
    left them. *)
Theorem phases_frame (o : obj attrs) data dopt gopt g d :
  gen_model (self o) = Some g →
  disc_model (self o) = Some d →
  Forall (λ v, v ∉ trainable_variables d) (trainable_variables g) →
  is_batch data = true →
  0 ≤ noise_dim (self o) →
  ∃ dl o1 gl o2 noise,
    phase_D data dopt o = (Ok dl, o1)
    ∧ phase_G data gopt o1 = (Ok gl, o2)
    ∧ trace (env o1)
      = trace (env o) ++ [EvGradient dl.1 (trainable_variables d);
                          EvApplyGradients Discriminator (trainable_variables d)]
    ∧ (∀ v, v ∉ trainable_variables d →
            store (env o1) !! v = store (env o) !! v)
    ∧ read_vars (store (env o1)) (trainable_variables g)
      = read_vars (store (env o)) (trainable_variables g)
    ∧ trace (env o2)
      = trace (env o1) ++ [EvGradient gl.1 (trainable_variables g);
                           EvApplyGradients Generator (trainable_variables g)]
    ∧ (∀ v, v ∉ trainable_variables g →
            store (env o2) !! v = store (env o1) !! v)
    ∧ read_vars (store (env o2)) (trainable_variables d)
      = read_vars (store (env o1)) (trainable_variables d)
    ∧ gl.1 = G_loss_of g d noise (store (env o1)).
Proof.
  intros Hg Hd Hdisj (n & rest & Hs & Hn)%is_batch_shape Hnd.
  rewrite Forall_forall in Hdisj.
  pose proof (phase_D_eq o data dopt g d n rest Hg Hd Hs Hn Hnd) as HD.
  cbv zeta in HD.
  match type of HD with _ = (Ok ?r, ?s) => set (dl := r) in *; set (o1 := s) in * end.
  pose proof (phase_G_eq o1 data gopt g d n rest Hg Hd Hs Hn Hnd) as HG.
  cbv zeta in HG.
  match type of HG with _ = (Ok ?r, ?s) => set (gl := r) in *; set (o2 := s) in * end.
  exists dl, o1, gl, o2,
    (random_normal [n; noise_dim (self o1)] (rng (env o1))).1.
  split; [exact HD|]. split; [exact HG|].
  assert (FD : ∀ v, v ∉ trainable_variables d →
                    store (env o1) !! v = store (env o) !! v).
  { intros v Hv. subst o1. simpl. apply apply_updates_frame.
    by rewrite snd_zip_map. }
  assert (FG : ∀ v, v ∉ trainable_variables g →
                    store (env o2) !! v = store (env o1) !! v).
  { intros v Hv. subst o2. simpl. apply apply_updates_frame.
    by rewrite snd_zip_map. }
  split_and!; try done.
  - apply read_vars_frame. intros v Hv. apply FD. by apply Hdisj.
  - apply read_vars_frame. intros v Hv. apply FG.
    intros Hv'. by apply (Hdisj v Hv').
Qed.

End DCGANFrame.

Lemma phases_frame_witness :
  ∃ g d dl o1 gl o2 noise,
    DCGAN.gen_model (self Toy.dcgan_built) = Some g
    ∧ DCGAN.disc_model (self Toy.dcgan_built) = Some d
    ∧ DCGAN.phase_D Toy.batch Toy.opt0 Toy.dcgan_built = (Ok dl, o1)
    ∧ DCGAN.phase_G Toy.batch Toy.opt0 o1 = (Ok gl, o2)
    ∧ trace (env o1)
      = trace (env Toy.dcgan_built)
        ++ [EvGradient dl.1 (trainable_variables d);
            EvApplyGradients Discriminator (trainable_variables d)]
    ∧ (∀ v, v ∉ trainable_variables d →
            store (env o1) !! v = store (env Toy.dcgan_built) !! v)
    ∧ read_vars (store (env o1)) (trainable_variables g)
      = read_vars (store (env Toy.dcgan_built)) (trainable_variables g)
    ∧ trace (env o2)
      = trace (env o1) ++ [EvGradient gl.1 (trainable_variables g);
                           EvApplyGradients Generator (trainable_variables g)]
    ∧ (∀ v, v ∉ trainable_variables g →
            store (env o2) !! v = store (env o1) !! v)
    ∧ read_vars (store (env o2)) (trainable_variables d)
      = read_vars (store (env o1)) (trainable_variables d)
    ∧ gl.1 = DCGAN.G_loss_of g d noise (store (env o1)).
Proof.
  eexists _, _.
  assert (Hg : DCGAN.gen_model (self Toy.dcgan_built)
               = Some (Model (default [] (match DCGAN.generator_layers (self Toy.dcgan_loaded) with Ok l => Some l | Raise _ => None end)) (seq 0 14)))
    by (vm_compute; reflexivity).
  assert (Hd : DCGAN.disc_model (self Toy.dcgan_built)
               = Some (Model (default [] (match DCGAN.discriminator_layers (self Toy.dcgan_loaded) with Ok l => Some l | Raise _ => None end)) (seq 14 17)))
    by (vm_compute; reflexivity).
  destruct (phases_frame (B := Toy.backend) Toy.dcgan_built Toy.batch Toy.opt0 Toy.opt0
              _ _ Hg Hd)
    as (dl & o1 & gl & o2 & noise & H).
  - simpl. apply (bool_decide_unpack _). vm_compute. exact I.
  - reflexivity.
  - vm_compute. discriminate.
  - exists dl, o1, gl, o2, noise. split; [exact Hg|]. split; [exact Hd|]. exact H.
Defined.

(** ** The running means *)

Section Metrics.
Context `{B : Backend}.

Lemma gradient_losses_app t1 t2 :
  gradient_losses (t1 ++ t2) = gradient_losses t1 ++ gradient_losses t2.
Proof. unfold gradient_losses. apply omap_app. Qed.

Lemma index_0_inv {A} (l : list A) x :
  index l 0 = Ok x → ∃ rest, l = x :: rest.
Proof.
  intros H%index_nonneg_inv; [|done].
  destruct l as [|y rest]; [discriminate|]. injection H as ->. eauto.
Qed.

Lemma random_normal_inv shape w t w' :
  tf_random_normal shape w = (Ok t, w') →
  forallb (λ d, 0 <=? d) shape = true
  ∧ t = (random_normal shape (rng w)).1
  ∧ w' = World (store w) (next_var w) (random_normal shape (rng w)).2
               (checkpoints w) (images w) (paths w) (trace w).
Proof.
  unfold tf_random_normal. destruct (forallb _ shape); [|discriminate].
  destruct (random_normal shape (rng w)) as [t' r]. by intros [= <- <-].
Qed.

End Metrics.

Section DCGANMetrics.
Context `{B : Backend}.
Import DCGAN.

Lemma phase_D_inv (o : obj attrs) data opt r o' :
  phase_D data opt o = (Ok r, o') → trainable o ∧ is_batch data = true.
Proof.
  unfold phase_D. intros H.
  apply bind_inv in H as (a & o1 & Ha & H). injection Ha as <- <-.
  apply bind_inv in H as (n & o1 & Hn & H).
  unfold lift in Hn. injection Hn as Hn <-.
  apply index_0_inv in Hn as (rest & Hs).
  apply bind_inv in H as (noise & o1 & Hz & H).
  unfold in_world in Hz.
  destruct (tf_random_normal _ (env o)) as [rz wz] eqn:Ez.
  injection Hz as -> <-.
  apply random_normal_inv in Ez as (Hc & _ & ->). simpl in Hc.
  rewrite andb_true_r in Hc. apply andb_true_iff in Hc as [Hc1 Hc2].
  apply bind_inv in H as (g & o1 & Hg & H).
  unfold lift in Hg. injection Hg as Hg <-.
  apply bind_inv in H as (d & o1 & Hd & H).
  unfold lift in Hd. injection Hd as Hd <-.
  split.
  - exists g, d. simpl in *.
    destruct (gen_model (self o)); [|discriminate].
    destruct (disc_model (self o)); [|discriminate].
    injection Hg as ->. injection Hd as ->.
    split; [done|]. split; [done|]. by apply Z.leb_le.
  - unfold is_batch. by rewrite Hs.
Qed.

(** One step, when it succeeds: what the tapes recorded is what the two
    accumulators received. *)
Lemma train_step_inv (o : obj attrs) tb data l l' o' :
  train_step tb data l o = (Ok l', o') →
  ∃ dl gl evs,
    trace (env o') = trace (env o) ++ evs
    ∧ gradient_losses evs = [dl; gl]
    ∧ generator_loss l' = Mean_update (generator_loss l) gl
    ∧ discriminator_loss l' = Mean_update (discriminator_loss l) dl.
Proof.
  intros H. pose proof H as H0. unfold train_step in H0.
  apply bind_inv in H0 as (dl0 & o1 & HD & _).
  apply phase_D_inv in HD as [Ht Hb].
  destruct (train_step_spec o tb data l Ht Hb)
    as (l2 & o2 & evs & Hstep & (_ & T & _) & _ & _ & _ & _ & dl & gl & G & M1 & M2).
  rewrite H in Hstep. injection Hstep as <- <-.
  by exists dl, gl, evs.
Qed.

Lemma epoch_loop_inv tb ds : ∀ l (o : obj attrs) l' o',
  for_each ds (train_step tb) l o = (Ok l', o') →
  ∃ evs pairs,
    trace (env o') = trace (env o) ++ evs
    ∧ gradient_losses evs = flat_pairs pairs
    ∧ length pairs = length ds
    ∧ generator_loss l' = foldl Mean_update (generator_loss l) (map snd pairs)
    ∧ discriminator_loss l' = foldl Mean_update (discriminator_loss l) (map fst pairs).
Proof.
  induction ds as [|data ds IH]; intros l o l' o' H; simpl in H.
  - injection H as <- <-. exists [], []. by rewrite app_nil_r.
  - apply bind_inv in H as (l1 & o1 & Hstep & Hrest).
    apply train_step_inv in Hstep as (dl & gl & e1 & T1 & G1 & M1 & M2).
    apply IH in Hrest as (e2 & pairs & T2 & G2 & Hlen & M3 & M4).
    exists (e1 ++ e2), ((dl, gl) :: pairs).
    rewrite T2, T1, gradient_losses_app, G1, G2, M3, M4, M1, M2.
    simpl. rewrite Hlen, <- app_assoc. done.
Qed.

End DCGANMetrics.

(** ** The variational loop *)

Section VAEFacts.
Context `{B : Backend}.
Import VAE.

Lemma in_world_inv {Self A} (m : M world A) (o : obj Self) a o' :
  in_world m o = (Ok a, o') →
  ∃ w', m (env o) = (Ok a, w') ∧ o' = Obj (self o) w'.
Proof.
  unfold in_world. destruct (m (env o)) as [r w'].
  intros [= -> <-]. eauto.
Qed.

Lemma tape_gradient_eq loss sources w :
  tape_gradient loss sources w =
    (Ok (map (partial_derivative loss (store w)) sources),
     World (store w) (next_var w) (rng w) (checkpoints w) (images w) (paths w)
           (trace w ++ [EvGradient (loss (store w)) sources])).
Proof. reflexivity. Qed.

Lemma apply_gradients_eq who opt gv w :
  apply_gradients who opt gv w =
    (Ok (opt_advance opt gv),
     World (apply_updates opt gv (store w)) (next_var w) (rng w)
           (checkpoints w) (images w) (paths w)
           (trace w ++ [EvApplyGradients who (map snd gv)])).
Proof. reflexivity. Qed.

Lemma draw_epsilon_inv m training x w t w' :
  draw_epsilon m training x w = (Ok t, w') →
  ∃ r, w' = World (store w) (next_var w) r (checkpoints w) (images w)
                  (paths w) (trace w).
Proof.
  unfold draw_epsilon. intros H.
  apply bind_inv in H as (w0 & w1 & Hget & H). injection Hget as <- <-.
  apply bind_inv in H as (batch & w1 & Hb & H).
  unfold lift in Hb. injection Hb as _ <-.
  apply bind_inv in H as (dim & w1 & Hd & H).
  unfold lift in Hd. injection Hd as _ <-.
  apply random_normal_inv in H as (_ & _ & ->). eauto.
Qed.

(** One step, when it succeeds: the scalar given to the tape is the
    reconstruction error of this batch, it is what the accumulator
    receives, and one optimizer step is made on the variables of the
    model. *)
Lemma vae_train_step_inv (o : obj attrs) tb data l l' o' :
  train_step tb data l o = (Ok l', o') →
  ∃ m epsilon evs,
    model_ (self o) = Some m
    ∧ extends o o' evs
    ∧ trace (env o') = trace (env o) ++ evs
    ∧ gradient_losses evs = [loss_of m epsilon data (store (env o))]
    ∧ updates evs = [Autoencoder]
    ∧ train_loss l' = Mean_update (train_loss l)
                                  (loss_of m epsilon data (store (env o)))
    ∧ (draw_epsilon m None data (env o)).1 = Ok epsilon
    ∧ saves evs = [].
Proof.
  unfold train_step. intros H.
  apply bind_inv in H as (a & o1 & Ha & H). injection Ha as <- <-.
  apply bind_inv in H as (m & o1 & Hm & H).
  unfold lift in Hm. injection Hm as Hm <-.
  destruct (model_ (self o)) as [m'|] eqn:Em; [|discriminate].
  injection Hm as ->.
  apply bind_inv in H as (eps & o1 & He & H).
  apply in_world_inv in He as (w1 & He & ->).
  pose proof (draw_epsilon_inv _ _ _ _ _ _ He) as (r & ->).
  apply bind_inv in H as (w2 & o2 & Hg & H).
  unfold in_world, get in Hg. simpl in Hg. injection Hg as <- <-.
  apply bind_inv in H as (grads & o2 & Hgr & H).
  apply in_world_inv in Hgr as (w2 & Hgr & ->).
  rewrite tape_gradient_eq in Hgr. injection Hgr as <- <-.
  apply bind_inv in H as (opt' & o2 & Hap & H).
  apply in_world_inv in Hap as (w2 & Hap & ->).
  rewrite apply_gradients_eq in Hap. injection Hap as <- <-.
  rewrite snd_zip_map in H. cbn [self env store trace] in H.
  set (loss := loss_of m eps data (store (env o))) in *.
  set (vs := vae_trainable_variables m) in *.
  exists m, eps.
  destruct tb.
  - apply bind_inv in H as ([] & o3 & Hsc & H).
    apply in_world_inv in Hsc as (w3 & Hsc & ->).
    injection Hsc as <-. injection H as <- <-.
    exists ([EvGradient loss vs; EvApplyGradients Autoencoder vs]
            ++ [EvScalar "loss" loss (steps l + 1)]).
    cbn [self env store trace train_loss steps].
    rewrite He.
    assert (Ht : ((trace (env o) ++ [EvGradient loss vs])
                  ++ [EvApplyGradients Autoencoder vs])
                 ++ [EvScalar "loss" loss (steps l + 1)]
                 = trace (env o)
                   ++ [EvGradient loss vs; EvApplyGradients Autoencoder vs]
                   ++ [EvScalar "loss" loss (steps l + 1)])
      by (by rewrite <- !app_assoc).
    split_and!; [done | | exact Ht | done | done | done | done | done].
    unfold extends. cbn [self env trace next_var checkpoints images paths].
    by rewrite Ht.
  - apply bind_inv in H as ([] & o3 & Hsc & H).
    injection Hsc as <-. injection H as <- <-.
    exists [EvGradient loss vs; EvApplyGradients Autoencoder vs].
    cbn [self env store trace train_loss steps].
    rewrite He.
    assert (Ht : (trace (env o) ++ [EvGradient loss vs])
                 ++ [EvApplyGradients Autoencoder vs]
                 = trace (env o)
                   ++ [EvGradient loss vs; EvApplyGradients Autoencoder vs])
      by (by rewrite <- !app_assoc).
    split_and!; [done | | exact Ht | done | done | done | done | done].
    unfold extends. cbn [self env trace next_var checkpoints images paths].
    by rewrite Ht.
Qed.

Lemma vae_epoch_loop_inv tb ds : ∀ l (o : obj attrs) l' o',
  for_each ds (train_step tb) l o = (Ok l', o') →
  ∃ evs,
    extends o o' evs
    ∧ length (gradient_losses evs) = length ds
    ∧ updates evs = replicate (length ds) Autoencoder
    ∧ saves evs = []
    ∧ train_loss l' = foldl Mean_update (train_loss l) (gradient_losses evs).
Proof.
  induction ds as [|data ds IH]; intros l o l' o' H; simpl in H.
  - injection H as <- <-. exists []. split; [apply extends_refl | done].
  - apply bind_inv in H as (l1 & o1 & Hstep & Hrest).
    apply vae_train_step_inv in Hstep
      as (m & eps & e1 & _ & E1 & T1 & G1 & U1 & M1 & _ & V1).
    apply IH in Hrest as (e2 & E2 & Hlen & U2 & V2 & M2).
    exists (e1 ++ e2). split; [by eapply extends_trans|].
    rewrite gradient_losses_app, updates_app, saves_app, G1, U1, U2, V1, V2, M2, M1.
    simpl. rewrite Hlen. done.
Qed.

End VAEFacts.

Section MetricsClaim.
Context `{B : Backend}.

Lemma dcgan_train_epoch_inv ds verbose tb epoch l (o : obj DCGAN.attrs) l' o' :
  DCGAN.train_epoch ds verbose tb epoch l o = (Ok l', o') →
  ∃ evs pairs,
    trace (env o') = trace (env o) ++ evs
    ∧ gradient_losses evs = flat_pairs pairs
    ∧ length pairs = length ds
    ∧ DCGAN.generator_loss l' = foldl Mean_update Mean_new (map snd pairs)
    ∧ DCGAN.discriminator_loss l' = foldl Mean_update Mean_new (map fst pairs).
Proof.
  unfold DCGAN.train_epoch. intros H.
  apply bind_inv in H as (l1 & o1 & Hloop & H).
  apply epoch_loop_inv in Hloop as (evs & pairs & T & G & Hlen & M1 & M2).
  simpl in M1, M2.
  destruct (verbose =? 1).
  - apply bind_inv in H as ([] & o2 & Hp & H).
    apply in_world_inv in Hp as (w2 & Hp & ->).
    injection Hp as <-. injection H as <- <-.
    exists (evs ++ [EvPrint
               [PStr "Epoch:"; PInt (epoch + 1);
                PStr "D_loss:"; PReal (Mean_result (DCGAN.generator_loss l1));
                PStr "G_loss"; PReal (Mean_result (DCGAN.discriminator_loss l1))]]),
           pairs.
    cbn [env trace]. rewrite T, gradient_losses_app, G, <- app_assoc.
    simpl. by rewrite app_nil_r.
  - apply bind_inv in H as ([] & o2 & Hp & H).
    injection Hp as <-. injection H as <- <-. by exists evs, pairs.
Qed.

Lemma vae_train_epoch_inv ds verbose tb epoch l (o : obj VAE.attrs) l' o' :
  VAE.train_epoch ds verbose tb epoch l o = (Ok l', o') →
  ∃ evs,
    trace (env o') = trace (env o) ++ evs
    ∧ length (gradient_losses evs) = length ds
    ∧ VAE.train_loss l' = foldl Mean_update Mean_new (gradient_losses evs).
Proof.
  unfold VAE.train_epoch. intros H.
  apply bind_inv in H as (l1 & o1 & Hloop & H).
  apply vae_epoch_loop_inv in Hloop as (evs & (_ & T & _) & Hlen & _ & _ & M).
  simpl in M.
  destruct (verbose =? 1).
  - apply bind_inv in H as ([] & o2 & Hp & H).
    apply in_world_inv in Hp as (w2 & Hp & ->).
    injection Hp as <-. injection H as <- <-.
    exists (evs ++ [EvPrint
               [PStr "Epoch:"; PInt (epoch + 1);
                PStr "reconstruction loss:";
                PReal (Mean_result (VAE.train_loss l1))]]).
    cbn [env trace]. rewrite T, gradient_losses_app, <- app_assoc.
    simpl. by rewrite app_nil_r.
  - apply bind_inv in H as ([] & o2 & Hp & H).
    injection Hp as <-. injection H as <- <-. by exists evs.
Qed.

(** C10.  Every epoch starts by resetting its running means, before its
    first step: what an epoch does and reports does not depend on what
    the accumulators held when it started, and the accumulators an epoch
    ends with are the running means, from zero, of the losses its own
    steps handed to the tapes: one accumulator for the VAE, and for the
    GAN one for the generator and one for the discriminator. *)
Theorem epoch_metrics_reset :
  (∀ ds verbose tb epoch l m1 m2 (o : obj DCGAN.attrs),
     DCGAN.train_epoch ds verbose tb epoch
       (DCGAN.Locals (DCGAN.gen_optimizer l) (DCGAN.disc_optimizer l)
                     (DCGAN.steps l) m1 m2) o
     = DCGAN.train_epoch ds verbose tb epoch l o)
  ∧ (∀ ds verbose tb epoch l m (o : obj VAE.attrs),
       VAE.train_epoch ds verbose tb epoch
         (VAE.Locals (VAE.optimizer_ l) (VAE.steps l) m) o
       = VAE.train_epoch ds verbose tb epoch l o)
  ∧ Mean_result (reset_states Mean_new) = 0%R
  ∧ (∀ ds verbose tb epoch l (o : obj DCGAN.attrs) l' o',
       DCGAN.train_epoch ds verbose tb epoch l o = (Ok l', o') →
       ∃ evs pairs,
         trace (env o') = trace (env o) ++ evs
         ∧ gradient_losses evs = flat_pairs pairs
         ∧ length pairs = length ds
         ∧ DCGAN.generator_loss l' = foldl Mean_update Mean_new (map snd pairs)
         ∧ DCGAN.discriminator_loss l'
           = foldl Mean_update Mean_new (map fst pairs))
  ∧ (∀ ds verbose tb epoch l (o : obj VAE.attrs) l' o',
       VAE.train_epoch ds verbose tb epoch l o = (Ok l', o') →
       ∃ evs,
         trace (env o') = trace (env o) ++ evs
         ∧ length (gradient_losses evs) = length ds
         ∧ VAE.train_loss l' = foldl Mean_update Mean_new (gradient_losses evs)).
Proof.
  split_and!.
  - reflexivity.
  - reflexivity.
  - reflexivity.
  - apply dcgan_train_epoch_inv.
  - apply vae_train_epoch_inv.
Qed.

End MetricsClaim.

Lemma epoch_metrics_reset_witness :
  (∃ l' o' evs pairs,
     DCGAN.train_epoch [Toy.batch; Toy.batch] 1 false 0
       (DCGAN.Locals Toy.opt0 Toy.opt0 7 (MkMean 5 3) (MkMean 2 1))
       Toy.dcgan_built = (Ok l', o')
     ∧ trace (env o') = trace (env Toy.dcgan_built) ++ evs
     ∧ gradient_losses evs = flat_pairs pairs
     ∧ length pairs = 2%nat
     ∧ DCGAN.generator_loss l' = foldl Mean_update Mean_new (map snd pairs)
     ∧ DCGAN.discriminator_loss l' = foldl Mean_update Mean_new (map fst pairs))
  ∧ (∃ l' o' evs,
       VAE.train_epoch [Toy.vae_batch; Toy.vae_batch; Toy.vae_batch] 1 true 4
         (VAE.Locals Toy.opt0 9 (MkMean 5 3)) Toy.vae_built = (Ok l', o')
       ∧ trace (env o') = trace (env Toy.vae_built) ++ evs
       ∧ length (gradient_losses evs) = 3%nat
       ∧ VAE.train_loss l' = foldl Mean_update Mean_new (gradient_losses evs)).
Proof.
  destruct (epoch_metrics_reset (B := Toy.backend)) as (_ & _ & _ & Hd & Hv).
  split.
  - destruct (is_ok_inv
                (DCGAN.train_epoch [Toy.batch; Toy.batch] 1 false 0
                   (DCGAN.Locals Toy.opt0 Toy.opt0 7 (MkMean 5 3) (MkMean 2 1))
                   Toy.dcgan_built))
      as (l' & o' & Hrun); [vm_compute; reflexivity|].
    destruct (Hd _ _ _ _ _ _ _ _ Hrun) as (evs & pairs & H).
    exists l', o', evs, pairs. split; [exact Hrun | exact H].
  - destruct (is_ok_inv
                (VAE.train_epoch [Toy.vae_batch; Toy.vae_batch; Toy.vae_batch]
                   1 true 4 (VAE.Locals Toy.opt0 9 (MkMean 5 3)) Toy.vae_built))
      as (l' & o' & Hrun); [vm_compute; reflexivity|].
    destruct (Hv _ _ _ _ _ _ _ _ Hrun) as (evs & H).
    exists l', o', evs. split; [exact Hrun | exact H].
Defined.

(** ** The KL term *)

Section KL.

Lemma kl_entries (zm zv : list R) :
  length zm = length zv →
  map (λ x, x + 1)%R
      (zip_with Rminus (zip_with Rminus zv (map (λ x, x * x)%R zm)) (map exp zv))
  = zip_with (λ m v, v - m * m - exp v + 1)%R zm zv.
Proof.
  revert zv. induction zm as [|m zm IH]; intros [|v zv] Hlen; simpl in *;
    try done.
  f_equal. apply IH. lia.
Qed.

Lemma rsum_replicate n c : rsum (replicate n c) = (INR n * c)%R.
Proof.
  induction n as [|n IH]; [simpl; lra|].
  rewrite S_INR. simpl. rewrite IH. lra.
Qed.

Lemma kl_loss_formula z_mean z_var :
  length (tdata z_mean) = length (tdata z_var) →
  VAE.kl_loss z_mean z_var = VAE.kl_formula (tdata z_mean) (tdata z_var).
Proof.
  intros Hlen.
  unfold VAE.kl_loss, VAE.kl_formula, reduce_mean, t_add_scalar, t_sub,
    t_square, t_exp, t_map2, t_map. simpl.
  rewrite kl_entries by done.
  rewrite length_zip_with, <- Hlen, Nat.min_id. done.
Qed.

(** C4.  The KL term of the model is the closed form
    [-0.5 * mean(z_var - z_mean² - exp(z_var) + 1)] over the entries of the
    latent batch, and on a latent batch where [z_mean] and [z_var] are zero
    everywhere it is exactly zero. *)
Theorem kl_loss_closed_form :
  (∀ z_mean z_var,
     length (tdata z_mean) = length (tdata z_var) →
     VAE.kl_loss z_mean z_var = VAE.kl_formula (tdata z_mean) (tdata z_var))
  ∧ (∀ s, 0 < numel s → VAE.kl_loss (zeros s) (zeros s) = 0%R).
Proof.
  split; [exact kl_loss_formula|].
  intros s Hs. rewrite kl_loss_formula by done.
  unfold VAE.kl_formula, zeros. simpl.
  rewrite zip_with_replicate, rsum_replicate, length_replicate, exp_0.
  assert (INR (Z.to_nat (numel s)) ≠ 0%R) by (apply not_0_INR; lia).
  field. done.
Qed.

End KL.

Lemma kl_loss_closed_form_witness :
  VAE.kl_loss (Tensor [1; 2] [1; 0]%R) (Tensor [1; 2] [0; 2]%R)
  = VAE.kl_formula [1; 0]%R [0; 2]%R
  ∧ VAE.kl_loss (zeros [2; 3]) (zeros [2; 3]) = 0%R.
Proof.
  destruct kl_loss_closed_form as [H1 H2]. split.
  - apply H1. reflexivity.
  - apply H2. reflexivity.
Defined.

(** ** Two places where the code departs from its intent *)

(** C2.  The scalar differentiated in a VAE step is the reconstruction
    error alone.  On the small model, whose encoder gives [z_mean = 1] and
    [z_var = 0], the KL term registered with [add_loss] is 1/2, and the
    scalar handed to the tape in a step of [fit] is the mean squared error
    of the batch, which is not that error plus the KL term. *)
Theorem vae_step_loss_omits_kl :
  ∃ m epsilon l' o',
    VAE.model_ (self Toy.vae_built) = Some m
    ∧ VAE.losses m = [VAE.kl_loss]
    ∧ VAE.train_step false Toy.vae_batch Toy.vae_locals0 Toy.vae_built
      = (Ok l', o')
    ∧ let st := store (env Toy.vae_built) in
      let zs := VAE.encode m st None Toy.vae_batch in
      let recon := VAE.forward m st None epsilon Toy.vae_batch in
      gradient_losses (trace (env o')) = [mse_loss Toy.vae_batch recon]
      ∧ VAE.kl_loss zs.1 zs.2 = (1 / 2)%R
      ∧ mse_loss Toy.vae_batch recon
        ≠ (mse_loss Toy.vae_batch recon + VAE.kl_loss zs.1 zs.2)%R.
Proof.
  destruct (is_ok_inv (VAE.train_step false Toy.vae_batch Toy.vae_locals0
                         Toy.vae_built))
    as (l' & o' & Hrun); [vm_compute; reflexivity|].
  pose proof (vae_train_step_inv _ _ _ _ _ _ Hrun)
    as (m & eps & evs & Hm & _ & T & G & _).
  exists m, eps, l', o'.
  assert (Hl : VAE.losses m = [VAE.kl_loss]).
  { assert (Hl' : (λ o, match o with Some m => VAE.losses m | None => [] end)
                    (VAE.model_ (self Toy.vae_built)) = [VAE.kl_loss])
      by reflexivity.
    by rewrite Hm in Hl'. }
  assert (Hz : (λ o, match o with
                     | Some m => VAE.encode m (store (env Toy.vae_built)) None
                                            Toy.vae_batch
                     | None => (zeros [], zeros [])
                     end) (VAE.model_ (self Toy.vae_built))
               = (Tensor [2; 1] [1; 1]%R, Tensor [2; 1] [0; 0]%R))
    by (vm_compute; reflexivity).
  rewrite Hm in Hz.
  assert (Hkl : VAE.kl_loss
                  (VAE.encode m (store (env Toy.vae_built)) None Toy.vae_batch).1
                  (VAE.encode m (store (env Toy.vae_built)) None Toy.vae_batch).2
                = (1 / 2)%R).
  { rewrite Hz. cbn [fst snd].
    rewrite kl_loss_formula by done.
    unfold VAE.kl_formula. simpl. rewrite exp_0. lra. }
  split; [exact Hm|]. split; [exact Hl|]. split; [exact Hrun|].
  cbv zeta. split; [|split; [exact Hkl|]].
  - assert (Ht : trace (env Toy.vae_built) = []) by reflexivity.
    rewrite T, Ht, app_nil_l. exact G.
  - rewrite Hkl. lra.
Qed.


(** ** Construction of the convolutional autoencoder *)

Section ConvAE.
Context `{B : Backend}.
Import ConvolutionalAutoencoder.







Lemma encoder_self params (o : obj attrs) r o1 :
  encoder params o = (r, o1) → self o1 = self o.
Proof.
  unfold encoder, bind, get_self, lift.
  destruct (encoder_layers_of (self o) params) as [ls|e].
  - unfold in_world. destruct (new_model ls (env o)). by intros [= _ <-].
  - by intros [= _ <-].
Qed.


End ConvAE.


(** ** Sample generation *)

Section Generate.
Context `{B : Backend}.
Import DCGAN.

Lemma generate_from_model_eq (o : obj attrs) n save_dir g :
  gen_model (self o) = Some g → 0 ≤ n → 0 ≤ noise_dim (self o) →
  generate_from_model n save_dir o =
    let noise := random_normal [n; noise_dim (self o)] (rng (env o)) in
    let o1 := Obj (self o)
                (World (store (env o)) (next_var (env o)) noise.2
                       (checkpoints (env o)) (images (env o)) (paths (env o))
                       (trace (env o))) in
    let generated_samples := call_model g (store (env o)) None noise.1 in
    match save_dir with
    | None => (Ok (Some generated_samples), o1)
    | Some dir =>
        (ex <- in_world (path_exists dir) ;;
         assert ex "Directory does not exist" ;;;
         samples <- lift (unstack generated_samples) ;;
         for_each (enumerate samples)
           (λ is_ _, in_world (imwrite (path_join dir ("sample_" +:+ str is_.1 +:+ ".jpg"))
                                       is_.2))
           tt ;;;
         ret None) o1
    end.
Proof.
  intros Hg Hn Hnd. destruct o as [a w]. simpl in *.
  unfold generate_from_model, bind at 1, get_self. cbn [fst snd self].
  unfold bind at 1, in_world at 1, tf_random_normal. cbn [self env forallb].
  assert (Hc : (0 <=? n) && ((0 <=? noise_dim a) && true) = true)
    by (rewrite andb_true_r, andb_true_iff; split; apply Z.leb_le; lia).
  rewrite Hc. destruct (random_normal [n; noise_dim a] (rng w)) as [t r].
  cbn [fst snd self]. rewrite Hg.
  unfold bind at 1, lift at 1, callable. unfold bind at 1, in_world at 1, get.
  cbn [fst snd self env store].
  by destruct save_dir.
Qed.

Lemma generate_samples_some (o : obj attrs) n save_dir g :
  gen_model (self o) = Some g →
  generate_samples n save_dir o = generate_from_model n save_dir o.
Proof.
  intros Hg. unfold generate_samples, bind at 1, get_self. cbn [fst snd].
  by rewrite Hg.
Qed.

Lemma generate_samples_none (o : obj attrs) n save_dir :
  gen_model (self o) = None →
  generate_samples n save_dir o
  = bind load_model (λ _, generate_from_model n save_dir) o.
Proof.
  intros Hg. unfold generate_samples, bind at 1, get_self. cbn [fst snd].
  by rewrite Hg.
Qed.

(** On an instance without generator whose networks can be built,
    [generate_samples] returns the output of the generator it builds. *)
Lemma generate_samples_after_build (o o1 : obj attrs) n :
  gen_model (self o) = None →
  load_model o = (Ok tt, o1) → 0 ≤ n → 0 ≤ noise_dim (self o) →
  ∃ g o2,
    gen_model (self o1) = Some g
    ∧ generate_samples n None o
      = (Ok (Some (call_model g (store (env o1)) None
                     (random_normal [n; noise_dim (self o)] (rng (env o1))).1)),
         o2).
Proof.
  intros Hnone Hl Hn Hnd.
  pose proof (load_model_inv _ _ Hl) as (g & d & evs & kg & kd & Hs & _).
  assert (Hg : gen_model (self o1) = Some g) by (by rewrite Hs).
  assert (Hnd1 : noise_dim (self o1) = noise_dim (self o)) by (by rewrite Hs).
  exists g. eexists. split; [exact Hg|].
  rewrite generate_samples_none, (bind_ok _ _ _ _ _ Hl) by done.
  rewrite (generate_from_model_eq o1 n None g Hg Hn) by lia.
  cbv zeta. rewrite Hnd1. reflexivity.
Qed.


End Generate.



(** ** Shapes of the generated samples *)

#[global] Instance toy_laws : BackendLaws Toy.backend.
Proof.
  split.
  - reflexivity.
  - intros ls ws training x s H. simpl. by rewrite H.
Qed.

Section GeneratorShape.
Context `{B : Backend}.
Import DCGAN.

Lemma output_shape_app l1 l2 s :
  output_shape (l1 ++ l2) s
  = match output_shape l1 s with
    | Some s' => output_shape l2 s'
    | None => None
    end.
Proof.
  revert s. induction l1 as [|l l1 IH]; intros s; simpl; [done|].
  destruct (layer_output_shape l s); [apply IH | done].
Qed.

Lemma gen_block_shape c sh sw ls i ls' s0 n h w ch :
  gen_block c (sh, sw) (ls, i) = Ok ls' →
  output_shape ls s0 = Some [n; h; w; ch] →
  ∃ ch', output_shape ls' s0 = Some [n; h * sh; w * sw; ch'].
Proof.
  unfold gen_block. simpl.
  destruct (index (gen_channels c) i) as [x|]; [|discriminate].
  simpl. intros [= <-] Hs. exists x.
  rewrite output_shape_app, Hs. reflexivity.
Qed.

Lemma gen_loop_shape c s0 n h w es : ∀ ls i ls' i' ch,
  rfor_each es (gen_step c) (ls, i) = Ok (ls', i') →
  output_shape ls s0 = Some [n; h; w; ch] →
  ∃ ch', output_shape ls' s0 = Some [n; h; w; ch'].
Proof.
  induction es as [|e es IH]; intros ls i ls' i' ch H Hs; simpl in H.
  - injection H as <- <-. eauto.
  - unfold gen_step at 1 in H.
    destruct (gen_block c (1, 1) (ls, i)) as [ls1|] eqn:Eb; [|discriminate].
    simpl in H.
    destruct (gen_block_shape _ _ _ _ _ _ _ _ _ _ _ Eb Hs) as (ch1 & Hs1).
    rewrite !Z.mul_1_r in Hs1. by eapply IH.
Qed.

(** The generator maps [n] noise vectors to [n] images whose height and
    width are four times the quarter, rounded down, of those of the
    data. *)
Lemma generator_layers_shape (a : attrs) ls H W C n d :
  generator_layers a = Ok ls →
  image_size a = Some [H; W; C] →
  output_shape ls [n; d] = Some [n; 4 * (H / 4); 4 * (W / 4); C].
Proof.
  unfold generator_layers, image_dim. intros Hl Hi. rewrite Hi in Hl.
  change (index [H; W; C] 0) with (Ok H) in Hl.
  change (index [H; W; C] 1) with (Ok W) in Hl.
  change (index [H; W; C] 2) with (Ok C) in Hl.
  cbn [rbind] in Hl.
  destruct (index (gen_channels (cfg a)) 0) as [c0|]; [|discriminate].
  cbn [rbind] in Hl.
  match type of Hl with
  | context [rfor_each _ _ (?f, 0)] => set (first := f) in *
  end.
  assert (Hf : output_shape first [n; d]
               = Some [n; H / 4; W / 4; c0 * 2]).
  { subst first. simpl.
    replace (H / 4 * (W / 4) * (c0 * 2) * 1 =? H / 4 * (W / 4 * (c0 * 2 * 1)))
      with true; [done|]. symmetry. apply Z.eqb_eq. ring. }
  destruct (rfor_each _ _ (first, 0)) as [[ls1 i1]|] eqn:E1; [|discriminate].
  cbn [rbind] in Hl.
  destruct (gen_loop_shape _ _ _ _ _ _ _ _ _ _ _ E1 Hf) as (ch1 & Hs1).
  destruct (gen_block (cfg a) (2, 2) (ls1, i1)) as [ls2|] eqn:E2; [|discriminate].
  cbn [rbind] in Hl.
  destruct (gen_block_shape _ _ _ _ _ _ _ _ _ _ _ E2 Hs1) as (ch2 & Hs2).
  cbn [snd] in Hl.
  destruct (rfor_each _ _ (ls2, i1)) as [[ls3 i3]|] eqn:E3; [|discriminate].
  cbn [rbind fst] in Hl.
  destruct (gen_loop_shape _ _ _ _ _ _ _ _ _ _ _ E3 Hs2) as (ch3 & Hs3).
  injection Hl as <-.
  rewrite output_shape_app, Hs3. simpl.
  replace (H / 4 * 2 * 2) with (4 * (H / 4)) by lia.
  replace (W / 4 * 2 * 2) with (4 * (W / 4)) by lia. done.
Qed.

End GeneratorShape.

Section GenerateShape.
Context `{B : Backend} `{!BackendLaws B}.
Import DCGAN.

Lemma unstack_shape t n rest :
  tshape t = n :: rest →
  ∃ items, unstack t = Ok items ∧ length items = Z.to_nat n
           ∧ Forall (λ s, tshape s = rest) items.
Proof.
  intros Hs. unfold unstack. rewrite Hs. eexists. split; [reflexivity|].
  split; [by rewrite length_map, length_seq|].
  apply Forall_forall. intros s Hin.
  apply list_elem_of_In, in_map_iff in Hin as (i & <- & _). done.
Qed.

Lemma enumerate_lookup {A} (l : list A) i x :
  l !! i = Some x → enumerate l !! i = Some (Z.of_nat i, x).
Proof.
  intros Hx. unfold enumerate.
  apply lookup_zip_with_Some. exists (Z.of_nat i), x. split; [done|].
  split; [|done].
  rewrite list_lookup_fmap, lookup_seq_lt; [done|].
  by apply lookup_lt_Some in Hx.
Qed.

Lemma imwrites_lookup dir items i s :
  items !! i = Some s →
  imwrites dir items !! i
  = Some (EvImwrite (path_join dir ("sample_" +:+ str (Z.of_nat i) +:+ ".jpg")) s).
Proof.
  intros Hs. unfold imwrites.
  by rewrite list_lookup_fmap, (enumerate_lookup _ _ _ Hs).
Qed.

Lemma length_imwrites dir items : length (imwrites dir items) = length items.
Proof.
  unfold imwrites, enumerate.
  rewrite length_map, length_zip_with, length_map, length_seq. lia.
Qed.

Lemma imwrite_loop {Self} dir (l : list (Z * tensor)) : ∀ (o : obj Self),
  ∃ o', for_each l
          (λ is_ _, in_world (imwrite (path_join dir ("sample_" +:+ str is_.1 +:+ ".jpg"))
                                      is_.2))
          tt o = (Ok tt, o')
        ∧ self o' = self o
        ∧ trace (env o')
          = trace (env o)
            ++ map (λ is_, EvImwrite (path_join dir ("sample_" +:+ str is_.1 +:+ ".jpg"))
                                     is_.2) l.
Proof.
  induction l as [|[i s] l IH]; intros o.
  - exists o. simpl. by rewrite app_nil_r.
  - set (o1 := Obj (self o)
                 (World (store (env o)) (next_var (env o)) (rng (env o))
                    (checkpoints (env o))
                    (<[path_join dir ("sample_" +:+ str i +:+ ".jpg") := s]>
                       (images (env o)))
                    (paths (env o))
                    (trace (env o)
                     ++ [EvImwrite (path_join dir ("sample_" +:+ str i +:+ ".jpg")) s]))).
    destruct (IH o1) as (o' & Hrun & Hs & Ht).
    exists o'. cbn [for_each].
    assert (H1 : in_world (imwrite (path_join dir ("sample_" +:+ str i +:+ ".jpg")) s) o
                 = (Ok tt, o1)) by reflexivity.
    rewrite (bind_ok _ _ _ _ _ H1), Hrun.
    split; [done|]. split; [by rewrite Hs|].
    rewrite Ht. subst o1. cbn [env trace map fst snd]. by rewrite <- app_assoc.
Qed.

(** The samples of the generator: their number, their shape, and the files
    written for them. *)
Lemma dcgan_generate_samples_shape (o : obj attrs) n g H W C :
  gen_model (self o) = Some g →
  generator_layers (self o) = Ok (layers g) →
  image_size (self o) = Some [H; W; C] →
  0 ≤ n → 0 ≤ noise_dim (self o) →
  (∃ t o' items,
     generate_samples n None o = (Ok (Some t), o')
     ∧ tshape t = [n; 4 * (H / 4); 4 * (W / 4); C]
     ∧ unstack t = Ok items ∧ length items = Z.to_nat n
     ∧ Forall (λ s, tshape s = [4 * (H / 4); 4 * (W / 4); C]) items)
  ∧ (H mod 4 = 0 → W mod 4 = 0 →
     [4 * (H / 4); 4 * (W / 4); C] = [H; W; C])
  ∧ (∀ dir, dir ∈ paths (env o) →
       ∃ o' items,
         generate_samples n (Some dir) o = (Ok None, o')
         ∧ length items = Z.to_nat n
         ∧ Forall (λ s, tshape s = [4 * (H / 4); 4 * (W / 4); C]) items
         ∧ trace (env o') = trace (env o) ++ imwrites dir items
         ∧ length (imwrites dir items) = Z.to_nat n
         ∧ ∀ i s, items !! i = Some s →
             imwrites dir items !! i
             = Some (EvImwrite
                       (path_join dir ("sample_" +:+ str (Z.of_nat i) +:+ ".jpg")) s))
  ∧ (∀ dir, dir ∉ paths (env o) →
       ∃ o', generate_samples n (Some dir) o
             = (Raise (AssertionError "Directory does not exist"), o')).
Proof.
  intros Hg Hl Hi Hn Hnd.
  set (noise := random_normal [n; noise_dim (self o)] (rng (env o))).
  set (t := call_model g (store (env o)) None noise.1).
  assert (Ht : tshape t = [n; 4 * (H / 4); 4 * (W / 4); C]).
  { subst t. unfold call_model. apply apply_layers_shape.
    subst noise. rewrite random_normal_shape.
    by apply (generator_layers_shape (self o)). }
  destruct (unstack_shape t _ _ Ht) as (items & Hu & Hlen & Hall).
  split_and!.
  - eexists t, _, items.
    rewrite (generate_samples_some o n None g Hg),
      (generate_from_model_eq o n None g Hg Hn Hnd).
    cbv zeta. done.
  - intros HH HW.
    pose proof (Z.div_exact H 4 ltac:(lia)) as [_ E1].
    pose proof (Z.div_exact W 4 ltac:(lia)) as [_ E2].
    by rewrite <- E1, <- E2.
  - intros dir Hdir.
    rewrite (generate_samples_some o n (Some dir) g Hg),
      (generate_from_model_eq o n (Some dir) g Hg Hn Hnd).
    cbv zeta. fold noise. fold t.
    set (o1 := Obj (self o) _).
    unfold bind at 1. unfold in_world at 1, path_exists, bind at 1, get, ret.
    cbn [env paths fst snd]. rewrite bool_decide_true by done.
    unfold bind at 1, assert, ret. unfold bind at 1, lift. rewrite Hu.
    destruct (imwrite_loop dir (enumerate items)
                (Obj (self o1) (env o1))) as (o' & Hrun & _ & Htr).
    unfold bind at 1. rewrite Hrun. unfold ret.
    exists o', items. split; [done|]. split; [done|]. split; [done|].
    split; [exact Htr|]. split; [by rewrite length_imwrites|].
    intros i s. apply imwrites_lookup.
  - intros dir Hdir.
    rewrite (generate_samples_some o n (Some dir) g Hg),
      (generate_from_model_eq o n (Some dir) g Hg Hn Hnd).
    cbv zeta.
    unfold bind at 1. unfold in_world at 1, path_exists, bind at 1, get, ret.
    cbn [env paths fst snd]. rewrite bool_decide_false by done.
    unfold bind at 1, assert, raise. eauto.
Qed.

End GenerateShape.

(** ** Checkpoints *)

Section Checkpoints.
Context `{B : Backend}.

Lemma append_assoc (s1 s2 s3 : string) :
  (s1 +:+ s2) +:+ s3 = s1 +:+ (s2 +:+ s3).
Proof.
  induction s1 as [|a s1 IH]; [reflexivity|].
  change (String a ((s1 +:+ s2) +:+ s3) = String a (s1 +:+ (s2 +:+ s3))).
  by rewrite IH.
Qed.

Lemma last_char_nonempty s : s ≠ ""%string → ∃ c, last_char s = Some c.
Proof.
  induction s as [|a s IH]; [done|]. intros _.
  destruct s as [|b s]; [by exists a|].
  destruct IH as (c & Hc); [done|]. exists c. exact Hc.
Qed.

(** The two branches of the code build the path of the specification. *)
Lemma code_path_eq dir c name :
  last_char dir = Some c →
  (if bool_decide (c ≠ "/"%char) then dir +:+ ("/" +:+ name) else dir +:+ name)
  = checkpoint_path dir name.
Proof.
  intros Hc. unfold checkpoint_path, ends_with_slash. rewrite Hc.
  case_bool_decide as H1; case_bool_decide as H2; try done.
  - by injection H2.
  - by rewrite append_assoc.
  - exfalso. apply H2. f_equal. by destruct (decide (c = "/"%char)).
Qed.

Lemma checkpoint_path_inj dir n1 n2 :
  checkpoint_path dir n1 = checkpoint_path dir n2 → n1 = n2.
Proof. unfold checkpoint_path. apply String.app_inj. Qed.

(** A loop whose steps only train, when it returns, has only trained. *)
Lemma for_each_extends_inv {Self A L} (body : A → L → M (obj Self) L) :
  (∀ x acc o acc' o', body x acc o = (Ok acc', o') →
     ∃ evs, extends o o' evs ∧ saves evs = []) →
  ∀ l acc o acc' o', for_each l body acc o = (Ok acc', o') →
     ∃ evs, extends o o' evs ∧ saves evs = [].
Proof.
  intros Hbody. induction l as [|x l IH]; intros acc o acc' o' H; simpl in H.
  - injection H as <- <-. exists []. split; [apply extends_refl | done].
  - apply bind_inv in H as (acc1 & o1 & H1 & H2).
    apply Hbody in H1 as (e1 & E1 & V1).
    apply IH in H2 as (e2 & E2 & V2).
    exists (e1 ++ e2). split; [by eapply extends_trans|].
    by rewrite saves_app, V1, V2.
Qed.

Lemma dcgan_train_step_ok tb data l (o : obj DCGAN.attrs) l' o' :
  DCGAN.train_step tb data l o = (Ok l', o') →
  ∃ evs, extends o o' evs ∧ saves evs = [].
Proof.
  intros H. pose proof H as H0. unfold DCGAN.train_step in H0.
  apply bind_inv in H0 as (dl0 & o1 & HD & _).
  apply phase_D_inv in HD as [Ht Hb].
  destruct (train_step_spec o tb data l Ht Hb)
    as (l2 & o2 & evs & Hstep & E & _ & V & _).
  rewrite H in Hstep. injection Hstep as <- <-. eauto.
Qed.

Lemma print_extends {Self} (c : bool) args (o o' : obj Self) :
  (if c then in_world (emit (EvPrint args)) else ret tt) o = (Ok tt, o') →
  ∃ evs, extends o o' evs ∧ saves evs = [].
Proof.
  destruct c.
  - intros [= <-]. exists [EvPrint args]. split; [|done]. by repeat split.
  - intros [= <-]. exists []. split; [apply extends_refl | done].
Qed.

Lemma dcgan_train_epoch_ok ds verbose tb epoch l (o : obj DCGAN.attrs) l' o' :
  DCGAN.train_epoch ds verbose tb epoch l o = (Ok l', o') →
  ∃ evs, extends o o' evs ∧ saves evs = [].
Proof.
  unfold DCGAN.train_epoch. intros H.
  apply bind_inv in H as (l1 & o1 & Hloop & H).
  apply (for_each_extends_inv _ (dcgan_train_step_ok tb)) in Hloop
    as (e1 & E1 & V1).
  apply bind_inv in H as ([] & o2 & Hp & H). injection H as <- <-.
  apply print_extends in Hp as (e2 & E2 & V2).
  exists (e1 ++ e2). split; [by eapply extends_trans|].
  by rewrite saves_app, V1, V2.
Qed.

Lemma dcgan_training_inv ds epochs gopt dopt verbose glr dlr beta tb
    (o : obj DCGAN.attrs) l o1 :
  DCGAN.training ds epochs gopt dopt verbose glr dlr beta tb o = (Ok l, o1) →
  ∃ g d evs,
    DCGAN.gen_model (self o1) = Some g ∧ DCGAN.disc_model (self o1) = Some d
    ∧ trace (env o1) = trace (env o) ++ evs ∧ saves evs = []
    ∧ checkpoints (env o1) = checkpoints (env o).
Proof.
  unfold DCGAN.training. intros H.
  apply bind_inv in H as ([] & oL & Hl & H).
  apply bind_inv in H as (og & o2 & Hg & H).
  apply bind_inv in H as (od & o3 & Hd & H).
  unfold DCGAN.build_optimizer in Hg, Hd.
  destruct (make_optimizer gopt _); [|discriminate]. injection Hg as <- <-.
  destruct (make_optimizer dopt _); [|discriminate]. injection Hd as <- <-.
  apply load_model_inv in Hl
    as (g & d & pre & kg & kd & Hs & _ & _ & _ & _ & _ & Tp & _ & Vp & Cp & _).
  apply (for_each_extends_inv _ (dcgan_train_epoch_ok ds verbose tb)) in H
    as (evs & (S1 & T1 & _ & C1 & _) & V1).
  exists g, d, (pre ++ evs). rewrite S1, Hs. cbn.
  split; [done|]. split; [done|].
  rewrite T1, Tp, <- app_assoc, saves_app, Vp, V1, C1, Cp. done.
Qed.

Lemma dcgan_save_ok (o : obj DCGAN.attrs) dir g d :
  DCGAN.gen_model (self o) = Some g → DCGAN.disc_model (self o) = Some d →
  dir ≠ ""%string →
  DCGAN.save_checkpoints (VStr dir) o =
    let pg := checkpoint_path dir "generator_checkpoint" in
    let pd := checkpoint_path dir "discriminator_checkpoint" in
    (Ok tt,
     Obj (self o)
       (World (store (env o)) (next_var (env o)) (rng (env o))
          (<[pd := read_vars (store (env o)) (trainable_variables d)]>
             (<[pg := read_vars (store (env o)) (trainable_variables g)]>
                (checkpoints (env o))))
          (images (env o)) (paths (env o))
          (trace (env o) ++ [EvSaveWeights pg; EvSaveWeights pd]))).
Proof.
  intros Hg Hd Hne. destruct (last_char_nonempty dir Hne) as (c & Hc).
  cbv zeta.
  rewrite <- (code_path_eq dir c "generator_checkpoint" Hc).
  rewrite <- (code_path_eq dir c "discriminator_checkpoint" Hc).
  destruct o as [a w]. simpl in Hg, Hd.
  unfold DCGAN.save_checkpoints, bind, lift, get_self, in_world. simpl.
  rewrite Hc. simpl.
  case_bool_decide; simpl; rewrite Hg, Hd; simpl;
    by rewrite <- app_assoc.
Qed.

End Checkpoints.

Section VAECheckpoints.
Context `{B : Backend}.
Import VAE.

Lemma new_model_inv {Self} ls (o : obj Self) m o' :
  in_world (new_model ls) o = (Ok m, o') →
  layers m = ls ∧ self o' = self o ∧ trace (env o') = trace (env o)
  ∧ checkpoints (env o') = checkpoints (env o)
  ∧ images (env o') = images (env o) ∧ paths (env o') = paths (env o).
Proof.
  unfold in_world. rewrite new_model_eq. cbv zeta. by intros [= <- <-].
Qed.

(** What [__load_model] leaves in a VAE: a model built from the
    configuration, with the KL term registered. *)
Lemma vae_load_model_inv (o o1 : obj attrs) :
  load_model o = (Ok tt, o1) →
  ∃ m, self o1 = Attrs (Some m) (image_size (self o)) (cfg (self o))
       ∧ encoder_layers_of (self o) (cfg (self o)) = Ok (layers (trunk m))
       ∧ layers (mean_head m) = [Dense (latent_dim (cfg (self o))) None None None]
       ∧ layers (var_head m) = [Dense (latent_dim (cfg (self o))) None None None]
       ∧ decoder_layers_of (self o) (cfg (self o)) = Ok (layers (decoder m))
       ∧ losses m = [kl_loss]
       ∧ trace (env o1) = trace (env o)
       ∧ checkpoints (env o1) = checkpoints (env o)
       ∧ images (env o1) = images (env o) ∧ paths (env o1) = paths (env o).
Proof.
  unfold load_model. intros H.
  apply bind_inv in H as (a & o2 & Ha & H). injection Ha as <- <-.
  apply bind_inv in H as (m & o2 & Hv & H).
  unfold set_self, modify in H. injection H as <-.
  unfold vae in Hv.
  apply bind_inv in Hv as (a & o3 & Ha & Hv). injection Ha as <- <-.
  apply bind_inv in Hv as (enc & o3 & He & Hv).
  unfold lift in He. injection He as He <-.
  apply bind_inv in Hv as (t & o3 & Ht & Hv).
  apply new_model_inv in Ht as (Lt & St & Tt & Ct & It & Pt).
  apply bind_inv in Hv as (zm & o4 & Hzm & Hv).
  apply new_model_inv in Hzm as (Lm & Sm & Tm & Cm & Im & Pm).
  apply bind_inv in Hv as (zv & o5 & Hzv & Hv).
  apply new_model_inv in Hzv as (Lv & Sv & Tv & Cv & Iv & Pv).
  apply bind_inv in Hv as (dec & o6 & Hd & Hv).
  unfold lift in Hd. injection Hd as Hd <-.
  apply bind_inv in Hv as (d & o6 & Hdm & Hv).
  apply new_model_inv in Hdm as (Ld & Sd & Td & Cd & Id & Pd).
  injection Hv as <- <-.
  exists (VaeModel t zm zv d [kl_loss]). cbn.
  rewrite Sd, Sv, Sm, St.
  split_and!; try congruence.
Qed.

Lemma vae_train_step_ok tb data l (o : obj attrs) l' o' :
  train_step tb data l o = (Ok l', o') →
  ∃ evs, extends o o' evs ∧ saves evs = [].
Proof.
  intros H. apply vae_train_step_inv in H
    as (m & eps & evs & _ & E & _ & _ & _ & _ & _ & V). eauto.
Qed.

Lemma vae_train_epoch_ok ds verbose tb epoch l (o : obj attrs) l' o' :
  train_epoch ds verbose tb epoch l o = (Ok l', o') →
  ∃ evs, extends o o' evs ∧ saves evs = [].
Proof.
  unfold train_epoch. intros H.
  apply bind_inv in H as (l1 & o1 & Hloop & H).
  apply (for_each_extends_inv _ (vae_train_step_ok tb)) in Hloop
    as (e1 & E1 & V1).
  apply bind_inv in H as ([] & o2 & Hp & H). injection H as <- <-.
  apply print_extends in Hp as (e2 & E2 & V2).
  exists (e1 ++ e2). split; [by eapply extends_trans|].
  by rewrite saves_app, V1, V2.
Qed.

Lemma vae_training_inv ds epochs opt verbose lr tb (o : obj attrs) l o1 :
  training ds epochs opt verbose lr tb o = (Ok l, o1) →
  ∃ m evs,
    model_ (self o1) = Some m
    ∧ trace (env o1) = trace (env o) ++ evs ∧ saves evs = []
    ∧ checkpoints (env o1) = checkpoints (env o).
Proof.
  unfold training. intros H.
  apply bind_inv in H as ([] & oL & Hl & H).
  apply bind_inv in H as (op & o2 & Hop & H).
  destruct (make_optimizer opt _); [|discriminate]. injection Hop as <- <-.
  apply vae_load_model_inv in Hl
    as (m & Hs & _ & _ & _ & _ & _ & Tp & Cp & _).
  apply (for_each_extends_inv _ (vae_train_epoch_ok ds verbose tb)) in H
    as (evs & (S1 & T1 & _ & C1 & _) & V1).
  exists m, evs. rewrite S1, Hs, T1, Tp, C1, Cp. done.
Qed.

Lemma vae_save_ok (o : obj attrs) dir m :
  model_ (self o) = Some m → dir ≠ ""%string →
  save_checkpoint (VStr dir) o =
    let p := checkpoint_path dir "variational_autoencoder_checkpoint" in
    (Ok tt,
     Obj (self o)
       (World (store (env o)) (next_var (env o)) (rng (env o))
          (<[p := read_vars (store (env o)) (vae_trainable_variables m)]>
             (checkpoints (env o)))
          (images (env o)) (paths (env o))
          (trace (env o) ++ [EvSaveWeights p]))).
Proof.
  intros Hm Hne. destruct (last_char_nonempty dir Hne) as (c & Hc).
  cbv zeta.
  rewrite <- (code_path_eq dir c "variational_autoencoder_checkpoint" Hc).
  destruct o as [a w]. simpl in Hm.
  unfold save_checkpoint, bind, lift, get_self, in_world. simpl.
  rewrite Hc. simpl.
  case_bool_decide; simpl; by rewrite Hm.
Qed.

End VAECheckpoints.

Section CheckpointClaim.
Context `{B : Backend}.

(** C8, as the code has it.  For every checkpoint directory given as a
    string that is not empty, once the loops of [fit] have run, [fit]
    returns after writing the parameters at
    [{dir}/{generator|discriminator|variational_autoencoder}_checkpoint],
    the separator appended exactly when the string does not end with one:
    for the GAN the generator's and the discriminator's weights, as two
    checkpoints at two different paths of the directory, in that order;
    for the VAE one checkpoint.  These writes are the only ones of the
    call and they come after every step of the loops. *)
Theorem fit_writes_checkpoints dir :
  dir ≠ ""%string →
  (∀ ds epochs gopt dopt verbose glr dlr beta tb (o : obj DCGAN.attrs) l o1,
     DCGAN.training ds epochs gopt dopt verbose glr dlr beta tb o = (Ok l, o1) →
     ∃ g d o2 evs,
       let pg := checkpoint_path dir "generator_checkpoint" in
       let pd := checkpoint_path dir "discriminator_checkpoint" in
       DCGAN.fit (Some ds) epochs gopt dopt verbose glr dlr beta tb (VStr dir) o
       = (Ok tt, o2)
       ∧ DCGAN.gen_model (self o1) = Some g
       ∧ DCGAN.disc_model (self o1) = Some d
       ∧ trace (env o1) = trace (env o) ++ evs ∧ saves evs = []
       ∧ trace (env o2) = trace (env o1) ++ [EvSaveWeights pg; EvSaveWeights pd]
       ∧ pg ≠ pd
       ∧ checkpoints (env o2)
         = <[pd := read_vars (store (env o1)) (trainable_variables d)]>
             (<[pg := read_vars (store (env o1)) (trainable_variables g)]>
                (checkpoints (env o))))
  ∧ (∀ ds epochs opt verbose lr tb (o : obj VAE.attrs) l o1,
       VAE.training ds epochs opt verbose lr tb o = (Ok l, o1) →
       ∃ m o2 evs,
         let p := checkpoint_path dir "variational_autoencoder_checkpoint" in
         VAE.fit (Some ds) epochs opt verbose lr tb (VStr dir) o = (Ok tt, o2)
         ∧ VAE.model_ (self o1) = Some m
         ∧ trace (env o1) = trace (env o) ++ evs ∧ saves evs = []
         ∧ trace (env o2) = trace (env o1) ++ [EvSaveWeights p]
         ∧ checkpoints (env o2)
           = <[p := read_vars (store (env o1)) (VAE.vae_trainable_variables m)]>
               (checkpoints (env o))).
Proof.
  intros Hne. split.
  - intros ds epochs gopt dopt verbose glr dlr beta tb o l o1 Htr.
    pose proof (dcgan_training_inv _ _ _ _ _ _ _ _ _ _ _ _ Htr)
      as (g & d & evs & Hg & Hd & T & V & C).
    exists g, d. eexists. exists evs. cbv zeta.
    unfold DCGAN.fit. rewrite (bind_ok _ _ _ _ _ Htr).
    rewrite (dcgan_save_ok o1 dir g d Hg Hd Hne). cbv zeta.
    split; [reflexivity|]. cbn [env trace checkpoints]. rewrite C.
    split_and!; try done.
    intros Heq%checkpoint_path_inj. discriminate.
  - intros ds epochs opt verbose lr tb o l o1 Htr.
    pose proof (vae_training_inv _ _ _ _ _ _ _ _ _ Htr)
      as (m & evs & Hm & T & V & C).
    exists m. eexists. exists evs. cbv zeta.
    unfold VAE.fit. rewrite (bind_ok _ _ _ _ _ Htr).
    rewrite (vae_save_ok o1 dir m Hm Hne). cbv zeta.
    split; [reflexivity|]. cbn [env trace checkpoints]. by rewrite C.
Qed.

End CheckpointClaim.

Lemma fit_writes_checkpoints_witness :
  (∃ l o1 g d o2 evs,
     DCGAN.training [Toy.batch] 1 "Adam" "Adam" 0 (1 / 10000) (2 / 10000)
                    (1 / 2) false Toy.dcgan_loaded = (Ok l, o1)
     ∧ DCGAN.fit (Some [Toy.batch]) 1 "Adam" "Adam" 0 (1 / 10000) (2 / 10000)
                 (1 / 2) false (VStr "out") Toy.dcgan_loaded = (Ok tt, o2)
     ∧ DCGAN.gen_model (self o1) = Some g
     ∧ DCGAN.disc_model (self o1) = Some d
     ∧ trace (env o1) = trace (env Toy.dcgan_loaded) ++ evs ∧ saves evs = []
     ∧ trace (env o2)
       = trace (env o1) ++ [EvSaveWeights "out/generator_checkpoint";
                            EvSaveWeights "out/discriminator_checkpoint"]
     ∧ checkpoint_path "out" "generator_checkpoint"
       ≠ checkpoint_path "out" "discriminator_checkpoint"
     ∧ checkpoints (env o2)
       = <["out/discriminator_checkpoint"%string
             := read_vars (store (env o1)) (trainable_variables d)]>
           (<["out/generator_checkpoint"%string
                := read_vars (store (env o1)) (trainable_variables g)]>
              (checkpoints (env Toy.dcgan_loaded))))
  ∧ (∃ l o1 m o2 evs,
       VAE.training [Toy.vae_batch] 2 "SGD" 1 (1 / 1000) false Toy.vae_loaded
       = (Ok l, o1)
       ∧ VAE.fit (Some [Toy.vae_batch]) 2 "SGD" 1 (1 / 1000) false
                 (VStr "ckpt/") Toy.vae_loaded = (Ok tt, o2)
       ∧ VAE.model_ (self o1) = Some m
       ∧ trace (env o1) = trace (env Toy.vae_loaded) ++ evs ∧ saves evs = []
       ∧ trace (env o2)
         = trace (env o1)
           ++ [EvSaveWeights "ckpt/variational_autoencoder_checkpoint"]
       ∧ checkpoints (env o2)
         = <["ckpt/variational_autoencoder_checkpoint"%string
               := read_vars (store (env o1)) (VAE.vae_trainable_variables m)]>
             (checkpoints (env Toy.vae_loaded))).
Proof.
  split.
  - destruct (is_ok_inv
                (DCGAN.training [Toy.batch] 1 "Adam" "Adam" 0 (1 / 10000)
                   (2 / 10000) (1 / 2) false Toy.dcgan_loaded))
      as (l & o1 & Htr); [vm_compute; reflexivity|].
    assert (Hne : "out"%string ≠ ""%string) by discriminate.
    destruct (fit_writes_checkpoints (B := Toy.backend) "out" Hne) as [HD _].
    destruct (HD _ _ _ _ _ _ _ _ _ _ _ _ Htr) as (g & d & o2 & evs & H).
    exists l, o1, g, d, o2, evs. split; [exact Htr | exact H].
  - destruct (is_ok_inv
                (VAE.training [Toy.vae_batch] 2 "SGD" 1 (1 / 1000) false
                   Toy.vae_loaded))
      as (l & o1 & Htr); [vm_compute; reflexivity|].
    assert (Hne : "ckpt/"%string ≠ ""%string) by discriminate.
    destruct (fit_writes_checkpoints (B := Toy.backend) "ckpt/" Hne) as [_ HV].
    destruct (HV _ _ _ _ _ _ _ _ _ Htr) as (m & o2 & evs & H).
    exists l, o1, m, o2, evs. split; [exact Htr | exact H].
Defined.

(** C8 as stated fails on the empty string: after the loops have run,
    [fit] raises [IndexError] on [save_model[-1]] and writes no
    checkpoint. *)
Lemma fit_empty_directory_raises :
  (DCGAN.fit (Some [Toy.batch]) 1 "Adam" "Adam" 0 (1 / 10000) (2 / 10000)
             (1 / 2) false (VStr "") Toy.dcgan_loaded).1 = Raise IndexError
  ∧ saves (trace (env (DCGAN.fit (Some [Toy.batch]) 1 "Adam" "Adam" 0
                         (1 / 10000) (2 / 10000) (1 / 2) false (VStr "")
                         Toy.dcgan_loaded).2)) = []
  ∧ (VAE.fit (Some [Toy.vae_batch]) 1 "Adam" 0 (1 / 1000) false (VStr "")
             Toy.vae_loaded).1 = Raise IndexError.
Proof.
  split_and!; vm_compute; reflexivity.
Qed.

(** ** Shapes of the samples of the VAE *)

Section VAEShape.
Context `{B : Backend} `{!BackendLaws B}.
Import VAE.

Lemma dense_append ls u act k i b d :
  rows_to_rows ls →
  output_shape (ls ++ [Dense u act k i]) [b; d] = Some [b; u].
Proof.
  intros H. destruct (H b d) as (u0 & Hu).
  rewrite output_shape_app, Hu. reflexivity.
Qed.

Lemma dense_append_rows ls u act k i :
  rows_to_rows ls → rows_to_rows (ls ++ [Dense u act k i]).
Proof. intros H b d. exists u. by apply dense_append. Qed.

Lemma dense_loop_rows c units es : ∀ acc ls,
  rfor_each es (λ i acc, u <~ index units i ;; Ok (acc ++ [dense c u])) acc
  = Ok ls →
  rows_to_rows acc → rows_to_rows ls.
Proof.
  induction es as [|e es IH]; intros acc ls H Hacc; simpl in H.
  - by injection H as <-.
  - destruct (index units e) as [u|]; [|discriminate]. simpl in H.
    eapply IH; [exact H|]. by apply dense_append_rows.
Qed.

Lemma encoder_shape a c ls b d :
  encoder_layers_of a c = Ok ls →
  output_shape ls [b; d] = Some [b; interm_dim c].
Proof.
  unfold encoder_layers_of. intros H.
  destruct (image_dim a 0) as [h|]; [|discriminate].
  destruct (image_dim a 1) as [w|]; [|discriminate].
  destruct (image_dim a 2) as [ch|]; [|discriminate].
  destruct (index (enc_units c) 0) as [u0|]; [|discriminate].
  cbn [rbind] in H.
  destruct (rfor_each _ _ _) as [body|] eqn:E; [|discriminate].
  cbn [rbind] in H. injection H as <-.
  apply dense_append. eapply dense_loop_rows; [exact E|].
  intros b' d'. by exists (u0 * 2).
Qed.

Lemma decoder_shape a c ls H W C b d :
  decoder_layers_of a c = Ok ls →
  image_size a = Some [H; W; C] →
  output_shape ls [b; d] = Some [b; H * W * C].
Proof.
  unfold decoder_layers_of, image_dim. intros Hl Hi. rewrite Hi in Hl.
  change (index [H; W; C] 0) with (Ok H) in Hl.
  change (index [H; W; C] 1) with (Ok W) in Hl.
  change (index [H; W; C] 2) with (Ok C) in Hl.
  destruct (index (dec_units c) 0) as [u0|]; [|discriminate].
  cbn [rbind] in Hl.
  destruct (rfor_each _ _ _) as [body|] eqn:E; [|discriminate].
  cbn [rbind] in Hl. injection Hl as <-.
  apply dense_append. eapply dense_loop_rows; [exact E|].
  intros b' d'. by exists (u0 / 2).
Qed.

Lemma encode_shape (a : attrs) m st training x b d :
  built_from_config a m → tshape x = [b; d] →
  tshape (encode m st training x).1 = [b; latent_dim (cfg a)].
Proof.
  intros (He & Hm & _) Hx. unfold encode. cbn [fst].
  unfold call_model. apply apply_layers_shape.
  rewrite (apply_layers_shape _ _ _ _ [b; interm_dim (cfg a)]).
  - by rewrite Hm.
  - rewrite Hx. by apply (encoder_shape a).
Qed.

Lemma forward_shape (a : attrs) m st training eps x b d H W C :
  built_from_config a m → image_size a = Some [H; W; C] →
  tshape x = [b; d] →
  tshape (forward m st training eps x) = [b; H * W * C].
Proof.
  intros Hb Hi Hx. pose proof Hb as (_ & _ & _ & Hd).
  unfold forward. unfold call_model at 1. apply apply_layers_shape.
  unfold sampling, t_add, t_map2. cbn [tshape].
  rewrite (encode_shape a m st training x b d Hb Hx).
  by apply (decoder_shape a (cfg a)).
Qed.

Lemma is_flat_batch_shape d x :
  is_flat_batch d x = true → ∃ b, tshape x = [b; d] ∧ 0 ≤ b.
Proof.
  unfold is_flat_batch.
  destruct (tshape x) as [|b [|d' [|]]]; try discriminate.
  intros [Hb Hd]%andb_true_iff. apply Z.leb_le in Hb. apply Z.eqb_eq in Hd.
  subst. eauto.
Qed.

(** One pass of the loop of [generate_samples]. *)
Lemma generate_step_spec (o : obj attrs) m i x acc H W C b :
  model_ (self o) = Some m → built_from_config (self o) m →
  image_size (self o) = Some [H; W; C] →
  0 ≤ latent_dim (cfg (self o)) →
  tshape x = [b; H * W * C] → 0 ≤ b →
  ∃ t r,
    tshape t = [b; H * W * C]
    ∧ generate_step (i, x) acc o
      = ((if i =? 0 then Ok t else concatenate0 acc t),
         Obj (self o)
           (World (store (env o)) (next_var (env o)) r (checkpoints (env o))
                  (images (env o)) (paths (env o)) (trace (env o)))).
Proof.
  intros Hm Hb Hi Hlat Hx Hb0. destruct o as [a w]. cbn [self env] in *.
  unfold generate_step, bind at 1, get_self. cbn [fst snd self].
  rewrite Hm. unfold bind at 1, lift at 1, callable_vae.
  unfold bind at 1, in_world at 1, draw_epsilon.
  unfold bind at 1, get. cbn [env fst snd].
  rewrite (encode_shape a m (store w) (Some false) x b _ Hb Hx).
  change (index [b; latent_dim (cfg a)] 0) with (Ok b).
  change (index [b; latent_dim (cfg a)] 1) with (Ok (latent_dim (cfg a))).
  unfold bind at 1, lift at 1. unfold bind at 1, lift at 1.
  unfold tf_random_normal. cbn [forallb].
  assert (Hc : (0 <=? b) && ((0 <=? latent_dim (cfg a)) && true) = true)
    by (rewrite andb_true_r, andb_true_iff; split; apply Z.leb_le; lia).
  rewrite Hc.
  destruct (random_normal [b; latent_dim (cfg a)] (rng w)) as [eps r].
  cbn [env store next_var rng checkpoints images paths trace].
  unfold bind at 1, in_world at 1, get. cbn [env store fst snd].
  exists (forward m (store w) (Some false) eps x), r.
  split; [by apply (forward_shape a _ _ _ _ _ b (H * W * C))|].
  by destruct (i =? 0).
Qed.

End VAEShape.

Section VAEGenerate.
Context `{B : Backend} `{!BackendLaws B}.
Import VAE.

Lemma concatenate0_rows a t k b D :
  tshape a = [k; D] → tshape t = [b; D] →
  ∃ c, concatenate0 a t = Ok c ∧ tshape c = [k + b; D].
Proof.
  intros Ha Ht. unfold concatenate0. rewrite Ha, Ht.
  rewrite bool_decide_true by done. eauto.
Qed.

Lemma generate_rest_spec m H W C : ∀ (l : list (Z * tensor)) acc (o : obj attrs) k,
  model_ (self o) = Some m → built_from_config (self o) m →
  image_size (self o) = Some [H; W; C] →
  0 ≤ latent_dim (cfg (self o)) →
  Forall (λ p, p.1 ≠ 0 ∧ is_flat_batch (H * W * C) p.2 = true) l →
  tshape acc = [k; H * W * C] →
  ∃ acc' r,
    for_each l generate_step acc o
    = (Ok acc',
       Obj (self o)
         (World (store (env o)) (next_var (env o)) r (checkpoints (env o))
                (images (env o)) (paths (env o)) (trace (env o))))
    ∧ tshape acc' = [k + sum_rows (map snd l); H * W * C].
Proof.
  induction l as [|[i x] l IH]; intros acc o k Hm Hb Hi Hlat Hl Hacc.
  - exists acc, (rng (env o)). destruct o as [a []]. simpl.
    rewrite Z.add_0_r. done.
  - inversion Hl as [|? ? [Hi0 Hx] Hl']; subst. cbn [fst snd] in Hi0, Hx.
    apply is_flat_batch_shape in Hx as (b & Hx & Hb0).
    destruct (generate_step_spec o m i x acc H W C b Hm Hb Hi Hlat Hx Hb0)
      as (t & r & Ht & Hstep).
    destruct (concatenate0_rows acc t k b _ Hacc Ht) as (c & Hc & Hcs).
    assert (Hi0' : (i =? 0) = false) by (by apply Z.eqb_neq).
    rewrite Hi0', Hc in Hstep.
    cbn [for_each]. rewrite (bind_ok _ _ _ _ _ Hstep).
    set (o1 := Obj (self o) _).
    destruct (IH c o1 (k + b) Hm Hb Hi Hlat Hl' Hcs) as (acc' & r' & Hrun & Hs).
    exists acc', r'. split; [exact Hrun|].
    rewrite Hs. cbn [map snd sum_rows foldr]. rewrite Hx. cbn [hd].
    f_equal. unfold sum_rows. lia.
Qed.

Lemma enumerate_tail_nonzero (l : list tensor) j :
  Forall (λ p : Z * tensor, p.1 ≠ 0) (zip (map Z.of_nat (seq (S j) (length l))) l).
Proof.
  revert j. induction l as [|x l IH]; intros j; simpl; [constructor|].
  constructor; [simpl; lia | apply IH].
Qed.

Lemma snd_zip_enumerate (l : list tensor) j :
  map snd (zip (map Z.of_nat (seq j (length l))) l) = l.
Proof.
  revert j. induction l as [|x l IH]; intros j; simpl; [done|].
  by rewrite IH.
Qed.

Lemma generate_loop_spec (o : obj attrs) m H W C ds :
  model_ (self o) = Some m → built_from_config (self o) m →
  image_size (self o) = Some [H; W; C] →
  0 ≤ latent_dim (cfg (self o)) →
  Forall (λ x, is_flat_batch (H * W * C) x = true) ds →
  ∃ acc r,
    for_each (enumerate ds) generate_step (Tensor [0] []) o
    = (Ok acc,
       Obj (self o)
         (World (store (env o)) (next_var (env o)) r (checkpoints (env o))
                (images (env o)) (paths (env o)) (trace (env o))))
    ∧ numel (tshape acc) = sum_rows ds * (H * W * C).
Proof.
  intros Hm Hb Hi Hlat Hds. destruct ds as [|x ds].
  - exists (Tensor [0] []), (rng (env o)). destruct o as [a []]. done.
  - inversion Hds as [|? ? Hx Hds']; subst.
    apply is_flat_batch_shape in Hx as (b & Hx & Hb0).
    destruct (generate_step_spec o m 0 x (Tensor [0] []) H W C b
                Hm Hb Hi Hlat Hx Hb0) as (t & r & Ht & Hstep).
    change (0 =? 0) with true in Hstep.
    unfold enumerate. cbn [length seq map zip zip_with for_each].
    rewrite (bind_ok _ _ _ _ _ Hstep).
    set (o1 := Obj (self o) _).
    destruct (generate_rest_spec m H W C
                (zip (map Z.of_nat (seq 1 (length ds))) ds) t o1 b
                Hm Hb Hi Hlat) as (acc & r' & Hrun & Hs); [|exact Ht|].
    { apply Forall_forall. intros p Hp. split.
      - pose proof (enumerate_tail_nonzero ds 0) as Hnz.
        rewrite Forall_forall in Hnz. by apply Hnz.
      - rewrite Forall_forall in Hds'. apply Hds'.
        rewrite <- (snd_zip_enumerate ds 1).
        apply list_elem_of_fmap. eauto. }
    exists acc, r'. split; [exact Hrun|].
    rewrite Hs, snd_zip_enumerate. cbn [sum_rows foldr numel fold_right].
    rewrite Hx. cbn [hd]. unfold sum_rows. lia.
Qed.

Lemma reshape_rows_ok acc N H W C :
  numel (tshape acc) = N * (H * W * C) → 0 < H * W * C →
  reshape_rows acc [H; W; C] = Ok (Tensor [N; H; W; C] (tdata acc)).
Proof.
  intros Hn Hpos. unfold reshape_rows. rewrite Hn.
  assert (Hk : numel [H; W; C] = H * W * C) by (simpl; lia).
  rewrite Hk.
  replace (H * W * C =? 0) with false by (symmetry; apply Z.eqb_neq; lia).
  rewrite Z.mod_mul by lia. simpl.
  by rewrite Z.div_mul by lia.
Qed.

(** The samples of the VAE: one per example of the dataset given, in the
    order of the dataset, each of the image size of the data. *)
Lemma vae_generate_samples_shape (o : obj attrs) m H W C ds :
  model_ (self o) = Some m → built_from_config (self o) m →
  image_size (self o) = Some [H; W; C] →
  0 < H * W * C → 0 ≤ latent_dim (cfg (self o)) →
  Forall (λ x, is_flat_batch (H * W * C) x = true) ds →
  (∃ t o' items,
     generate_samples (Some ds) None o = (Ok (Some t), o')
     ∧ tshape t = [sum_rows ds; H; W; C]
     ∧ unstack t = Ok items ∧ length items = Z.to_nat (sum_rows ds)
     ∧ Forall (λ s, tshape s = [H; W; C]) items)
  ∧ (∀ dir, dir ∈ paths (env o) →
       ∃ o' items,
         generate_samples (Some ds) (Some dir) o = (Ok None, o')
         ∧ length items = Z.to_nat (sum_rows ds)
         ∧ Forall (λ s, tshape s = [H; W; C]) items
         ∧ trace (env o') = trace (env o) ++ imwrites dir items).
Proof.
  intros Hm Hb Hi Hpos Hlat Hds.
  destruct (generate_loop_spec o m H W C ds Hm Hb Hi Hlat Hds)
    as (acc & r & Hloop & Hn).
  pose proof (reshape_rows_ok acc _ H W C Hn Hpos) as Hr.
  set (t := Tensor [sum_rows ds; H; W; C] (tdata acc)) in *.
  destruct (unstack_shape t (sum_rows ds) [H; W; C] eq_refl)
    as (items & Hu & Hlen & Hall).
  set (o1 := Obj (self o)
               (World (store (env o)) (next_var (env o)) r (checkpoints (env o))
                      (images (env o)) (paths (env o)) (trace (env o)))) in *.
  assert (Hpre : ∀ (k : tensor → M (obj attrs) (option tensor)),
            (generated_samples <-
               for_each (enumerate ds) generate_step (Tensor [0] []) ;;
             a <- get_self ;;
             h <- lift (image_dim a 0) ;;
             w <- lift (image_dim a 1) ;;
             ch <- lift (image_dim a 2) ;;
             generated_samples <- lift (reshape_rows generated_samples [h; w; ch]) ;;
             k generated_samples) o = k t o1).
  { intros k. rewrite (bind_ok _ _ _ _ _ Hloop).
    unfold bind at 1, get_self. cbn [fst snd].
    unfold image_dim. subst o1. cbn [self]. rewrite Hi.
    change (index [H; W; C] 0) with (Ok H).
    change (index [H; W; C] 1) with (Ok W).
    change (index [H; W; C] 2) with (Ok C).
    unfold bind at 1, lift at 1. unfold bind at 1, lift at 1.
    unfold bind at 1, lift at 1. unfold bind at 1, lift at 1.
    by rewrite Hr. }
  split.
  - exists t, o1, items. unfold generate_samples.
    rewrite (Hpre (λ g, ret (Some g))). done.
  - intros dir Hdir. unfold generate_samples.
    rewrite (Hpre
               (λ g, ex <- in_world (path_exists dir) ;;
                     assert ex "Directory does not exist" ;;;
                     samples <- lift (unstack g) ;;
                     for_each (enumerate samples)
                       (λ is_ _, in_world (imwrite (path_join dir ("sample_" +:+ str is_.1 +:+ ".jpg"))
                                                   is_.2))
                       tt ;;;
                     ret None)).
    destruct (imwrite_loop dir (enumerate items) o1) as (o' & Hrun & _ & Htr).
    assert (Hex : in_world (path_exists dir) o1 = (Ok true, o1)).
    { unfold in_world, path_exists, bind, get, ret. subst o1.
      cbn [env paths fst snd]. by rewrite bool_decide_true by done. }
    rewrite (bind_ok _ _ _ _ _ Hex).
    unfold bind at 1, assert, ret. unfold bind at 1, lift. rewrite Hu.
    unfold bind at 1. rewrite Hrun.
    exists o', items. split; [done|]. split; [done|]. split; [done|].
    exact Htr.
Qed.

End VAEGenerate.

Section BuiltFromConfig.
Context `{B : Backend}.

(** After [__load_model] the hypotheses of the two lemmas on samples
    hold. *)
Lemma vae_load_model_built (o o1 : obj VAE.attrs) :
  VAE.load_model o = (Ok tt, o1) →
  ∃ m, VAE.model_ (self o1) = Some m ∧ VAE.built_from_config (self o1) m
       ∧ VAE.image_size (self o1) = VAE.image_size (self o)
       ∧ VAE.cfg (self o1) = VAE.cfg (self o).
Proof.
  intros H. apply vae_load_model_inv in H
    as (m & Hs & He & Hm & Hv & Hd & _).
  exists m. rewrite Hs. cbn. split; [done|]. split; [|done].
  unfold VAE.built_from_config. cbn. by split_and!.
Qed.

Lemma dcgan_load_model_built (o o1 : obj DCGAN.attrs) :
  DCGAN.load_model o = (Ok tt, o1) →
  ∃ g, DCGAN.gen_model (self o1) = Some g
       ∧ DCGAN.generator_layers (self o1) = Ok (layers g)
       ∧ DCGAN.image_size (self o1) = DCGAN.image_size (self o)
       ∧ DCGAN.noise_dim (self o1) = DCGAN.noise_dim (self o).
Proof.
  intros H. apply load_model_inv in H
    as (g & d & evs & kg & kd & Hs & Hg & _).
  exists g. rewrite Hs. cbn. by split_and!.
Qed.

End BuiltFromConfig.

Section SamplesClaim.
Context `{B : Backend} `{!BackendLaws B}.

(** C9, as the code has it.  With a generator built from the current
    configuration and [n] not negative, [generate_samples] of the GAN
    returns, when no directory is given, an array of exactly [n] items,
    each of height and width four times the quarter, rounded down, of the
    height and width of the data, which is the image size of the data
    exactly when both are multiples of four.  When a directory that exists
    is given it returns [None] and writes exactly [n] files, the [i]-th
    sample, counted from zero, to [sample_i.jpg] in that directory, in the
    order of the samples; when the directory does not exist it raises the
    assertion.  The VAE takes its samples from the dataset it is given:
    one per example, in order, each of the image size of the data, returned
    or written in the same way. *)
Theorem generate_samples_count_and_shape :
  (∀ (o : obj DCGAN.attrs) n g H W C,
     DCGAN.gen_model (self o) = Some g →
     DCGAN.generator_layers (self o) = Ok (layers g) →
     DCGAN.image_size (self o) = Some [H; W; C] →
     0 ≤ n → 0 ≤ DCGAN.noise_dim (self o) →
     (∃ t o' items,
        DCGAN.generate_samples n None o = (Ok (Some t), o')
        ∧ tshape t = [n; 4 * (H / 4); 4 * (W / 4); C]
        ∧ unstack t = Ok items ∧ length items = Z.to_nat n
        ∧ Forall (λ s, tshape s = [4 * (H / 4); 4 * (W / 4); C]) items)
     ∧ (H mod 4 = 0 → W mod 4 = 0 →
        [4 * (H / 4); 4 * (W / 4); C] = [H; W; C])
     ∧ (∀ dir, dir ∈ paths (env o) →
          ∃ o' items,
            DCGAN.generate_samples n (Some dir) o = (Ok None, o')
            ∧ length items = Z.to_nat n
            ∧ Forall (λ s, tshape s = [4 * (H / 4); 4 * (W / 4); C]) items
            ∧ trace (env o') = trace (env o) ++ imwrites dir items
            ∧ length (imwrites dir items) = Z.to_nat n
            ∧ ∀ i s, items !! i = Some s →
                imwrites dir items !! i
                = Some (EvImwrite
                          (path_join dir ("sample_" +:+ str (Z.of_nat i) +:+ ".jpg"))
                          s))
     ∧ (∀ dir, dir ∉ paths (env o) →
          ∃ o', DCGAN.generate_samples n (Some dir) o
                = (Raise (AssertionError "Directory does not exist"), o')))
  ∧ (∀ (o : obj VAE.attrs) m H W C ds,
       VAE.model_ (self o) = Some m →
       VAE.built_from_config (self o) m →
       VAE.image_size (self o) = Some [H; W; C] →
       0 < H * W * C → 0 ≤ VAE.latent_dim (VAE.cfg (self o)) →
       Forall (λ x, is_flat_batch (H * W * C) x = true) ds →
       (∃ t o' items,
          VAE.generate_samples (Some ds) None o = (Ok (Some t), o')
          ∧ tshape t = [sum_rows ds; H; W; C]
          ∧ unstack t = Ok items ∧ length items = Z.to_nat (sum_rows ds)
          ∧ Forall (λ s, tshape s = [H; W; C]) items)
       ∧ (∀ dir, dir ∈ paths (env o) →
            ∃ o' items,
              VAE.generate_samples (Some ds) (Some dir) o = (Ok None, o')
              ∧ length items = Z.to_nat (sum_rows ds)
              ∧ Forall (λ s, tshape s = [H; W; C]) items
              ∧ trace (env o') = trace (env o) ++ imwrites dir items)).
Proof.
  split.
  - intros o n g H W C Hg Hl Hi Hn Hnd.
    by apply (dcgan_generate_samples_shape o n g).
  - intros o m H W C ds Hm Hb Hi Hpos Hlat Hds.
    by apply (vae_generate_samples_shape o m).
Qed.

End SamplesClaim.

Lemma generate_samples_count_and_shape_witness :
  (∃ t o' items,
     DCGAN.generate_samples 3 None Toy.dcgan_built = (Ok (Some t), o')
     ∧ tshape t = [3; 4 * (4 / 4); 4 * (4 / 4); 1]
     ∧ unstack t = Ok items ∧ length items = Z.to_nat 3
     ∧ Forall (λ s, tshape s = [4 * (4 / 4); 4 * (4 / 4); 1]) items)
  ∧ (∃ t o' items,
       VAE.generate_samples (Some [Toy.vae_batch; Toy.vae_batch]) None
                            Toy.vae_built = (Ok (Some t), o')
       ∧ tshape t = [sum_rows [Toy.vae_batch; Toy.vae_batch]; 1; 1; 1]
       ∧ unstack t = Ok items
       ∧ length items = Z.to_nat (sum_rows [Toy.vae_batch; Toy.vae_batch])
       ∧ Forall (λ s, tshape s = [1; 1; 1]) items).
Proof.
  destruct (generate_samples_count_and_shape (B := Toy.backend)) as [HD HV].
  split.
  - destruct (is_ok_inv (DCGAN.load_model Toy.dcgan_loaded))
      as ([] & o1 & Hl); [vm_compute; reflexivity|].
    destruct (dcgan_load_model_built _ _ Hl) as (g & Hg & Hls & Hi & Hnd).
    unfold Toy.dcgan_built. rewrite Hl. cbn [snd].
    destruct (HD o1 3 g 4 4 1 Hg Hls) as (H & _).
    + rewrite Hi. reflexivity.
    + lia.
    + rewrite Hnd. vm_compute. discriminate.
    + exact H.
  - destruct (is_ok_inv (VAE.load_model Toy.vae_loaded))
      as ([] & o1 & Hl); [vm_compute; reflexivity|].
    destruct (vae_load_model_built _ _ Hl) as (m & Hm & Hb & Hi & Hc).
    unfold Toy.vae_built. rewrite Hl. cbn [snd].
    destruct (HV o1 m 1 1 1 [Toy.vae_batch; Toy.vae_batch] Hm Hb) as (H & _).
    + rewrite Hi. reflexivity.
    + lia.
    + rewrite Hc. vm_compute. discriminate.
    + repeat constructor.
    + exact H.
Defined.

(** C9 as stated fails on the shape: with 30x30 colour images as data, the
    two samples returned are 28x28. *)
Lemma generate_samples_shape_differs :
  DCGAN.image_size (self Toy.dcgan_30) = Some [30; 30; 3]
  ∧ ∃ t items,
      (DCGAN.generate_samples 2 None Toy.dcgan_30).1 = Ok (Some t)
      ∧ unstack t = Ok items
      ∧ length items = 2%nat
      ∧ Forall (λ s, tshape s = [28; 28; 3]) items
      ∧ ¬ Forall (λ s, tshape s = [30; 30; 3]) items.
Proof.
  split; [reflexivity|].
  destruct (is_ok_inv (DCGAN.load_model Toy.dcgan_30))
    as ([] & o1 & Hl); [vm_compute; reflexivity|].
  destruct (generate_samples_after_build (B := Toy.backend)
              Toy.dcgan_30 o1 2 eq_refl Hl)
    as (g & o2 & Hg & Hrun); [lia | vm_compute; discriminate |].
  pose proof (load_model_inv _ _ Hl)
    as (g' & d & evs & kg & kd & Hs & Hlay & _).
  assert (g' = g) as -> by (rewrite Hs in Hg; by injection Hg).
  match type of Hrun with _ = (Ok (Some ?x), _) => set (t := x) in * end.
  assert (Ht : tshape t = [2; 4 * (30 / 4); 4 * (30 / 4); 3]).
  { subst t. unfold call_model. apply apply_layers_shape.
    rewrite random_normal_shape.
    by apply (generator_layers_shape (self Toy.dcgan_30)). }
  destruct (unstack_shape t _ _ Ht) as (items & Hu & Hlen & Hall).
  exists t, items. rewrite Hrun. split; [done|]. split; [done|].
  split; [exact Hlen|]. split; [exact Hall|].
  intros Hbad. destruct items as [|s items]; [discriminate|].
  inversion Hall as [|? ? E1 _]. inversion Hbad as [|? ? E2 _].
  rewrite E1 in E2. discriminate.
Qed.

(** * Further properties of the code *)

(** ** The KL term is a penalty *)

Section KLSign.






End KLSign.


(** ** What [__load_model] does to the variables *)

Section LoadModelFresh.
Context `{B : Backend}.
Import DCGAN.

Lemma load_weights_store m p w w' :
  load_weights m p w = (Ok tt, w') →
  ∀ v, v ∉ trainable_variables m → store w' !! v = store w !! v.
Proof.
  unfold load_weights, bind, get. simpl.
  destruct (checkpoints w !! p) as [ws|]; [|discriminate].
  case_bool_decide; [|discriminate].
  unfold modify, emit, modify, set_store. simpl. intros [= <-] v Hv. simpl.
  by apply assign_all_frame.
Qed.

Lemma restore_store (path : option string) m msg (o o1 : obj attrs) :
  match path with
  | Some p => in_world (load_weights m p ;;; emit (EvPrint [PStr msg]))
  | None => ret tt
  end o = (Ok tt, o1) →
  ∀ v, v ∉ trainable_variables m → store (env o1) !! v = store (env o) !! v.
Proof.
  destruct path as [p|].
  - unfold in_world.
    destruct ((load_weights m p;;; emit (EvPrint [PStr msg])) (env o))
      as [r w] eqn:E.
    intros [= -> <-] v Hv.
    apply bind_inv in E as ([] & w1 & Hl & He).
    unfold emit, modify in He. injection He as <-. simpl.
    by apply (load_weights_store _ _ _ _ Hl).
  - by intros [= <-].
Qed.

Lemma seq_fresh (n k v : nat) : (v < n)%nat → v ∉ seq n k.
Proof. intros Hv. rewrite list_elem_of_In, in_seq. lia. Qed.

(** X2.  Every successful [__load_model] puts the instance on two networks
    whose variables were all created by this call: none existed before, no
    variable is shared between or within the networks, and the value of
    every variable that existed before the call is left as it was.  The
    networks the instance held before are neither reused nor changed. *)
Theorem load_model_fresh (o o1 : obj attrs) :
  load_model o = (Ok tt, o1) →
  ∃ g d,
    gen_model (self o1) = Some g ∧ disc_model (self o1) = Some d
    ∧ Forall (λ v, (next_var (env o) ≤ v < next_var (env o1))%nat)
             (trainable_variables g ++ trainable_variables d)
    ∧ NoDup (trainable_variables g ++ trainable_variables d)
    ∧ ∀ v, (v < next_var (env o))%nat →
           store (env o1) !! v = store (env o) !! v.
Proof.
  intros H.
  pose proof (load_model_inv o o1 H)
    as (g & d & evs & kg & kd & Hs & _ & _ & Vg & Vd & Hn & _).
  exists g, d. rewrite Hs. cbn [gen_model disc_model].
  split; [done|]. split; [done|].
  assert (Hseq : trainable_variables g ++ trainable_variables d
                 = seq (next_var (env o)) (kg + kd)).
  { by rewrite Vg, Vd, seq_app. }
  rewrite Hseq. split_and!.
  - apply Forall_forall. intros v Hv.
    apply list_elem_of_In, in_seq in Hv. lia.
  - apply NoDup_ListNoDup, seq_NoDup.
  - intros v Hv. unfold load_model in H.
    apply bind_inv in H as (g' & o2 & Hg & H).
    apply bind_inv in H as (d' & o3 & Hd & H).
    apply bind_inv in H as ([] & o4 & Hset & H).
    apply bind_inv in H as (a & o5 & Hget & H).
    apply bind_inv in H as ([] & o6 & Hr1 & Hr2).
    apply build_inv in Hg as (_ & (kg' & Vg' & Ng) & _ & _ & _ & _ & _ & Fg).
    apply build_inv in Hd as (_ & (kd' & Vd' & Nd) & _ & _ & _ & _ & _ & Fd).
    unfold set_self, modify in Hset. injection Hset as <-.
    unfold get_self in Hget. injection Hget as <- <-.
    rewrite (restore_store _ _ _ _ _ Hr2), (restore_store _ _ _ _ _ Hr1).
    + cbn [env]. rewrite Fd by lia. by apply Fg.
    + rewrite Vg'. by apply seq_fresh.
    + rewrite Vd'. apply seq_fresh. lia.
Qed.

(** X3.  When the generator's checkpoint named in the configuration does
    not exist, [__load_model] raises, but only after both attributes were
    assigned: the instance is left with two freshly initialised networks in
    place of whatever it held. *)
Theorem load_model_missing_checkpoint (o : obj attrs) p lg ld :
  generator_layers (self o) = Ok lg →
  discriminator_layers (self o) = Ok ld →
  gen_path (cfg (self o)) = Some p →
  checkpoints (env o) !! p = None →
  ∃ g d o1,
    load_model o = (Raise NotFoundError, o1)
    ∧ gen_model (self o1) = Some g ∧ disc_model (self o1) = Some d
    ∧ layers g = lg ∧ layers d = ld
    ∧ Forall (λ v, (next_var (env o) ≤ v)%nat)
             (trainable_variables g ++ trainable_variables d)
    ∧ trace (env o1) = trace (env o).
Proof.
  intros Hlg Hld Hp Hc. destruct o as [a w]. cbn [self env] in *.
  unfold load_model, generator, discriminator.
  unfold bind at 1. unfold bind at 1, get_self. cbn [fst snd self].
  unfold bind at 1, lift at 1. rewrite Hlg.
  unfold in_world at 1. rewrite new_model_eq. cbv zeta. cbn [self env].
  set (wg := init_weights lg (rng w)).
  set (w1 := World _ _ _ _ _ _ _).
  unfold bind at 1. unfold bind at 1. cbn [self].
  unfold bind at 1, lift at 1. rewrite Hld.
  unfold in_world at 1. rewrite new_model_eq. cbv zeta. cbn [self env].
  set (wd := init_weights ld (rng w1)).
  set (w2 := World _ _ _ _ _ _ _).
  unfold bind at 1, set_self, modify. cbn [self env].
  unfold bind at 1. cbn [self env cfg]. rewrite Hp.
  unfold bind at 1, in_world at 1. cbn [env].
  unfold bind at 1, load_weights, bind at 1, get.
  assert (Hc2 : checkpoints w2 !! p = None) by (subst w2 w1; exact Hc).
  rewrite Hc2. unfold raise.
  eexists _, _, _. split; [reflexivity|]. cbn.
  split; [done|]. split; [done|]. split; [done|]. split; [done|].
  split; [|done].
  apply Forall_app. split; apply Forall_forall; intros v Hv;
    apply list_elem_of_In, in_seq in Hv; lia.
Qed.

End LoadModelFresh.

Lemma load_model_fresh_witness :
  ∃ g d,
    DCGAN.gen_model (self Toy.dcgan_built) = Some g
    ∧ DCGAN.disc_model (self Toy.dcgan_built) = Some d
    ∧ Forall (λ v, (next_var (env Toy.dcgan_loaded) ≤ v
                    < next_var (env Toy.dcgan_built))%nat)
             (trainable_variables g ++ trainable_variables d)
    ∧ NoDup (trainable_variables g ++ trainable_variables d)
    ∧ ∀ v, (v < next_var (env Toy.dcgan_loaded))%nat →
           store (env Toy.dcgan_built) !! v = store (env Toy.dcgan_loaded) !! v.
Proof.
  apply (load_model_fresh (B := Toy.backend)). vm_compute. reflexivity.
Defined.

Lemma load_model_missing_checkpoint_witness :
  ∃ lg ld g d o1,
    DCGAN.generator_layers (self Toy.dcgan_restoring) = Ok lg
    ∧ DCGAN.discriminator_layers (self Toy.dcgan_restoring) = Ok ld
    ∧ DCGAN.load_model Toy.dcgan_restoring = (Raise NotFoundError, o1)
    ∧ DCGAN.gen_model (self o1) = Some g ∧ DCGAN.disc_model (self o1) = Some d
    ∧ layers g = lg ∧ layers d = ld
    ∧ Forall (λ v, (next_var (env Toy.dcgan_restoring) ≤ v)%nat)
             (trainable_variables g ++ trainable_variables d)
    ∧ trace (env o1) = trace (env Toy.dcgan_restoring).
Proof.
  destruct (DCGAN.generator_layers (self Toy.dcgan_restoring)) as [lg|e] eqn:Hg;
    [|vm_compute in Hg; discriminate].
  destruct (DCGAN.discriminator_layers (self Toy.dcgan_restoring)) as [ld|e] eqn:Hd;
    [|vm_compute in Hd; discriminate].
  destruct (load_model_missing_checkpoint (B := Toy.backend)
              Toy.dcgan_restoring "ckpt/generator" lg ld Hg Hd)
    as (g & d & o1 & H); [reflexivity | reflexivity |].
  exists lg, ld, g, d, o1. split; [reflexivity|]. split; [reflexivity|]. exact H.
Defined.

(** ** The stacks of layers of the two networks *)

Section LayerStacks.
Context `{B : Backend}.
Import DCGAN.

Lemma index_lookup {A} (l : list A) (i : nat) x :
  l !! i = Some x → index l (Z.of_nat i) = Ok x.
Proof. intros H. apply index_ok; [lia | by rewrite Nat2Z.id]. Qed.


Lemma transposed_filters_app l1 l2 :
  transposed_filters (l1 ++ l2) = transposed_filters l1 ++ transposed_filters l2.
Proof. apply omap_app. Qed.


(** The loops of [generator] in closed form: [n] blocks read the [n]
    channels from index [i] on. *)
Lemma gen_loop_eq c es : ∀ ls (i : nat),
  (i + length es ≤ length (gen_channels c))%nat →
  rfor_each es (gen_step c) (ls, Z.of_nat i)
  = Ok (ls ++ flat_map
                (λ ch, [Conv2DTranspose ch (kernel_size c) (1, 1) false None (kopts c);
                        BatchNormalization; LeakyReLU])
                (take (length es) (drop i (gen_channels c))),
        Z.of_nat (i + length es)).
Proof.
  induction es as [|e es IH]; intros ls i Hi; cbn [rfor_each length].
  - rewrite take_0, Nat.add_0_r. simpl. by rewrite app_nil_r.
  - cbn [length] in Hi.
    destruct (lookup_lt_is_Some_2 (gen_channels c) i) as [x Hx]; [lia|].
    unfold gen_step at 1, gen_block. cbn [fst snd].
    rewrite (index_lookup _ _ _ Hx). cbn [rbind].
    replace (Z.of_nat i + 1) with (Z.of_nat (S i)) by lia.
    rewrite IH by lia. rewrite (drop_S _ _ _ Hx). cbn [take flat_map].
    rewrite <- app_assoc. do 2 f_equal. lia.
Qed.

Lemma generator_layers_eq (a : attrs) H W C rest c0 ck :
  let c := cfg a in
  let k := Z.to_nat (Z.of_nat (length (gen_channels c)) / 2) in
  let block := λ ch, [Conv2DTranspose ch (kernel_size c) (1, 1) false None (kopts c);
                      BatchNormalization; LeakyReLU] in
  image_size a = Some (H :: W :: C :: rest) →
  gen_channels c !! 0%nat = Some c0 →
  gen_channels c !! k = Some ck →
  generator_layers a
  = Ok ((([Dense ((H / 4) * (W / 4) * (c0 * 2)) (Some (activation c)) (kopts c)
                (Some (cfg_noise_dim c));
          BatchNormalization; LeakyReLU;
          Reshape [H / 4; W / 4; c0 * 2]]
         ++ flat_map block (take k (gen_channels c)))
        ++ [Conv2DTranspose ck (kernel_size c) (2, 2) false None (kopts c);
            BatchNormalization; LeakyReLU]
        ++ flat_map block (take k (drop k (gen_channels c))))
       ++ [Conv2DTranspose C (kernel_size c) (2, 2) false (Some "tanh"%string) None]).
Proof.
  intros c k block Hi H0 Hk.
  pose proof (lookup_lt_Some _ _ _ Hk) as Hlt.
  assert (Hk2 : (k + k ≤ length (gen_channels c))%nat).
  { subst k. pose proof (Z.mul_div_le (Z.of_nat (length (gen_channels c))) 2).
    lia. }
  unfold generator_layers, image_dim. rewrite Hi. fold c.
  rewrite (index_lookup _ 0 H) by done.
  rewrite (index_lookup _ 1 W) by done.
  rewrite (index_lookup _ 2 C) by done.
  rewrite (index_lookup _ 0 c0) by done.
  cbn [rbind].
  assert (Hr : length (range (Z.of_nat (length (gen_channels c)) / 2)) = k)
    by (by rewrite length_range).
  rewrite (gen_loop_eq c _ _ 0) by (rewrite Hr; lia).
  cbn [rbind]. rewrite Hr, drop_0, Nat.add_0_l.
  unfold gen_block at 1. cbn [fst snd].
  rewrite (index_lookup _ _ _ Hk). cbn [rbind].
  rewrite (gen_loop_eq c _ _ k) by (rewrite Hr; lia).
  cbn [rbind fst]. rewrite Hr.
  fold block. by rewrite <- !app_assoc.
Qed.

Lemma transposed_filters_blocks (c : config) (l : list Z) :
  transposed_filters
    (flat_map (λ ch, [Conv2DTranspose ch (kernel_size c) (1, 1) false None (kopts c);
                      BatchNormalization; LeakyReLU]) l) = l.
Proof. induction l as [|x l IH]; [done|]. simpl. by rewrite IH. Qed.

Lemma length_blocks {A} (f : A → list layer) (l : list A) :
  (∀ x, length (f x) = 3%nat) → length (flat_map f l) = (3 * length l)%nat.
Proof.
  intros Hf. induction l as [|x l IH]; [done|].
  simpl. rewrite length_app, Hf, IH. lia.
Qed.

(** X4.  With the image size known and [gen_channels] not empty,
    [generator] stacks its layers without ever indexing outside
    [gen_channels], whatever the length of the list.  With
    [k = len(gen_channels) // 2], the transposed convolutions have the
    filters of the first [k] channels, then channel [k] (the upsampling
    one), then the [k] channels from index [k] on, so that channel [k] is
    used twice, and at last the number of channels of the data.  Images
    are at least 4 x 4 and the channel counts positive, as the layers
    require. *)
Theorem generator_channels_used (a : attrs) H W C rest :
  let cs := gen_channels (cfg a) in
  let k := Z.to_nat (Z.of_nat (length cs) / 2) in
  image_size a = Some (H :: W :: C :: rest) →
  4 ≤ H → 4 ≤ W → 0 < C →
  cs ≠ [] → Forall (λ c, 0 < c) cs →
  ∃ ls ck,
    generator_layers a = Ok ls
    ∧ cs !! k = Some ck
    ∧ transposed_filters ls = take k cs ++ [ck] ++ take k (drop k cs) ++ [C]
    ∧ length ls = (3 * (2 * k + 1) + 5)%nat.
Proof.
  intros cs k Hi _ _ _ Hne _.
  assert (Hlen : (0 < length cs)%nat) by (destruct cs; [done | simpl; lia]).
  assert (Hk : (k < length cs)%nat).
  { subst k. pose proof (Z.div_lt (Z.of_nat (length cs)) 2). lia. }
  assert (Hk2 : (k + k ≤ length cs)%nat).
  { subst k. pose proof (Z.mul_div_le (Z.of_nat (length cs)) 2). lia. }
  destruct (lookup_lt_is_Some_2 cs 0) as [c0 H0]; [lia|].
  destruct (lookup_lt_is_Some_2 cs k) as [ck Hck]; [lia|].
  eexists _, ck. split; [by apply (generator_layers_eq a H W C rest c0 ck)|].
  split; [done|]. split.
  - rewrite !transposed_filters_app, !transposed_filters_blocks.
    simpl. by rewrite <- app_assoc.
  - rewrite !length_app, !length_blocks by done.
    rewrite !length_take, length_drop. cbn [length].
    fold cs. fold k. clearbody k. lia.
Qed.

(** X5.  When [gen_channels] has an odd number of entries, at least three,
    the last one is never read: two configurations that differ in it alone
    give the same generator.  The default [[64, 32, 16]] builds the network
    of [[64, 32, x]] for any [x]. *)
Theorem generator_ignores_last_channel (a a' : attrs) cs x y :
  gen_channels (cfg a) = cs ++ [x] →
  gen_channels (cfg a') = cs ++ [y] →
  Nat.Even (length cs) → cs ≠ [] →
  image_size a' = image_size a →
  kernel_size (cfg a') = kernel_size (cfg a) →
  activation (cfg a') = activation (cfg a) →
  kernel_initializer (cfg a') = kernel_initializer (cfg a) →
  kernel_regularizer (cfg a') = kernel_regularizer (cfg a) →
  cfg_noise_dim (cfg a') = cfg_noise_dim (cfg a) →
  generator_layers a' = generator_layers a.
Proof.
  intros Hc Hc' [m Hm] Hne Hi Hks Hact Hki Hkr Hnd.
  assert (Hm1 : (1 ≤ m)%nat) by (destruct cs; [done | simpl in Hm; lia]).
  assert (Hk : ∀ z : Z, Z.to_nat (Z.of_nat (length (cs ++ [z])) / 2) = m).
  { intros z. rewrite length_app, Hm. cbn [length].
    replace (Z.of_nat (2 * m + 1)) with (1 + Z.of_nat m * 2) by lia.
    rewrite Z.div_add by lia. change (1 / 2) with 0. lia. }
  unfold generator_layers, image_dim. rewrite Hi.
  destruct (image_size a) as [s|]; [|done].
  destruct (index s 0) as [h|]; [|done].
  destruct (index s 1) as [w|]; [|done]. cbn [rbind].
  destruct (lookup_lt_is_Some_2 cs 0) as [c0 H0]; [lia|].
  destruct (lookup_lt_is_Some_2 cs m) as [cm Hcm]; [lia|].
  rewrite Hc, Hc'.
  rewrite !(index_lookup _ 0 c0) by (by rewrite lookup_app_l by lia).
  cbn [rbind].
  assert (Hr : ∀ z : Z,
            length (range (Z.of_nat (length (cs ++ [z])) / 2)) = m)
    by (intros z; by rewrite length_range, Hk).
  assert (Hlz : ∀ z : Z, length (cs ++ [z]) = (2 * m + 1)%nat)
    by (intros z; rewrite length_app, Hm; cbn [length]; lia).
  pose proof (gen_loop_eq (cfg a)) as La. rewrite Hc in La.
  pose proof (gen_loop_eq (cfg a')) as La'. rewrite Hc' in La'.
  rewrite (La _ _ 0%nat), (La' _ _ 0%nat) by (rewrite Hr, Hlz; lia).
  cbn [rbind]. rewrite !Hr, !drop_0, !Nat.add_0_l.
  unfold gen_block. cbn [fst snd]. rewrite Hc, Hc'.
  rewrite !(index_lookup _ m cm) by (by rewrite lookup_app_l by lia).
  cbn [rbind].
  rewrite (La _ _ m), (La' _ _ m) by (rewrite Hr, Hlz; lia).
  cbn [rbind fst]. rewrite !Hr.
  rewrite !take_app_le by lia.
  rewrite !drop_app_le by lia.
  rewrite !take_app_le by (rewrite length_drop; lia).
  unfold kopts. by rewrite Hks, Hact, Hki, Hkr, Hnd.
Qed.





(** Without channels neither network can be assembled. *)
Lemma layers_empty_channels (a : attrs) H W C rest :
  image_size a = Some (H :: W :: C :: rest) →
  (gen_channels (cfg a) = [] → generator_layers a = Raise IndexError)
  ∧ (disc_channels (cfg a) = [] → discriminator_layers a = Raise IndexError).
Proof.
  intros Hi. split; intros Hc.
  - unfold generator_layers, image_dim. rewrite Hi, Hc.
    rewrite (index_lookup _ 0 H) by done.
    rewrite (index_lookup _ 1 W) by done. done.
  - unfold discriminator_layers. rewrite Hc. done.
Qed.

End LayerStacks.

Lemma generator_channels_used_witness :
  ∃ ls ck,
    DCGAN.generator_layers (self Toy.dcgan_loaded) = Ok ls
    ∧ [64; 32; 16] !! 1%nat = Some ck
    ∧ transposed_filters ls = [64] ++ [ck] ++ [32] ++ [1]
    ∧ length ls = 14%nat.
Proof.
  apply (generator_channels_used (self Toy.dcgan_loaded)
           4 4 1 []); [reflexivity | lia | lia | lia | discriminate |].
  repeat constructor.
Defined.

Lemma generator_ignores_last_channel_witness :
  DCGAN.generator_layers
    (DCGAN.Attrs (Some [4; 4; 1]) 100 None None
       (DCGAN.Config 100 (4 / 10)%R [64; 32; 7] [16; 32; 64] (5, 5) "relu"
          "glorot_uniform" None None None))
  = DCGAN.generator_layers (self Toy.dcgan_loaded).
Proof.
  apply (generator_ignores_last_channel
           (self Toy.dcgan_loaded) _ [64; 32] 16 7);
    try reflexivity; [by exists 1%nat | discriminate].
Defined.


(** ** The files of the samples *)

Section SampleFiles.
Context `{B : Backend}.

Lemma str_inj i j : str i = str j → i = j.
Proof.
  assert (Hs : ∀ z, NilZero.int_of_string (str z) = Some (Z.to_int z)).
  { intros z. unfold str. apply NilZero.isi; destruct z; simpl; try discriminate.
    - intros [= H]. by apply Unsigned.to_uint_nonnil in H.
    - intros [= H]. by apply Unsigned.to_uint_nonnil in H. }
  intros H. apply DecimalZ.to_int_inj.
  pose proof (Hs i) as Hi. rewrite H, Hs in Hi. by injection Hi.
Qed.

Lemma length_append (s t : string) :
  String.length (s +:+ t) = (String.length s + String.length t)%nat.
Proof.
  induction s as [|a s IH]; [done|].
  change (S (String.length (s +:+ t)) = S (String.length s + String.length t)).
  by rewrite IH.
Qed.

Lemma append_inj_r (s1 s2 t : string) : s1 +:+ t = s2 +:+ t → s1 = s2.
Proof.
  revert s2. induction s1 as [|a s1 IH]; intros [|b s2] H.
  - done.
  - apply (f_equal String.length) in H.
    change (String b s2 +:+ t) with (String b (s2 +:+ t)) in H.
    change (""%string +:+ t) with t in H.
    cbn [String.length] in H. rewrite length_append in H. lia.
  - apply (f_equal String.length) in H.
    change (String a s1 +:+ t) with (String a (s1 +:+ t)) in H.
    change (""%string +:+ t) with t in H.
    cbn [String.length] in H. rewrite length_append in H. lia.
  - change (String a (s1 +:+ t) = String b (s2 +:+ t)) in H.
    injection H as -> H. by rewrite (IH _ H).
Qed.

Lemma sample_name_inj (i j : Z) :
  "sample_" +:+ str i +:+ ".jpg" = "sample_" +:+ str j +:+ ".jpg" → i = j.
Proof.
  intros H. apply String.app_inj in H. apply append_inj_r in H.
  by apply str_inj.
Qed.

Lemma path_join_relative dir name :
  starts_with_slash name = false →
  ∃ prefix, ∀ name', starts_with_slash name' = false →
    path_join dir name' = prefix +:+ name'.
Proof.
  intros _. unfold path_join.
  destruct (bool_decide (dir = ""%string) || ends_with_slash dir).
  - exists dir. by intros name' ->.
  - exists (dir +:+ "/"). intros name' ->. by rewrite append_assoc.
Qed.

(** No two samples share a file. *)
Lemma sample_file_inj dir (i j : Z) :
  path_join dir ("sample_" +:+ str i +:+ ".jpg")
  = path_join dir ("sample_" +:+ str j +:+ ".jpg") → i = j.
Proof.
  destruct (path_join_relative dir ("sample_" +:+ str i +:+ ".jpg"))
    as (prefix & Hp); [done|].
  rewrite !Hp by done. intros H. apply String.app_inj in H.
  by apply sample_name_inj.
Qed.

Lemma sample_path_inj dir (i j : nat) :
  sample_path dir i = sample_path dir j → i = j.
Proof. unfold sample_path. intros H%sample_file_inj. lia. Qed.

(** The images after one file per sample has been written. *)
Lemma imwrite_loop_images {Self} dir (l : list (Z * tensor)) : ∀ (o : obj Self),
  ∃ o', for_each l
          (λ is_ _, in_world (imwrite (path_join dir ("sample_" +:+ str is_.1 +:+ ".jpg"))
                                      is_.2))
          tt o = (Ok tt, o')
        ∧ self o' = self o ∧ store (env o') = store (env o)
        ∧ rng (env o') = rng (env o) ∧ next_var (env o') = next_var (env o)
        ∧ checkpoints (env o') = checkpoints (env o)
        ∧ paths (env o') = paths (env o)
        ∧ images (env o')
          = foldl (λ m is_, <[path_join dir ("sample_" +:+ str is_.1 +:+ ".jpg")
                              := is_.2]> m) (images (env o)) l.
Proof.
  induction l as [|[i s] l IH]; intros o.
  - exists o. simpl. done.
  - set (o1 := Obj (self o)
                 (World (store (env o)) (next_var (env o)) (rng (env o))
                    (checkpoints (env o))
                    (<[path_join dir ("sample_" +:+ str i +:+ ".jpg") := s]>
                       (images (env o)))
                    (paths (env o))
                    (trace (env o)
                     ++ [EvImwrite (path_join dir ("sample_" +:+ str i +:+ ".jpg")) s]))).
    destruct (IH o1) as (o' & Hrun & Hs & Hst & Hr & Hn & Hc & Hp & Hi).
    exists o'. cbn [for_each].
    assert (H1 : in_world (imwrite (path_join dir ("sample_" +:+ str i +:+ ".jpg")) s) o
                 = (Ok tt, o1)) by reflexivity.
    rewrite (bind_ok _ _ _ _ _ H1), Hrun.
    rewrite Hs, Hst, Hr, Hn, Hc, Hp, Hi. done.
Qed.

Lemma foldl_images_notin dir (l : list (Z * tensor)) : ∀ (m : gmap string tensor) p,
  (∀ is_, is_ ∈ l → p ≠ path_join dir ("sample_" +:+ str is_.1 +:+ ".jpg")) →
  foldl (λ m is_, <[path_join dir ("sample_" +:+ str is_.1 +:+ ".jpg") := is_.2]> m)
        m l !! p = m !! p.
Proof.
  induction l as [|[i s] l IH]; intros m p Hp; [done|].
  cbn [foldl]. rewrite IH.
  - rewrite lookup_insert_ne; [done|]. intros <-.
    by apply (Hp (i, s)); [left|].
  - intros is_ Hin. apply Hp. by right.
Qed.

Lemma foldl_images_in dir (l : list (Z * tensor)) : ∀ (m : gmap string tensor) i s,
  NoDup l.*1 → (i, s) ∈ l →
  foldl (λ m is_, <[path_join dir ("sample_" +:+ str is_.1 +:+ ".jpg") := is_.2]> m)
        m l !! path_join dir ("sample_" +:+ str i +:+ ".jpg") = Some s.
Proof.
  induction l as [|[j t] l IH]; intros m i s Hnd Hin.
  - by apply elem_of_nil in Hin.
  - cbn [foldl fst snd]. apply NoDup_cons in Hnd as [Hj Hnd].
    apply elem_of_cons in Hin as [[= -> ->]|Hin].
    + rewrite foldl_images_notin.
      * by rewrite lookup_insert_eq.
      * intros [k u] Hk Heq. cbn [fst] in Heq.
        apply sample_file_inj in Heq as <-.
        apply Hj. apply list_elem_of_fmap. by exists (j, u).
    + by apply IH.
Qed.

Lemma enumerate_fst {A} (l : list A) :
  (enumerate l).*1 = map Z.of_nat (seq 0 (length l)).
Proof.
  unfold enumerate. apply fst_zip. by rewrite length_map, length_seq.
Qed.

Lemma enumerate_NoDup {A} (l : list A) : NoDup (enumerate l).*1.
Proof.
  rewrite enumerate_fst. apply NoDup_fmap_2; [apply _|].
  apply NoDup_ListNoDup, seq_NoDup.
Qed.

Lemma enumerate_elem {A} (l : list A) (i : Z) x :
  (i, x) ∈ enumerate l → ∃ k : nat, i = Z.of_nat k ∧ l !! k = Some x.
Proof.
  intros Hin. apply list_elem_of_lookup in Hin as (k & Hk).
  unfold enumerate in Hk.
  apply lookup_zip_with_Some in Hk as (i' & x' & [= <- <-] & Hi & Hx).
  rewrite list_lookup_fmap in Hi.
  destruct (seq 0 (length l) !! k) as [k'|] eqn:E; [|discriminate].
  apply lookup_seq in E as [-> _]. injection Hi as <-. by exists k.
Qed.

(** After the loop the file of index [i] holds sample [i], and every other
    file is as it was. *)
Lemma sample_files_written {Self} dir (items : list tensor) (o : obj Self) :
  ∃ o', for_each (enumerate items)
          (λ is_ _, in_world (imwrite (path_join dir ("sample_" +:+ str is_.1 +:+ ".jpg"))
                                      is_.2))
          tt o = (Ok tt, o')
        ∧ self o' = self o ∧ store (env o') = store (env o)
        ∧ checkpoints (env o') = checkpoints (env o)
        ∧ (∀ i s, items !! i = Some s →
             images (env o') !! sample_path dir i = Some s)
        ∧ (∀ p, (∀ i, (i < length items)%nat → p ≠ sample_path dir i) →
             images (env o') !! p = images (env o) !! p).
Proof.
  destruct (imwrite_loop_images dir (enumerate items) o)
    as (o' & Hrun & Hs & Hst & _ & _ & Hc & _ & Hi).
  exists o'. split_and!; try done.
  - intros i s His. rewrite Hi. unfold sample_path.
    apply foldl_images_in; [apply enumerate_NoDup|].
    apply list_elem_of_lookup. exists i. by apply enumerate_lookup.
  - intros p Hp. rewrite Hi. apply foldl_images_notin.
    intros [i s] Hin. apply enumerate_elem in Hin as (k & -> & Hk).
    apply (Hp k). by apply lookup_lt_Some in Hk.
Qed.

End SampleFiles.

Section GeneratedFiles.
Context `{B : Backend} `{!BackendLaws B}.
Import DCGAN.

(** X7.  [generate_samples] with a directory writes the very samples the
    same call without [save_dir] returns: the file [sample_i.jpg] holds
    sample [i], no two samples share a file, every other file and every
    variable is left as it was. *)
Theorem generate_samples_files (o : obj attrs) n g H W C dir :
  gen_model (self o) = Some g →
  generator_layers (self o) = Ok (layers g) →
  image_size (self o) = Some [H; W; C] →
  0 ≤ n → 0 ≤ noise_dim (self o) →
  dir ∈ paths (env o) →
  ∃ t o0 items o',
    generate_samples n None o = (Ok (Some t), o0)
    ∧ unstack t = Ok items ∧ length items = Z.to_nat n
    ∧ generate_samples n (Some dir) o = (Ok None, o')
    ∧ (∀ i s, items !! i = Some s →
         images (env o') !! sample_path dir i = Some s)
    ∧ (∀ i j, sample_path dir i = sample_path dir j → i = j)
    ∧ (∀ p, (∀ i, (i < Z.to_nat n)%nat → p ≠ sample_path dir i) →
         images (env o') !! p = images (env o) !! p)
    ∧ store (env o') = store (env o)
    ∧ self o' = self o.
Proof.
  intros Hg Hl Hi Hn Hnd Hdir.
  set (noise := random_normal [n; noise_dim (self o)] (rng (env o))).
  set (t := call_model g (store (env o)) None noise.1).
  assert (Ht : tshape t = [n; 4 * (H / 4); 4 * (W / 4); C]).
  { subst t. unfold call_model. apply apply_layers_shape.
    subst noise. rewrite random_normal_shape.
    by apply (generator_layers_shape (self o)). }
  destruct (unstack_shape t _ _ Ht) as (items & Hu & Hlen & _).
  exists t. eexists _, items.
  rewrite (generate_samples_some o n None g Hg),
    (generate_from_model_eq o n None g Hg Hn Hnd).
  rewrite (generate_samples_some o n (Some dir) g Hg),
    (generate_from_model_eq o n (Some dir) g Hg Hn Hnd).
  cbv zeta. fold noise. fold t.
  set (o1 := Obj (self o) _).
  unfold bind at 1. unfold in_world at 1, path_exists, bind at 1, get, ret.
  cbn [env paths fst snd]. rewrite bool_decide_true by done.
  unfold bind at 1, assert, ret. unfold bind at 1, lift. rewrite Hu.
  destruct (sample_files_written dir items (Obj (self o1) (env o1)))
    as (o' & Hrun & Hs & Hst & _ & Hin & Hout).
  unfold bind at 1. rewrite Hrun. unfold ret.
  exists o'. split; [reflexivity|]. split; [done|]. split; [done|].
  split; [done|]. split; [exact Hin|]. split; [apply sample_path_inj|].
  split; [|by rewrite Hst, Hs].
  intros p Hp. rewrite Hout; [done|]. intros i Hlt. apply Hp. lia.
Qed.

End GeneratedFiles.

Lemma generate_samples_files_witness :
  ∃ t o0 items o',
    DCGAN.generate_samples 2 None Toy.dcgan_built = (Ok (Some t), o0)
    ∧ unstack t = Ok items ∧ length items = Z.to_nat 2
    ∧ DCGAN.generate_samples 2 (Some "out"%string) Toy.dcgan_built = (Ok None, o')
    ∧ (∀ i s, items !! i = Some s →
         images (env o') !! sample_path "out" i = Some s)
    ∧ (∀ i j, sample_path "out" i = sample_path "out" j → i = j)
    ∧ (∀ p, (∀ i, (i < Z.to_nat 2)%nat → p ≠ sample_path "out" i) →
         images (env o') !! p = images (env Toy.dcgan_built) !! p)
    ∧ store (env o') = store (env Toy.dcgan_built)
    ∧ self o' = self Toy.dcgan_built.
Proof.
  destruct (DCGAN.gen_model (self Toy.dcgan_built)) as [g|] eqn:Hg;
    [|vm_compute in Hg; discriminate].
  apply (generate_samples_files (B := Toy.backend) Toy.dcgan_built 2 g 4 4 1 "out").
  - exact Hg.
  - vm_compute in Hg. injection Hg as <-. vm_compute. reflexivity.
  - reflexivity.
  - lia.
  - vm_compute. discriminate.
  - vm_compute. apply (bool_decide_unpack _). vm_compute. exact I.
Defined.

(** ** Samples of the data *)

Section GetSample.
Context `{B : Backend}.
Import DCGAN.

Lemma copy_loop {A} (l : list A) : ∀ acc,
  rfor_each l (λ img acc, Ok (acc ++ [img])) acc = Ok (acc ++ l).
Proof.
  induction l as [|x l IH]; intros acc; cbn [rfor_each rbind].
  - by rewrite app_nil_r.
  - by rewrite IH, <- app_assoc.
Qed.

(** The rows of a batch that holds as many values as its shape says. *)
Lemma unstack_rows b m rest :
  tshape b = m :: rest → 0 ≤ m → well_formed b →
  ∃ rows, unstack b = Ok rows ∧ length rows = Z.to_nat m
          ∧ Forall (λ s, tshape s = rest
                         ∧ length (tdata s) = Z.to_nat (numel rest)) rows.
Proof.
  intros Hs Hm Hw. unfold unstack. rewrite Hs. eexists. split; [reflexivity|].
  split; [by rewrite length_map, length_seq|].
  apply Forall_forall. intros s Hin.
  apply list_elem_of_In, in_map_iff in Hin as (i & <- & Hi).
  apply in_seq in Hi. cbn [tshape tdata]. split; [done|].
  unfold well_formed in Hw. rewrite Hs in Hw. cbn [numel fold_right] in Hw.
  fold (numel rest) in Hw.
  rewrite length_take, length_drop, Hw.
  destruct (Z_lt_le_dec (numel rest) 0) as [Hneg|Hpos].
  - replace (Z.to_nat (numel rest)) with 0%nat by lia. lia.
  - rewrite Z2Nat.inj_mul by lia. nia.
Qed.

Lemma unbatch_loop rest ds : ∀ acc,
  Forall (λ b, ∃ m, tshape b = m :: rest ∧ 0 ≤ m ∧ well_formed b) ds →
  Forall (λ s, tshape s = rest ∧ length (tdata s) = Z.to_nat (numel rest)) acc →
  ∃ all, rfor_each ds (λ b acc, rows <~ unstack b ;; Ok (acc ++ rows)) acc = Ok all
         ∧ length all = (length acc + Z.to_nat (sum_rows ds))%nat
         ∧ Forall (λ s, tshape s = rest
                        ∧ length (tdata s) = Z.to_nat (numel rest)) all.
Proof.
  induction ds as [|b ds IH]; intros acc Hds Hacc.
  - exists acc. cbn. split; [done|]. split; [lia | done].
  - inversion Hds as [|? ? (m & Hs & Hm & Hw) Hds']; subst.
    destruct (unstack_rows b m rest Hs Hm Hw) as (rows & Hu & Hlen & Hrows).
    destruct (IH (acc ++ rows) Hds') as (all & Hrun & Hl & Hall).
    { by apply Forall_app. }
    exists all. cbn [rfor_each]. rewrite Hu. cbn [rbind]. rewrite Hrun.
    split; [done|]. split; [|done].
    rewrite Hl, length_app, Hlen. cbn [sum_rows foldr]. rewrite Hs. cbn [hd].
    fold (sum_rows ds).
    assert (0 ≤ sum_rows ds).
    { clear -Hds'. induction Hds' as [|x l (k & Hk & ? & _) _ IHl]; [done|].
      cbn [sum_rows foldr]. rewrite Hk. cbn [hd]. fold (sum_rows l). lia. }
    lia.
Qed.

Lemma np_array_uniform rest (l : list tensor) x :
  Forall (λ s, tshape s = rest) (x :: l) →
  np_array (x :: l)
  = Ok (Tensor (Z.of_nat (length (x :: l)) :: rest) (concat (map tdata (x :: l)))).
Proof.
  intros Hall. unfold np_array.
  replace (forallb _ (x :: l)) with true.
  - inversion Hall; subst. done.
  - symmetry. apply forallb_forall. intros s Hs.
    apply bool_decide_eq_true_2. rewrite Forall_forall in Hall.
    rewrite (Hall s), (Hall x); [done | by left | by apply list_elem_of_In].
Qed.

(** Iterating over a stacked array gives back the arrays that were
    stacked. *)
Lemma rows_of_concat rest k (l : list tensor) :
  Forall (λ s, tshape s = rest ∧ length (tdata s) = k) l →
  map (λ i, Tensor rest (take k (drop (i * k) (concat (map tdata l)))))
      (seq 0 (length l)) = l.
Proof.
  induction 1 as [|[sh d] l [Hs Hd] _ IH]; [done|].
  cbn [tshape tdata] in Hs, Hd. subst sh.
  cbn [length seq map concat tdata]. f_equal.
  - change (drop (0 * k) ?x) with x. by rewrite take_app_length'.
  - rewrite <- seq_shift, map_map. rewrite <- IH at 2.
    apply map_ext. intros i. do 2 f_equal.
    replace (S i * k)%nat with (length d + i * k)%nat by lia.
    apply drop_app_add.
Qed.

Lemma unstack_np_array rest (l : list tensor) :
  l ≠ [] →
  Forall (λ s, tshape s = rest ∧ length (tdata s) = Z.to_nat (numel rest)) l →
  ∃ t, np_array l = Ok t ∧ tshape t = Z.of_nat (length l) :: rest
       ∧ unstack t = Ok l.
Proof.
  intros Hne Hall. destruct l as [|x l]; [done|].
  eexists. split.
  - apply (np_array_uniform rest). eapply Forall_impl; [exact Hall|].
    by intros s [? _].
  - split; [done|]. unfold unstack. cbn [tshape tdata].
    rewrite Nat2Z.id. f_equal. by apply rows_of_concat.
Qed.

Lemma unbatch_spec rest ds :
  Forall (λ b, ∃ m, tshape b = m :: rest ∧ 0 ≤ m ∧ well_formed b) ds →
  ∃ all, unbatch ds = Ok all
         ∧ length all = Z.to_nat (sum_rows ds)
         ∧ Forall (λ s, tshape s = rest
                        ∧ length (tdata s) = Z.to_nat (numel rest)) all.
Proof.
  intros Hds. destruct (unbatch_loop rest ds [] Hds) as (all & H & Hl & Hall);
    [done|]. exists all. by split.
Qed.

Lemma ds_take_Forall {A} (P : A → Prop) n l :
  Forall P l → Forall P (ds_take n l).
Proof.
  intros H. unfold ds_take. destruct (n <? 0); [done|]. by apply Forall_take.
Qed.

(** X8.  On batches of well-formed examples of one shape, [get_sample]
    without [save_dir] needs neither the image size nor the networks and
    changes nothing.  It returns the first [n_samples] examples of
    [data.unbatch()], in order: fewer when the data hold fewer, all of them
    when [n_samples] is negative.  Iterating over the result gives these
    examples back; when there is none the result has shape [(0,)]. *)
Theorem get_sample_returns_first_examples (o : obj attrs) ds n rest :
  Forall (λ b, ∃ m, tshape b = m :: rest ∧ 0 ≤ m ∧ well_formed b) ds →
  ∃ all t,
    unbatch ds = Ok all
    ∧ length all = Z.to_nat (sum_rows ds)
    ∧ get_sample (Some ds) n None o = (Ok (Some t), o)
    ∧ (ds_take n all = [] → t = Tensor [0] [])
    ∧ (ds_take n all ≠ [] →
       tshape t = Z.of_nat (length (ds_take n all)) :: rest
       ∧ unstack t = Ok (ds_take n all))
    ∧ (0 ≤ n → length (ds_take n all) = Nat.min (Z.to_nat n) (length all)).
Proof.
  intros Hds. destruct (unbatch_spec rest ds Hds) as (all & Hu & Hl & Hall).
  pose proof (ds_take_Forall _ n all Hall) as Htake.
  assert (Hlen : 0 ≤ n → length (ds_take n all) = Nat.min (Z.to_nat n) (length all)).
  { intros Hn. unfold ds_take.
    destruct (n <? 0) eqn:En; [apply Z.ltb_lt in En; lia|]. apply length_take. }
  exists all.
  assert (Hget : ∀ t, np_array (ds_take n all) = Ok t →
                      get_sample (Some ds) n None o = (Ok (Some t), o)).
  { intros t Hnp. unfold get_sample, bind, lift.
    rewrite Hu, copy_loop. cbn [app]. by rewrite Hnp. }
  destruct (ds_take n all) as [|x l] eqn:E.
  - exists (Tensor [0] []). split_and!; try done. by apply Hget.
  - destruct (unstack_np_array rest (x :: l)) as (t & Hnp & Hsh & Hun);
      [done | done |].
    exists t. split_and!; try done. by apply Hget.
Qed.

(** X9.  With a directory that exists, [get_sample] writes example [i] of
    the data to [sample_i.jpg], the file [generate_samples] uses for its
    sample [i]; every other file, the variables and the attributes are
    left as they were.  When the directory does not exist the assertion
    fails and nothing was written. *)
Theorem get_sample_files (o : obj attrs) ds n rest dir :
  Forall (λ b, ∃ m, tshape b = m :: rest ∧ 0 ≤ m ∧ well_formed b) ds →
  ∃ all,
    unbatch ds = Ok all
    ∧ (dir ∈ paths (env o) →
       ∃ o', get_sample (Some ds) n (Some dir) o = (Ok None, o')
         ∧ (∀ i s, ds_take n all !! i = Some s →
              images (env o') !! sample_path dir i = Some s)
         ∧ (∀ p, (∀ i, (i < length (ds_take n all))%nat → p ≠ sample_path dir i) →
              images (env o') !! p = images (env o) !! p)
         ∧ store (env o') = store (env o) ∧ self o' = self o)
    ∧ (dir ∉ paths (env o) →
       get_sample (Some ds) n (Some dir) o
       = (Raise (AssertionError "Directory does not exist"), o)).
Proof.
  intros Hds. destruct (unbatch_spec rest ds Hds) as (all & Hu & Hl & Hall).
  pose proof (ds_take_Forall _ n all Hall) as Htake.
  exists all. split; [done|].
  assert (Hnp : ∃ t, np_array (ds_take n all) = Ok t
                     ∧ unstack t = Ok (ds_take n all)).
  { destruct (ds_take n all) as [|x l] eqn:E.
    - exists (Tensor [0] []). done.
    - destruct (unstack_np_array rest (x :: l)) as (t & Hnp & _ & Hun);
        [done | done |]. by exists t. }
  destruct Hnp as (t & Hnp & Hun).
  split.
  - intros Hdir.
    destruct (sample_files_written dir (ds_take n all) o)
      as (o' & Hrun & Hs & Hst & _ & Hin & Hout).
    exists o'. split; [|done].
    unfold get_sample. unfold bind at 1, lift at 1. rewrite Hu.
    unfold bind at 1, lift at 1. rewrite copy_loop. cbn [app].
    unfold bind at 1, lift at 1. rewrite Hnp.
    unfold bind at 1. unfold in_world at 1, path_exists, bind at 1, get, ret.
    rewrite bool_decide_true by done.
    unfold bind at 1, assert, ret. unfold bind at 1, lift. rewrite Hun.
    unfold bind at 1.
    replace (Obj (self o) (env o)) with o by (by destruct o).
    by rewrite Hrun.
  - intros Hdir.
    unfold get_sample. unfold bind at 1, lift at 1. rewrite Hu.
    unfold bind at 1, lift at 1. rewrite copy_loop. cbn [app].
    unfold bind at 1, lift at 1. rewrite Hnp.
    unfold bind at 1. unfold in_world at 1, path_exists, bind at 1, get, ret.
    rewrite bool_decide_false by done.
    unfold bind at 1, assert, raise. by destruct o.
Qed.

End GetSample.

Lemma get_sample_returns_first_examples_witness :
  ∃ all t,
    unbatch [Toy.batch; Toy.batch] = Ok all
    ∧ length all = Z.to_nat (sum_rows [Toy.batch; Toy.batch])
    ∧ DCGAN.get_sample (Some [Toy.batch; Toy.batch]) 3 None Toy.dcgan0
      = (Ok (Some t), Toy.dcgan0)
    ∧ (ds_take 3 all = [] → t = Tensor [0] [])
    ∧ (ds_take 3 all ≠ [] →
       tshape t = Z.of_nat (length (ds_take 3 all)) :: [4; 4; 1]
       ∧ unstack t = Ok (ds_take 3 all))
    ∧ (0 ≤ 3 → length (ds_take 3 all) = Nat.min (Z.to_nat 3) (length all)).
Proof.
  apply (get_sample_returns_first_examples (B := Toy.backend)).
  repeat constructor; exists 2; (split; [reflexivity|]); (split; [lia|]);
    vm_compute; reflexivity.
Defined.

Lemma get_sample_files_witness :
  ∃ all,
    unbatch [Toy.batch] = Ok all
    ∧ ("out"%string ∈ paths (env Toy.dcgan0) →
       ∃ o', DCGAN.get_sample (Some [Toy.batch]) 1 (Some "out"%string) Toy.dcgan0
             = (Ok None, o')
         ∧ (∀ i s, ds_take 1 all !! i = Some s →
              images (env o') !! sample_path "out" i = Some s)
         ∧ (∀ p, (∀ i, (i < length (ds_take 1 all))%nat →
                       p ≠ sample_path "out" i) →
              images (env o') !! p = images (env Toy.dcgan0) !! p)
         ∧ store (env o') = store (env Toy.dcgan0)
         ∧ self o' = self Toy.dcgan0)
    ∧ ("out"%string ∉ paths (env Toy.dcgan0) →
       DCGAN.get_sample (Some [Toy.batch]) 1 (Some "out"%string) Toy.dcgan0
       = (Raise (AssertionError "Directory does not exist"), Toy.dcgan0)).
Proof.
  apply (get_sample_files (B := Toy.backend) Toy.dcgan0 [Toy.batch] 1 [4; 4; 1]).
  repeat constructor; exists 2; (split; [reflexivity|]); (split; [lia|]);
    vm_compute; reflexivity.
Defined.

(** ** [fit] at its edges *)

Section FitEdges.
Context `{B : Backend}.
Import DCGAN.

Lemma batches_of_is_batch s ds :
  batches_of s ds → Forall (λ d, is_batch d = true) ds.
Proof.
  intros H. eapply Forall_impl; [exact H|].
  intros d (b & Hs & Hb). unfold is_batch. rewrite Hs. by apply Z.leb_le.
Qed.

(** X10.  What is passed as [save_model] is looked at only after the
    loops: with a value that is neither [None] nor a string, [fit] first
    makes every optimizer step of every epoch and then raises the
    assertion error, and no checkpoint has been written.  The data are
    batches of images of the recorded size, whose height and width are
    multiples of four, so that real and generated images have one shape. *)
Theorem fit_checks_save_model_late (o : obj attrs) train_ds epochs gopt dopt
    verbose glr dlr beta tb save H W C :
  is_ok (load_model o).1 = true →
  is_Some (make_optimizer gopt (optimizer_kwargs gopt glr beta)) →
  is_Some (make_optimizer dopt (optimizer_kwargs dopt dlr beta)) →
  image_size (self o) = Some [H; W; C] → H mod 4 = 0 → W mod 4 = 0 →
  batches_of [H; W; C] train_ds →
  0 ≤ noise_dim (self o) →
  save ≠ VNone → (∀ s, save ≠ VStr s) →
  ∃ o' new,
    fit (Some train_ds) epochs gopt dopt verbose glr dlr beta tb save o
    = (Raise (AssertionError "Not a valid directory"), o')
    ∧ trace (env o') = trace (env o) ++ new
    ∧ updates new
      = concat (replicate (Z.to_nat epochs * length train_ds)
                          [Discriminator; Generator])
    ∧ saves new = []
    ∧ checkpoints (env o') = checkpoints (env o).
Proof.
  intros Hload Hg Hd _ _ _ Hds%batches_of_is_batch Hnd Hnone Hstr.
  destruct (training_spec o train_ds epochs gopt dopt verbose glr dlr beta tb
              Hload Hg Hd Hds Hnd)
    as (l & o1 & o2 & pre & evs & Hl & Htr & Tpre & Upre & Vpre & E & U & V).
  pose proof (load_model_inv o o1 Hl)
    as (_ & _ & _ & _ & _ & _ & _ & _ & _ & _ & _ & _ & _ & _ & Hc & _).
  destruct E as (_ & T & _ & Ck & _).
  exists o2, (pre ++ evs). split.
  - unfold fit. rewrite (bind_ok _ _ _ _ _ Htr).
    destruct save as [| | |s| |]; try done. by destruct (Hstr s).
  - rewrite T, Tpre, <- app_assoc, updates_app, saves_app, Upre, Vpre, U, V, Ck, Hc.
    done.
Qed.

(** X11.  The names of the optimizers are looked up after [__load_model]
    has run: with a name [tf.keras.optimizers] does not have, [fit] raises
    [AttributeError] and leaves the instance in the state [__load_model]
    produced, on newly initialised networks, without a single step. *)
Theorem fit_unknown_optimizer (o o1 : obj attrs) train_ds epochs gopt dopt
    verbose glr dlr beta tb save :
  load_model o = (Ok tt, o1) →
  make_optimizer gopt (optimizer_kwargs gopt glr beta) = None
  ∨ make_optimizer dopt (optimizer_kwargs dopt dlr beta) = None →
  fit (Some train_ds) epochs gopt dopt verbose glr dlr beta tb save o
  = (Raise AttributeError, o1).
Proof.
  intros Hl Hopt. unfold fit, training.
  unfold bind at 1. unfold bind at 1. rewrite Hl.
  unfold bind at 1, build_optimizer at 1.
  destruct (make_optimizer gopt _) as [og|] eqn:Eg; [|done].
  unfold ret. unfold bind at 1, build_optimizer at 1.
  destruct Hopt as [?|Hd]; [done|]. by rewrite Hd.
Qed.

(** An epoch over no batch only resets the two means and reports them. *)
Lemma train_epoch_no_data verbose tb epoch l (o : obj attrs) :
  ∃ o' evs,
    train_epoch [] verbose tb epoch l o
    = (Ok (Locals (gen_optimizer l) (disc_optimizer l) (steps l)
                  (MkMean 0 0) (MkMean 0 0)), o')
    ∧ extends o o' evs ∧ store (env o') = store (env o)
    ∧ Forall (λ e, ∃ k, e = EvPrint [PStr "Epoch:"; PInt k; PStr "D_loss:";
                                     PReal 0; PStr "G_loss"; PReal 0]) evs.
Proof.
  unfold train_epoch. cbn [for_each]. unfold bind at 1, ret at 1.
  destruct (verbose =? 1).
  - eexists _, [_]. split; [reflexivity|]. split; [by repeat split|].
    split; [done|]. repeat constructor. by eexists.
  - exists o, []. split; [reflexivity|]. split; [apply extends_refl|]. done.
Qed.

Lemma idle_epochs ds verbose tb es : ∀ l (o : obj attrs),
  ds = [] ∨ es = [] →
  count (generator_loss l) = 0%nat → count (discriminator_loss l) = 0%nat →
  ∃ l' o' evs,
    for_each es (train_epoch ds verbose tb) l o = (Ok l', o')
    ∧ extends o o' evs ∧ store (env o') = store (env o)
    ∧ Forall (λ e, ∃ k, e = EvPrint [PStr "Epoch:"; PInt k; PStr "D_loss:";
                                     PReal 0; PStr "G_loss"; PReal 0]) evs
    ∧ count (generator_loss l') = 0%nat ∧ count (discriminator_loss l') = 0%nat
    ∧ steps l' = steps l.
Proof.
  induction es as [|e es IH]; intros l o Hidle Cg Cd.
  - exists l, o, []. split; [done|]. split; [apply extends_refl|]. done.
  - destruct Hidle as [->|?]; [|done].
    destruct (train_epoch_no_data verbose tb e l o) as (o1 & e1 & H1 & E1 & S1 & P1).
    destruct (IH (Locals (gen_optimizer l) (disc_optimizer l) (steps l)
                         (MkMean 0 0) (MkMean 0 0)) o1)
      as (l2 & o2 & e2 & H2 & E2 & S2 & P2 & C1 & C2 & St); [by left | done | done |].
    exists l2, o2, (e1 ++ e2). cbn [for_each].
    rewrite (bind_ok _ _ _ _ _ H1), H2.
    split; [done|]. split; [by eapply extends_trans|].
    split; [by rewrite S2|]. split; [by apply Forall_app|]. done.
Qed.

Lemma prints_no_updates evs :
  Forall (λ e, ∃ k, e = EvPrint [PStr "Epoch:"; PInt k; PStr "D_loss:";
                                  PReal 0; PStr "G_loss"; PReal 0]) evs →
  updates evs = [] ∧ gradient_losses evs = [] ∧ saves evs = [].
Proof.
  induction 1 as [|e evs (k & ->) _ IH]; [done|]. exact IH.
Qed.

(** X12.  [fit] on data without batches, or with [epochs] not positive,
    is not an error.  The networks are built anew and no gradient is
    taken and no step made; all that is reported is, for each epoch of
    an empty dataset when [verbose] is 1, the two means as 0; and a
    requested checkpoint holds the weights as they were initialised. *)
Theorem fit_without_steps (o o1 : obj attrs) train_ds epochs gopt dopt
    verbose glr dlr beta tb :
  train_ds = [] ∨ epochs ≤ 0 →
  load_model o = (Ok tt, o1) →
  is_Some (make_optimizer gopt (optimizer_kwargs gopt glr beta)) →
  is_Some (make_optimizer dopt (optimizer_kwargs dopt dlr beta)) →
  ∃ l o2 evs g d,
    training train_ds epochs gopt dopt verbose glr dlr beta tb o = (Ok l, o2)
    ∧ extends o1 o2 evs ∧ store (env o2) = store (env o1)
    ∧ updates evs = [] ∧ gradient_losses evs = []
    ∧ Forall (λ e, ∃ k, e = EvPrint [PStr "Epoch:"; PInt k; PStr "D_loss:";
                                     PReal 0; PStr "G_loss"; PReal 0]) evs
    ∧ gen_model (self o2) = Some g ∧ disc_model (self o2) = Some d
    ∧ ∀ dir, dir ≠ ""%string →
        ∃ o3,
          fit (Some train_ds) epochs gopt dopt verbose glr dlr beta tb
              (VStr dir) o = (Ok tt, o3)
          ∧ checkpoints (env o3) !! checkpoint_path dir "generator_checkpoint"
            = Some (read_vars (store (env o1)) (trainable_variables g))
          ∧ checkpoints (env o3) !! checkpoint_path dir "discriminator_checkpoint"
            = Some (read_vars (store (env o1)) (trainable_variables d)).
Proof.
  intros Hidle Hl Hg Hd.
  destruct (build_optimizer_ok gopt glr beta o1 Hg) as (og & Hog).
  destruct (build_optimizer_ok dopt dlr beta o1 Hd) as (od & Hod).
  destruct (idle_epochs train_ds verbose tb (range epochs)
              (Locals og od 0 Mean_new Mean_new) o1)
    as (l & o2 & evs & Hloop & E & S & P & _); [| done | done |].
  { destruct Hidle as [?|He]; [by left|]. right.
    unfold range. by replace (Z.to_nat epochs) with 0%nat by lia. }
  pose proof (load_model_inv o o1 Hl)
    as (g & d & pre & kg & kd & Hs & _).
  destruct (prints_no_updates evs P) as (U & G & V).
  assert (Htr : training train_ds epochs gopt dopt verbose glr dlr beta tb o
                = (Ok l, o2)).
  { unfold training.
    by rewrite (bind_ok _ _ _ _ _ Hl), (bind_ok _ _ _ _ _ Hog),
      (bind_ok _ _ _ _ _ Hod). }
  assert (Hg2 : gen_model (self o2) = Some g)
    by (destruct E as (-> & _); by rewrite Hs).
  assert (Hd2 : disc_model (self o2) = Some d)
    by (destruct E as (-> & _); by rewrite Hs).
  exists l, o2, evs, g, d. split_and!; try done.
  intros dir Hne. eexists. split.
  - unfold fit. rewrite (bind_ok _ _ _ _ _ Htr).
    apply (dcgan_save_ok o2 dir g d Hg2 Hd2 Hne).
  - cbv zeta. cbn [env checkpoints]. rewrite S. split.
    + rewrite lookup_insert_ne, lookup_insert_eq; [done|].
      intros Heq. by apply checkpoint_path_inj in Heq.
    + by rewrite lookup_insert_eq.
Qed.

End FitEdges.

Lemma fit_checks_save_model_late_witness :
  ∃ o' new,
    DCGAN.fit (Some [Toy.batch; Toy.batch]) 3 "Adam" "SGD" 1
              (1 / 10000) (2 / 10000) (1 / 2) true (VInt 7) Toy.dcgan_loaded
    = (Raise (AssertionError "Not a valid directory"), o')
    ∧ trace (env o') = trace (env Toy.dcgan_loaded) ++ new
    ∧ updates new
      = concat (replicate (Z.to_nat 3 * 2) [Discriminator; Generator])
    ∧ saves new = []
    ∧ checkpoints (env o') = checkpoints (env Toy.dcgan_loaded).
Proof.
  apply (fit_checks_save_model_late (B := Toy.backend) Toy.dcgan_loaded
           [Toy.batch; Toy.batch] 3 "Adam" "SGD" 1 (1 / 10000) (2 / 10000)
           (1 / 2) true (VInt 7) 4 4 1).
  - vm_compute. reflexivity.
  - vm_compute. eauto.
  - vm_compute. eauto.
  - reflexivity.
  - reflexivity.
  - reflexivity.
  - repeat constructor; exists 2; (split; [reflexivity | lia]).
  - vm_compute. discriminate.
  - discriminate.
  - discriminate.
Defined.

Lemma fit_unknown_optimizer_witness :
  DCGAN.fit (Some [Toy.batch]) 1 "Adam" "Adamm" 1
            (1 / 10000) (2 / 10000) (1 / 2) false VNone Toy.dcgan_loaded
  = (Raise AttributeError, Toy.dcgan_built).
Proof.
  apply (fit_unknown_optimizer (B := Toy.backend)).
  - vm_compute. reflexivity.
  - right. vm_compute. reflexivity.
Defined.

Lemma fit_without_steps_witness :
  ∃ l o2 evs g d,
    DCGAN.training [] 3 "Adam" "Adam" 1 (1 / 10000) (2 / 10000) (1 / 2) false
                   Toy.dcgan_loaded = (Ok l, o2)
    ∧ extends Toy.dcgan_built o2 evs
    ∧ store (env o2) = store (env Toy.dcgan_built)
    ∧ updates evs = [] ∧ gradient_losses evs = []
    ∧ Forall (λ e, ∃ k, e = EvPrint [PStr "Epoch:"; PInt k; PStr "D_loss:";
                                     PReal 0; PStr "G_loss"; PReal 0]) evs
    ∧ DCGAN.gen_model (self o2) = Some g ∧ DCGAN.disc_model (self o2) = Some d
    ∧ ∀ dir, dir ≠ ""%string →
        ∃ o3,
          DCGAN.fit (Some []) 3 "Adam" "Adam" 1 (1 / 10000) (2 / 10000) (1 / 2)
                    false (VStr dir) Toy.dcgan_loaded = (Ok tt, o3)
          ∧ checkpoints (env o3) !! checkpoint_path dir "generator_checkpoint"
            = Some (read_vars (store (env Toy.dcgan_built)) (trainable_variables g))
          ∧ checkpoints (env o3) !! checkpoint_path dir "discriminator_checkpoint"
            = Some (read_vars (store (env Toy.dcgan_built)) (trainable_variables d)).
Proof.
  apply (fit_without_steps (B := Toy.backend)).
  - by left.
  - vm_compute. reflexivity.
  - vm_compute. eauto.
  - vm_compute. eauto.
Defined.

(** ** The step counter of the summaries *)

Section Summaries.
Context `{B : Backend}.
Import DCGAN.

Lemma scalar_steps_app t1 t2 :
  scalar_steps (t1 ++ t2) = scalar_steps t1 ++ scalar_steps t2.
Proof. unfold scalar_steps. apply omap_app. Qed.

Lemma train_step_steps (o : obj attrs) tb data l :
  trainable o → is_batch data = true →
  ∃ l' o' evs, train_step tb data l o = (Ok l', o')
    ∧ extends o o' evs
    ∧ steps l' = steps l + 1
    ∧ scalar_steps evs
      = if tb then [("discr_loss"%string, steps l + 1);
                    ("genr_loss"%string, steps l + 1)] else [].
Proof.
  intros Ht Hb.
  destruct (phase_D_extends o data (disc_optimizer l) Ht Hb)
    as (dl & o1 & vd & HD & E1).
  pose proof (trainable_extends _ _ _ E1 Ht) as Ht1.
  destruct (phase_G_extends o1 data (gen_optimizer l) Ht1 Hb)
    as (gl & o2 & vg & HG & E2).
  unfold train_step.
  rewrite (bind_ok _ _ _ _ _ HD), (bind_ok _ _ _ _ _ HG).
  pose proof (extends_trans _ _ _ _ _ E1 E2) as E12.
  set (l' := Locals gl.2 dl.2 (steps l + 1)
                     (Mean_update (generator_loss l) gl.1)
                     (Mean_update (discriminator_loss l) dl.1)).
  destruct tb.
  - exists l', (Obj (self o2)
                 (World (store (env o2)) (next_var (env o2)) (rng (env o2))
                    (checkpoints (env o2)) (images (env o2)) (paths (env o2))
                    ((trace (env o2) ++ [EvScalar "discr_loss" dl.1 (steps l')])
                     ++ [EvScalar "genr_loss" gl.1 (steps l')]))),
           (([EvGradient dl.1 vd; EvApplyGradients Discriminator vd]
             ++ [EvGradient gl.1 vg; EvApplyGradients Generator vg])
            ++ [EvScalar "discr_loss" dl.1 (steps l');
                EvScalar "genr_loss" gl.1 (steps l')]).
    split; [reflexivity|]. split; [|done].
    eapply extends_trans; [exact E12|].
    unfold extends; simpl. rewrite <- app_assoc. by repeat split.
  - exists l', o2, ([EvGradient dl.1 vd; EvApplyGradients Discriminator vd]
                    ++ [EvGradient gl.1 vg; EvApplyGradients Generator vg]).
    split; [reflexivity|]. split; [exact E12|]. done.
Qed.

Lemma epoch_loop_steps tb ds : ∀ l (o : obj attrs) (s : nat),
  trainable o → Forall (λ d, is_batch d = true) ds →
  steps l = Z.of_nat s →
  ∃ l' o' evs, for_each ds (train_step tb) l o = (Ok l', o')
    ∧ extends o o' evs
    ∧ steps l' = Z.of_nat (s + length ds)
    ∧ scalar_steps evs
      = if tb then flat_map (λ i, [("discr_loss"%string, Z.of_nat i);
                                   ("genr_loss"%string, Z.of_nat i)])
                            (seq (S s) (length ds))
        else [].
Proof.
  induction ds as [|data ds IH]; intros l o s Ht Hds Hs.
  - exists l, o, []. cbn [for_each length seq flat_map].
    rewrite Nat.add_0_r. split; [done|]. split; [apply extends_refl|].
    split; [done|]. by destruct tb.
  - inversion Hds as [|? ? Hb Hds']; subst.
    destruct (train_step_steps o tb data l Ht Hb)
      as (l1 & o1 & e1 & Hstep & E1 & S1 & P1).
    destruct (IH l1 o1 (S s) (trainable_extends _ _ _ E1 Ht) Hds')
      as (l2 & o2 & e2 & Hrest & E2 & S2 & P2); [lia|].
    exists l2, o2, (e1 ++ e2). cbn [for_each].
    rewrite (bind_ok _ _ _ _ _ Hstep), Hrest.
    split; [done|]. split; [by eapply extends_trans|].
    split; [rewrite S2; cbn [length]; f_equal; lia|].
    rewrite scalar_steps_app, P1, P2. destruct tb; [|done].
    cbn [length seq flat_map app]. rewrite Hs.
    by replace (Z.of_nat s + 1) with (Z.of_nat (S s)) by lia.
Qed.

Lemma train_epoch_steps ds verbose tb epoch l (o : obj attrs) (s : nat) :
  trainable o → Forall (λ d, is_batch d = true) ds →
  steps l = Z.of_nat s →
  ∃ l' o' evs, train_epoch ds verbose tb epoch l o = (Ok l', o')
    ∧ extends o o' evs
    ∧ steps l' = Z.of_nat (s + length ds)
    ∧ scalar_steps evs
      = if tb then flat_map (λ i, [("discr_loss"%string, Z.of_nat i);
                                   ("genr_loss"%string, Z.of_nat i)])
                            (seq (S s) (length ds))
        else [].
Proof.
  intros Ht Hds Hs. unfold train_epoch.
  destruct (epoch_loop_steps tb ds
              (Locals (gen_optimizer l) (disc_optimizer l) (steps l)
                      (reset_states (generator_loss l))
                      (reset_states (discriminator_loss l))) o s Ht Hds Hs)
    as (l1 & o1 & e1 & Hloop & E1 & S1 & P1).
  rewrite (bind_ok _ _ _ _ _ Hloop).
  destruct (verbose =? 1).
  - eexists l1, _, (e1 ++ [EvPrint _]). split; [reflexivity|].
    split; [|by rewrite scalar_steps_app, P1; simpl; rewrite app_nil_r].
    eapply extends_trans; [exact E1|]. unfold extends; simpl. by repeat split.
  - exists l1, o1, e1. auto 10.
Qed.

Lemma epochs_steps ds verbose tb es : ∀ l (o : obj attrs) (s : nat),
  trainable o → Forall (λ d, is_batch d = true) ds →
  steps l = Z.of_nat s →
  ∃ l' o' evs, for_each es (train_epoch ds verbose tb) l o = (Ok l', o')
    ∧ extends o o' evs
    ∧ steps l' = Z.of_nat (s + length es * length ds)
    ∧ scalar_steps evs
      = if tb then flat_map (λ i, [("discr_loss"%string, Z.of_nat i);
                                   ("genr_loss"%string, Z.of_nat i)])
                            (seq (S s) (length es * length ds))
        else [].
Proof.
  induction es as [|e es IH]; intros l o s Ht Hds Hs.
  - exists l, o, []. cbn [for_each length Nat.mul seq flat_map].
    rewrite Nat.add_0_r. split; [done|]. split; [apply extends_refl|].
    split; [done|]. by destruct tb.
  - destruct (train_epoch_steps ds verbose tb e l o s Ht Hds Hs)
      as (l1 & o1 & e1 & Hep & E1 & S1 & P1).
    destruct (IH l1 o1 (s + length ds)%nat (trainable_extends _ _ _ E1 Ht) Hds S1)
      as (l2 & o2 & e2 & Hrest & E2 & S2 & P2).
    exists l2, o2, (e1 ++ e2). cbn [for_each].
    rewrite (bind_ok _ _ _ _ _ Hep), Hrest.
    split; [done|]. split; [by eapply extends_trans|].
    split; [rewrite S2; cbn [length]; f_equal; lia|].
    rewrite scalar_steps_app, P1, P2. destruct tb; [|done].
    cbn [length Nat.mul]. rewrite seq_app, flat_map_app.
    by replace (S s + length ds)%nat with (S (s + length ds)) by lia.
Qed.

(** X13.  With [tensorboard] set, each training step writes its two
    losses under one step number, and the numbers run from 1 to
    [epochs * len(train_ds)]: the counter is not reset between epochs.
    Without it the counter still runs and nothing is written.  The data
    are batches of images of the recorded size, whose height and width
    are multiples of four. *)
Theorem tensorboard_step_numbers (o o1 : obj attrs) train_ds epochs gopt dopt
    verbose glr dlr beta tb H W C :
  load_model o = (Ok tt, o1) →
  is_Some (make_optimizer gopt (optimizer_kwargs gopt glr beta)) →
  is_Some (make_optimizer dopt (optimizer_kwargs dopt dlr beta)) →
  image_size (self o) = Some [H; W; C] → H mod 4 = 0 → W mod 4 = 0 →
  batches_of [H; W; C] train_ds →
  0 ≤ noise_dim (self o) →
  ∃ l o2 evs,
    training train_ds epochs gopt dopt verbose glr dlr beta tb o = (Ok l, o2)
    ∧ trace (env o2) = trace (env o1) ++ evs
    ∧ steps l = Z.of_nat (Z.to_nat epochs * length train_ds)
    ∧ scalar_steps evs
      = if tb then flat_map (λ i, [("discr_loss"%string, Z.of_nat i);
                                   ("genr_loss"%string, Z.of_nat i)])
                            (seq 1 (Z.to_nat epochs * length train_ds))
        else [].
Proof.
  intros Hl Hg Hd _ _ _ Hds%batches_of_is_batch Hnd.
  pose proof (load_model_inv o o1 Hl)
    as (g & d & pre & kg & kd & Hs & _).
  assert (Htr : trainable o1).
  { exists g, d. rewrite Hs. simpl. done. }
  destruct (build_optimizer_ok gopt glr beta o1 Hg) as (og & Hog).
  destruct (build_optimizer_ok dopt dlr beta o1 Hd) as (od & Hod).
  destruct (epochs_steps train_ds verbose tb (range epochs)
              (Locals og od 0 Mean_new Mean_new) o1 0 Htr Hds eq_refl)
    as (l & o2 & evs & Hloop & E & S & P).
  exists l, o2, evs. unfold training.
  rewrite (bind_ok _ _ _ _ _ Hl), (bind_ok _ _ _ _ _ Hog),
    (bind_ok _ _ _ _ _ Hod), Hloop.
  rewrite length_range in S, P. destruct E as (_ & T & _). done.
Qed.

End Summaries.

Lemma tensorboard_step_numbers_witness :
  ∃ l o2 evs,
    DCGAN.training [Toy.batch; Toy.batch] 2 "Adam" "SGD" 1
                   (1 / 10000) (2 / 10000) (1 / 2) true Toy.dcgan_loaded
    = (Ok l, o2)
    ∧ trace (env o2) = trace (env Toy.dcgan_built) ++ evs
    ∧ DCGAN.steps l = Z.of_nat (Z.to_nat 2 * 2)
    ∧ scalar_steps evs
      = flat_map (λ i, [("discr_loss"%string, Z.of_nat i);
                        ("genr_loss"%string, Z.of_nat i)])
                 (seq 1 (Z.to_nat 2 * 2)).
Proof.
  apply (tensorboard_step_numbers (B := Toy.backend) Toy.dcgan_loaded
           Toy.dcgan_built [Toy.batch; Toy.batch] 2 "Adam" "SGD" 1
           (1 / 10000) (2 / 10000) (1 / 2) true 4 4 1).
  - vm_compute. reflexivity.
  - vm_compute. eauto.
  - vm_compute. eauto.
  - reflexivity.
  - reflexivity.
  - reflexivity.
  - repeat constructor; exists 2; (split; [reflexivity | lia]).
  - vm_compute. discriminate.
Defined.

(** ** What is logged does not change what is learned *)

Section Logging.
Context `{B : Backend}.

Lemma le_bind {Self A C} (m m' : M (obj Self) A) (k k' : A → M (obj Self) C) :
  log_equivalent m m' → (∀ a, log_equivalent (k a) (k' a)) →
  log_equivalent (bind m k) (bind m' k').
Proof.
  intros Hm Hk o tr. destruct (Hm o tr) as (tr1 & E1).
  unfold bind. rewrite E1. destruct (m o) as [[a|e] o1]; cbn [fst snd].
  - apply Hk.
  - by exists tr1.
Qed.

Lemma le_ret {Self A} (a : A) : log_equivalent (Self := Self) (ret a) (ret a).
Proof. intros o tr. by exists tr. Qed.

Lemma le_lift {Self A} (r : result A) :
  log_equivalent (Self := Self) (lift r) (lift r).
Proof. intros o tr. by exists tr. Qed.

Lemma le_raise {Self A} e :
  log_equivalent (Self := Self) (A := A) (raise e) (raise e).
Proof. intros o tr. by exists tr. Qed.

Lemma le_get_self {Self} : log_equivalent (Self := Self) get_self get_self.
Proof. intros o tr. by exists tr. Qed.

Lemma le_set_self {Self} (f : Self → Self) :
  log_equivalent (set_self f) (set_self f).
Proof. intros o tr. by exists tr. Qed.

Lemma le_in_world {Self A} (c c' : M world A) :
  log_equivalent_w c c' →
  log_equivalent (Self := Self) (in_world c) (in_world c').
Proof.
  intros Hc o tr. destruct (Hc (env o) tr) as (tr' & E).
  exists tr'. unfold in_world. cbn [with_trace env self]. rewrite E.
  by destruct (c (env o)).
Qed.

(** Reading the world is harmless when the continuation does not look at
    the record. *)
Lemma le_get_world {Self A} (k k' : world → M (obj Self) A) :
  (∀ w, log_equivalent (k w) (k' w)) →
  (∀ w tr, k' (set_trace w tr) = k' w) →
  log_equivalent (bind (in_world get) k) (bind (in_world get) k').
Proof.
  intros Hk Hw [a w] tr. unfold bind, in_world, get.
  cbn [with_trace env self fst snd]. rewrite Hw. apply (Hk w (Obj a w) tr).
Qed.

Lemma le_for_each {Self A L} (body body' : A → L → M (obj Self) L) l :
  (∀ x acc, log_equivalent (body x acc) (body' x acc)) →
  ∀ acc, log_equivalent (for_each l body acc) (for_each l body' acc).
Proof.
  intros Hb. induction l as [|x l IH]; intros acc; cbn [for_each].
  - apply le_ret.
  - apply le_bind; [apply Hb | apply IH].
Qed.

(** Optional logging: whether it happens or not is not seen. *)
Lemma le_optional {Self} (c c' : bool) (m m' : M world unit) :
  (∀ w, ∃ evs, m w = (Ok tt, set_trace w (trace w ++ evs))) →
  (∀ w, ∃ evs, m' w = (Ok tt, set_trace w (trace w ++ evs))) →
  log_equivalent (Self := Self)
    (if c then in_world m else ret tt) (if c' then in_world m' else ret tt).
Proof.
  intros Hm Hm' [a w] tr.
  destruct (Hm w) as (e1 & E1). destruct (Hm' (set_trace w tr)) as (e2 & E2).
  destruct c, c'; unfold in_world, ret; cbn [with_trace env self];
    rewrite ?E1, ?E2; cbn [fst snd]; eexists; reflexivity.
Qed.

Lemma emit_logs e w : ∃ evs, emit e w = (Ok tt, set_trace w (trace w ++ evs)).
Proof. by exists [e]. Qed.

Lemma emit2_logs e1 e2 w :
  ∃ evs, (emit e1 ;;; emit e2) w = (Ok tt, set_trace w (trace w ++ evs)).
Proof.
  exists [e1; e2]. unfold bind, emit, modify, set_trace. cbn.
  by rewrite <- app_assoc.
Qed.

Lemma lw_random_normal s : log_equivalent_w (tf_random_normal s) (tf_random_normal s).
Proof.
  intros [] tr. unfold tf_random_normal. cbn.
  destruct (forallb _ s); [|by exists tr].
  destruct (random_normal s _). by exists tr.
Qed.

Lemma lw_tape_gradient loss vs :
  log_equivalent_w (tape_gradient loss vs) (tape_gradient loss vs).
Proof. intros [] tr. eexists. reflexivity. Qed.

Lemma lw_apply_gradients who opt gv :
  log_equivalent_w (apply_gradients who opt gv) (apply_gradients who opt gv).
Proof. intros [] tr. eexists. reflexivity. Qed.

Lemma lw_new_model ls : log_equivalent_w (new_model ls) (new_model ls).
Proof.
  intros [] tr. rewrite !new_model_eq. cbn. by exists tr.
Qed.

Lemma lw_restore m p msg :
  log_equivalent_w (load_weights m p ;;; emit (EvPrint [PStr msg]))
                   (load_weights m p ;;; emit (EvPrint [PStr msg])).
Proof.
  intros [] tr. unfold load_weights, bind, get. cbn.
  destruct (_ !! p); [|by exists tr].
  case_bool_decide; [|by exists tr]. eexists. reflexivity.
Qed.

Lemma lw_save_variables vs p :
  log_equivalent_w (save_variables vs p) (save_variables vs p).
Proof. intros [] tr. eexists. reflexivity. Qed.

End Logging.

Ltac log_step :=
  first
    [ apply le_ret | apply le_lift | apply le_raise | apply le_get_self
    | apply le_set_self
    | apply le_in_world;
      first [ apply lw_random_normal | apply lw_tape_gradient
            | apply lw_apply_gradients | apply lw_new_model
            | apply lw_restore | apply lw_save_variables ]
    | apply le_optional; intros ?; first [apply emit_logs | apply emit2_logs]
    | apply le_get_world; [intros ? | by intros [] ?]
    | apply le_bind; [|intros ?] ].

Section LoggingDCGAN.
Context `{B : Backend}.
Import DCGAN.

Lemma le_load_model : log_equivalent load_model load_model.
Proof.
  unfold load_model, generator, discriminator.
  repeat log_step.
  - destruct (gen_path _); repeat log_step.
  - destruct (disc_path _); repeat log_step.
Qed.

Lemma le_train_step tb tb' data l :
  log_equivalent (train_step tb data l) (train_step tb' data l).
Proof.
  unfold train_step, phase_D, phase_G. repeat log_step.
Qed.

Lemma le_train_epoch ds verbose verbose' tb tb' epoch l :
  log_equivalent (train_epoch ds verbose tb epoch l)
                 (train_epoch ds verbose' tb' epoch l).
Proof.
  unfold train_epoch.
  apply le_bind; [apply le_for_each; intros; apply le_train_step|].
  intros l1. repeat log_step.
Qed.

Lemma le_save_checkpoints save :
  log_equivalent (save_checkpoints save) (save_checkpoints save).
Proof.
  unfold save_checkpoints, save_weights.
  destruct save; repeat log_step.
  destruct (bool_decide _); repeat log_step.
Qed.

(** X14.  Neither [verbose] nor [tensorboard] has any influence on what
    [fit] does to the instance: for every input, with either setting of
    the two, [fit] ends in the same way (the same return or the same
    exception) and leaves the same networks, the same values of all
    variables, the same state of the random generator and the same
    checkpoints. *)
Theorem fit_logging_flags_irrelevant (o : obj attrs) train_ds epochs gopt dopt
    glr dlr beta save verbose verbose' tb tb' :
  (fit train_ds epochs gopt dopt verbose glr dlr beta tb save o).1
  = (fit train_ds epochs gopt dopt verbose' glr dlr beta tb' save o).1
  ∧ same_but_trace
      (fit train_ds epochs gopt dopt verbose glr dlr beta tb save o).2
      (fit train_ds epochs gopt dopt verbose' glr dlr beta tb' save o).2.
Proof.
  assert (H : log_equivalent
                (fit train_ds epochs gopt dopt verbose glr dlr beta tb save)
                (fit train_ds epochs gopt dopt verbose' glr dlr beta tb' save)).
  { unfold fit. destruct train_ds as [ds|]; [|apply le_raise].
    apply le_bind; [|intros; apply le_save_checkpoints].
    unfold training. apply le_bind; [apply le_load_model|]. intros _.
    unfold build_optimizer.
    apply le_bind; [destruct (make_optimizer gopt _); log_step|]. intros og.
    apply le_bind; [destruct (make_optimizer dopt _); log_step|]. intros od.
    apply le_for_each. intros. apply le_train_epoch. }
  destruct (H o (trace (env o))) as (tr' & E).
  replace (with_trace o (trace (env o))) with o in E by (by destruct o as [? []]).
  rewrite E. cbn [fst snd]. split; [done|]. by repeat split.
Qed.

End LoggingDCGAN.

Section LoggingVAE.
Context `{B : Backend}.
Import VAE.

Lemma lw_draw_epsilon m training x :
  log_equivalent_w (draw_epsilon m training x) (draw_epsilon m training x).
Proof.
  intros [] tr. unfold draw_epsilon, bind, get, lift. cbn.
  destruct (index _ 0); [|by exists tr].
  destruct (index _ 1); [|by exists tr].
  apply (lw_random_normal _ (World _ _ _ _ _ _ _)).
Qed.

Lemma le_vae_load_model : log_equivalent load_model load_model.
Proof. unfold load_model, vae. repeat log_step. Qed.

Lemma le_vae_train_step tb tb' data l :
  log_equivalent (train_step tb data l) (train_step tb' data l).
Proof.
  unfold train_step. repeat log_step.
  apply le_in_world, lw_draw_epsilon.
Qed.

Lemma le_vae_train_epoch ds verbose verbose' tb tb' epoch l :
  log_equivalent (train_epoch ds verbose tb epoch l)
                 (train_epoch ds verbose' tb' epoch l).
Proof.
  unfold train_epoch.
  apply le_bind; [apply le_for_each; intros; apply le_vae_train_step|].
  intros l1. repeat log_step.
Qed.

Lemma le_vae_save_checkpoint save :
  log_equivalent (save_checkpoint save) (save_checkpoint save).
Proof.
  unfold save_checkpoint.
  destruct save; repeat log_step.
  destruct (bool_decide _); repeat log_step.
Qed.

(** X15.  The same for the autoencoder: [verbose] and [tensorboard] change
    neither how [fit] ends nor the model, the values of its variables,
    the state of the random generator or the checkpoint it leaves. *)
Theorem vae_fit_logging_flags_irrelevant (o : obj attrs) train_ds epochs opt
    lr save verbose verbose' tb tb' :
  (fit train_ds epochs opt verbose lr tb save o).1
  = (fit train_ds epochs opt verbose' lr tb' save o).1
  ∧ same_but_trace (fit train_ds epochs opt verbose lr tb save o).2
                   (fit train_ds epochs opt verbose' lr tb' save o).2.
Proof.
  assert (H : log_equivalent (fit train_ds epochs opt verbose lr tb save)
                             (fit train_ds epochs opt verbose' lr tb' save)).
  { unfold fit. destruct train_ds as [ds|]; [|apply le_raise].
    apply le_bind; [|intros; apply le_vae_save_checkpoint].
    unfold training. apply le_bind; [apply le_vae_load_model|]. intros _.
    apply le_bind; [destruct (make_optimizer opt _); log_step|]. intros op.
    apply le_for_each. intros. apply le_vae_train_epoch. }
  destruct (H o (trace (env o))) as (tr' & E).
  replace (with_trace o (trace (env o))) with o in E by (by destruct o as [? []]).
  rewrite E. cbn [fst snd]. split; [done|]. by repeat split.
Qed.

End LoggingVAE.

(** ** Partial configurations of the convolutional autoencoder *)

Section ConvAEDefaults.
Context `{B : Backend}.
Import ConvolutionalAutoencoder.

Lemma param_default params key d :
  default_params !! key = Some d →
  param (params ∪ default_params) key d = param params key d.
Proof.
  intros Hd. unfold param. rewrite lookup_union, Hd.
  by destruct (params !! key).
Qed.

Lemma encoder_layers_defaults a params :
  encoder_layers_of a (params ∪ default_params) = encoder_layers_of a params.
Proof.
  unfold encoder_layers_of.
  rewrite (param_default params "enc_channels") by reflexivity.
  rewrite (param_default params "encoder_layers") by reflexivity.
  rewrite (param_default params "interm_dim") by reflexivity.
  rewrite (param_default params "activation") by reflexivity.
  rewrite (param_default params "kernel_initializer") by reflexivity.
  rewrite (param_default params "kernel_regularizer") by reflexivity.
  rewrite (param_default params "kernel_size") by reflexivity.
  reflexivity.
Qed.

Lemma decoder_layers_defaults a params :
  decoder_layers_of a (params ∪ default_params) = decoder_layers_of a params.
Proof.
  unfold decoder_layers_of.
  rewrite (param_default params "dec_channels") by reflexivity.
  rewrite (param_default params "decoder_layers") by reflexivity.
  rewrite (param_default params "interm_dim") by reflexivity.
  rewrite (param_default params "activation") by reflexivity.
  rewrite (param_default params "kernel_initializer") by reflexivity.
  rewrite (param_default params "kernel_regularizer") by reflexivity.
  rewrite (param_default params "kernel_size") by reflexivity.
  reflexivity.
Qed.

(** X16.  A key that is missing from [params] is no error: [encoder] and
    [decoder] fall back, key by key, on the values of the default argument
    of [build_model].  Building from a partial dictionary is building from
    that dictionary completed with the defaults; in particular the empty
    dictionary builds the default model. *)
Theorem build_model_fills_defaults params (o : obj attrs) :
  build_model params o = build_model (params ∪ default_params) o
  ∧ build_model ∅ o = build_model default_params o.
Proof.
  assert (H : ∀ p, build_model p o = build_model (p ∪ default_params) o).
  { intros p. unfold build_model, encoder, decoder, bind, get_self, lift.
    cbn [fst snd]. rewrite encoder_layers_defaults.
    destruct (encoder_layers_of (self o) p) as [le|e]; [|done].
    destruct (in_world (new_model le) o) as [[me|e] o1]; [|done].
    cbn [set_self modify]. by rewrite decoder_layers_defaults. }
  split; [apply H|]. rewrite (H ∅). by rewrite (left_id ∅ (∪)).
Qed.

End ConvAEDefaults.

(** ** The model of the variational autoencoder *)

Section VAEStacks.
Context `{B : Backend}.
Import VAE.

Lemma dense_loop_eq c units (n : nat) : ∀ (i : nat) acc,
  (i + n ≤ length units)%nat →
  rfor_each (map Z.of_nat (seq i n))
    (λ i acc, u <~ index units i ;; Ok (acc ++ [dense c u])) acc
  = Ok (acc ++ map (dense c) (take n (drop i units))).
Proof.
  induction n as [|n IH]; intros i acc Hi; cbn [seq map rfor_each].
  - rewrite take_0. simpl. by rewrite app_nil_r.
  - destruct (lookup_lt_is_Some_2 units i) as [x Hx]; [lia|].
    rewrite (index_lookup _ _ _ Hx). cbn [rbind].
    rewrite IH by lia. rewrite (drop_S _ _ _ Hx). cbn [take map].
    by rewrite <- app_assoc.
Qed.

Lemma dense_loop_all c units acc :
  rfor_each (range (Z.of_nat (length units)))
    (λ i acc, u <~ index units i ;; Ok (acc ++ [dense c u])) acc
  = Ok (acc ++ map (dense c) units).
Proof.
  unfold range. rewrite Nat2Z.id, (dense_loop_eq c units _ 0) by (simpl; lia).
  by rewrite drop_0, firstn_all.
Qed.

Lemma dense_units_app l1 l2 :
  dense_units (l1 ++ l2) = dense_units l1 ++ dense_units l2.
Proof. apply omap_app. Qed.

Lemma dense_units_map c (l : list Z) : dense_units (map (dense c) l) = l.
Proof. induction l as [|x l IH]; [done|]. simpl. by rewrite IH. Qed.

(** X17.  With the image size known and both lists of units not empty,
    [vae] assembles its two stacks whatever the lengths of the lists.  The
    encoder has dense layers of twice the first entry of [enc_units], of
    every entry in order, and of [interm_dim] units; the decoder of half
    the first entry of [dec_units], of every entry in order, and of as
    many units as an image has values.  The sizes are positive and the
    units of the decoder at least 2, so that every layer has a positive
    number of units. *)
Theorem vae_layers_total (a : attrs) (c : config) H W C rest :
  image_size a = Some (H :: W :: C :: rest) →
  0 < H → 0 < W → 0 < C → 0 < interm_dim c →
  enc_units c ≠ [] → dec_units c ≠ [] →
  Forall (λ u, 0 < u) (enc_units c) → Forall (λ u, 2 ≤ u) (dec_units c) →
  ∃ le ld u0 d0,
    encoder_layers_of a c = Ok le ∧ decoder_layers_of a c = Ok ld
    ∧ head (enc_units c) = Some u0 ∧ head (dec_units c) = Some d0
    ∧ dense_units le = [u0 * 2] ++ enc_units c ++ [interm_dim c]
    ∧ dense_units ld = [d0 / 2] ++ dec_units c ++ [H * W * C].
Proof.
  intros Hi _ _ _ _ He Hd _ _.
  destruct (enc_units c) as [|u0 us] eqn:Eu; [done|].
  destruct (dec_units c) as [|d0 ds] eqn:Ed; [done|].
  eexists _, _, u0, d0.
  split; [|split; [|split; [done|split; [done|]]]].
  - unfold encoder_layers_of, image_dim. rewrite Hi, Eu.
    rewrite (index_lookup _ 0 H) by done.
    rewrite (index_lookup _ 1 W) by done.
    rewrite (index_lookup _ 2 C) by done.
    rewrite (index_lookup _ 0 u0) by done. cbn [rbind].
    rewrite dense_loop_all. cbn [rbind]. reflexivity.
  - unfold decoder_layers_of, image_dim. rewrite Hi, Ed.
    rewrite (index_lookup _ 0 d0) by done. cbn [rbind].
    rewrite dense_loop_all. cbn [rbind].
    rewrite (index_lookup _ 0 H) by done.
    rewrite (index_lookup _ 1 W) by done.
    rewrite (index_lookup _ 2 C) by done. cbn [rbind]. reflexivity.
  - split.
    + rewrite !dense_units_app, dense_units_map. done.
    + rewrite !dense_units_app, dense_units_map. done.
Qed.

Lemma new_model_fresh {Self} ls (o : obj Self) m o' :
  in_world (new_model ls) o = (Ok m, o') →
  ∃ k, trainable_variables m = seq (next_var (env o)) k
       ∧ next_var (env o') = (next_var (env o) + k)%nat
       ∧ ∀ v, (v < next_var (env o))%nat →
              store (env o') !! v = store (env o) !! v.
Proof.
  unfold in_world. rewrite new_model_eq. cbv zeta. intros [= <- <-].
  eexists. split; [reflexivity|]. split; [reflexivity|].
  intros v Hv. cbn [env store]. apply assign_all_frame. by apply seq_fresh.
Qed.

(** X18.  [__load_model] of the autoencoder puts the instance on a model
    all of whose variables were created by this call: none existed before,
    none is shared between the trunk, the two heads and the decoder, and
    every variable that existed before keeps its value.  A model trained
    earlier is replaced, not continued. *)
Theorem vae_load_model_fresh (o o1 : obj attrs) :
  load_model o = (Ok tt, o1) →
  ∃ m,
    model_ (self o1) = Some m
    ∧ Forall (λ v, (next_var (env o) ≤ v < next_var (env o1))%nat)
             (vae_trainable_variables m)
    ∧ NoDup (vae_trainable_variables m)
    ∧ ∀ v, (v < next_var (env o))%nat →
           store (env o1) !! v = store (env o) !! v.
Proof.
  unfold load_model. intros H.
  apply bind_inv in H as (a & o2 & Ha & H). injection Ha as <- <-.
  apply bind_inv in H as (m & o2 & Hv & H).
  unfold set_self, modify in H. injection H as <-.
  unfold vae in Hv.
  apply bind_inv in Hv as (a & o3 & Ha & Hv). injection Ha as <- <-.
  apply bind_inv in Hv as (enc & o3 & He & Hv).
  unfold lift in He. injection He as He <-.
  apply bind_inv in Hv as (t & o3 & Ht & Hv).
  apply new_model_fresh in Ht as (kt & Vt & Nt & Ft).
  apply bind_inv in Hv as (zm & o4 & Hzm & Hv).
  apply new_model_fresh in Hzm as (km & Vm & Nm & Fm).
  apply bind_inv in Hv as (zv & o5 & Hzv & Hv).
  apply new_model_fresh in Hzv as (kv & Vv & Nv & Fv).
  apply bind_inv in Hv as (dec & o6 & Hd & Hv).
  unfold lift in Hd. injection Hd as Hd <-.
  apply bind_inv in Hv as (d & o6 & Hdm & Hv).
  apply new_model_fresh in Hdm as (kd & Vd & Nd & Fd).
  injection Hv as <- <-.
  exists (VaeModel t zm zv d [kl_loss]). cbn [self env model_].
  split; [done|].
  assert (Hseq : vae_trainable_variables (VaeModel t zm zv d [kl_loss])
                 = seq (next_var (env o)) (kt + (km + (kv + kd)))).
  { unfold vae_trainable_variables. cbn [trunk mean_head var_head decoder].
    by rewrite Vt, Vm, Vv, Vd, Nv, Nm, Nt, !seq_app. }
  rewrite Hseq. split_and!.
  - apply Forall_forall. intros v Hin.
    apply list_elem_of_In, in_seq in Hin. lia.
  - apply NoDup_ListNoDup, seq_NoDup.
  - intros v Hlt. rewrite Fd, Fv, Fm, Ft by lia. done.
Qed.

(** X19.  [generate_samples] of the autoencoder never builds the model.
    On an instance without model it raises [TypeError] at the first batch
    and changes nothing; only for data without batches does it return,
    and then an array of no image, of shape [[0; h; w; c]]. *)
Theorem vae_generate_samples_needs_model (o : obj attrs) :
  model_ (self o) = None →
  (∀ x test_ds save_dir,
     generate_samples (Some (x :: test_ds)) save_dir o = (Raise TypeError, o))
  ∧ (∀ h w c, image_size (self o) = Some [h; w; c] → h * w * c ≠ 0 →
       generate_samples (Some []) None o = (Ok (Some (Tensor [0; h; w; c] [])), o)).
Proof.
  intros Hm. split.
  - intros x ds sd. unfold generate_samples, enumerate.
    cbn [length seq map zip zip_with for_each].
    unfold bind at 1. unfold bind at 1. unfold generate_step at 1.
    unfold bind at 1, get_self. cbn [fst snd]. rewrite Hm.
    unfold bind at 1, lift, callable_vae. done.
  - intros h w c Hi Hne. unfold generate_samples, enumerate.
    cbn [length seq map zip zip_with for_each].
    unfold bind at 1, ret at 1. unfold bind at 1, get_self. cbn [fst snd].
    unfold image_dim. rewrite Hi.
    change (index [h; w; c] 0) with (Ok h).
    change (index [h; w; c] 1) with (Ok w).
    change (index [h; w; c] 2) with (Ok c).
    unfold bind at 1, lift at 1. unfold bind at 1, lift at 1.
    unfold bind at 1, lift at 1.
    unfold reshape_rows. cbn [tshape numel fold_right tdata].
    replace (h * (w * (c * 1)) =? 0) with false
      by (symmetry; apply Z.eqb_neq; lia).
    cbn [orb negb]. rewrite Z.mul_0_l, Zmod_0_l, Zdiv_0_l. cbn.
    unfold bind, lift, ret. done.
Qed.

End VAEStacks.

Lemma vae_layers_total_witness :
  ∃ le ld u0 d0,
    VAE.encoder_layers_of (self Toy.vae_loaded) VAE.default_config = Ok le
    ∧ VAE.decoder_layers_of (self Toy.vae_loaded) VAE.default_config = Ok ld
    ∧ head [256; 128] = Some u0 ∧ head [128; 256] = Some d0
    ∧ dense_units le = [u0 * 2] ++ [256; 128] ++ [256]
    ∧ dense_units ld = [d0 / 2] ++ [128; 256] ++ [1 * 1 * 1].
Proof.
  apply (vae_layers_total (self Toy.vae_loaded) VAE.default_config 1 1 1 []);
    [reflexivity | lia | lia | lia | reflexivity | discriminate | discriminate
    | repeat constructor | repeat constructor; discriminate].
Defined.

Lemma vae_load_model_fresh_witness :
  ∃ m,
    VAE.model_ (self Toy.vae_built) = Some m
    ∧ Forall (λ v, (next_var (env Toy.vae_loaded) ≤ v
                    < next_var (env Toy.vae_built))%nat)
             (VAE.vae_trainable_variables m)
    ∧ NoDup (VAE.vae_trainable_variables m)
    ∧ ∀ v, (v < next_var (env Toy.vae_loaded))%nat →
           store (env Toy.vae_built) !! v = store (env Toy.vae_loaded) !! v.
Proof.
  apply (vae_load_model_fresh (B := Toy.backend)). vm_compute. reflexivity.
Defined.

Lemma vae_generate_samples_needs_model_witness :
  (∀ x test_ds save_dir,
     VAE.generate_samples (Some (x :: test_ds)) save_dir Toy.vae_loaded
     = (Raise TypeError, Toy.vae_loaded))
  ∧ (∀ h w c, VAE.image_size (self Toy.vae_loaded) = Some [h; w; c] →
       h * w * c ≠ 0 →
       VAE.generate_samples (Some []) None Toy.vae_loaded
       = (Ok (Some (Tensor [0; h; w; c] [])), Toy.vae_loaded)).
Proof.
  apply (vae_generate_samples_needs_model (B := Toy.backend)). reflexivity.
Defined.

(** ** The optimizer steps of the autoencoder *)

Section VAEProtocol.
Context `{B : Backend} `{!BackendLaws B}.
Import VAE.

Lemma update_targets_app t1 t2 :
  update_targets (t1 ++ t2) = update_targets t1 ++ update_targets t2.
Proof. unfold update_targets. apply omap_app. Qed.

(** One step on a batch of flattened examples succeeds. *)
Lemma vae_train_step_spec (o : obj attrs) tb data l m b d :
  model_ (self o) = Some m → built_from_config (self o) m →
  0 ≤ latent_dim (cfg (self o)) → tshape data = [b; d] → 0 ≤ b →
  ∃ l' o' evs,
    train_step tb data l o = (Ok l', o')
    ∧ extends o o' evs
    ∧ updates evs = [Autoencoder]
    ∧ update_targets evs = [vae_trainable_variables m]
    ∧ saves evs = [].
Proof.
  intros Hm Hb Hlat Hx Hb0. destruct o as [a w]. cbn [self env] in *.
  unfold train_step, bind at 1, get_self. cbn [fst snd self].
  rewrite Hm. unfold bind at 1, lift at 1, callable_vae.
  unfold bind at 1, in_world at 1, draw_epsilon.
  unfold bind at 1, get. cbn [env fst snd].
  rewrite (encode_shape a m (store w) None data b _ Hb Hx).
  change (index [b; latent_dim (cfg a)] 0) with (Ok b).
  change (index [b; latent_dim (cfg a)] 1) with (Ok (latent_dim (cfg a))).
  unfold bind at 1, lift at 1. unfold bind at 1, lift at 1.
  unfold tf_random_normal. cbn [forallb].
  assert (Hc : (0 <=? b) && ((0 <=? latent_dim (cfg a)) && true) = true)
    by (rewrite andb_true_r, andb_true_iff; split; apply Z.leb_le; lia).
  rewrite Hc.
  destruct (random_normal [b; latent_dim (cfg a)] (rng w)) as [eps r].
  cbn [env store next_var rng checkpoints images paths trace].
  unfold bind at 1, in_world at 1, get. cbn [env store fst snd].
  unfold bind at 1, in_world at 1. rewrite tape_gradient_eq.
  cbn [env store next_var rng checkpoints images paths trace self].
  unfold bind at 1, in_world at 1. rewrite apply_gradients_eq.
  cbn [env store next_var rng checkpoints images paths trace self].
  rewrite snd_zip_map.
  destruct tb.
  - unfold bind at 1, in_world, emit, modify.
    cbn [env store next_var rng checkpoints images paths trace self].
    unfold ret. eexists _, _, [_; _; _]. split; [reflexivity|].
    split.
    + unfold extends.
      cbn [env store next_var rng checkpoints images paths trace self].
      rewrite <- !app_assoc. by repeat split.
    + done.
  - unfold bind at 1, ret.
    eexists _, _, [_; _]. split; [reflexivity|].
    split.
    + unfold extends.
      cbn [env store next_var rng checkpoints images paths trace self].
      rewrite <- !app_assoc. by repeat split.
    + done.
Qed.

Lemma vae_epoch_loop_spec tb m ds : ∀ l (o : obj attrs),
  model_ (self o) = Some m → built_from_config (self o) m →
  0 ≤ latent_dim (cfg (self o)) →
  Forall (λ x, ∃ b d, tshape x = [b; d] ∧ 0 ≤ b) ds →
  ∃ l' o' evs,
    for_each ds (train_step tb) l o = (Ok l', o')
    ∧ extends o o' evs
    ∧ updates evs = replicate (length ds) Autoencoder
    ∧ update_targets evs = replicate (length ds) (vae_trainable_variables m)
    ∧ saves evs = [].
Proof.
  induction ds as [|x ds IH]; intros l o Hm Hb Hlat Hds.
  - exists l, o, []. split; [done|]. split; [apply extends_refl | done].
  - inversion Hds as [|? ? (b & d & Hx & Hb0) Hds']; subst.
    destruct (vae_train_step_spec o tb x l m b d Hm Hb Hlat Hx Hb0)
      as (l1 & o1 & e1 & Hstep & E1 & U1 & T1 & V1).
    pose proof E1 as (S1 & _).
    destruct (IH l1 o1) as (l2 & o2 & e2 & Hrest & E2 & U2 & T2 & V2);
      [by rewrite S1 | by rewrite S1 | by rewrite S1 | done |].
    exists l2, o2, (e1 ++ e2). cbn [for_each].
    rewrite (bind_ok _ _ _ _ _ Hstep), Hrest.
    split; [done|]. split; [by eapply extends_trans|].
    by rewrite updates_app, update_targets_app, saves_app, U1, U2, T1, T2, V1, V2.
Qed.

Lemma vae_train_epoch_spec ds verbose tb m epoch l (o : obj attrs) :
  model_ (self o) = Some m → built_from_config (self o) m →
  0 ≤ latent_dim (cfg (self o)) →
  Forall (λ x, ∃ b d, tshape x = [b; d] ∧ 0 ≤ b) ds →
  ∃ l' o' evs,
    train_epoch ds verbose tb epoch l o = (Ok l', o')
    ∧ extends o o' evs
    ∧ updates evs = replicate (length ds) Autoencoder
    ∧ update_targets evs = replicate (length ds) (vae_trainable_variables m)
    ∧ saves evs = [].
Proof.
  intros Hm Hb Hlat Hds. unfold train_epoch.
  destruct (vae_epoch_loop_spec tb m ds
              (Locals (optimizer_ l) (steps l) (reset_states (train_loss l)))
              o Hm Hb Hlat Hds)
    as (l1 & o1 & e1 & Hloop & E1 & U1 & T1 & V1).
  rewrite (bind_ok _ _ _ _ _ Hloop).
  destruct (verbose =? 1).
  - eexists l1, _, (e1 ++ [EvPrint _]). split; [reflexivity|].
    split.
    + eapply extends_trans; [exact E1|]. unfold extends; simpl. by repeat split.
    + rewrite updates_app, update_targets_app, saves_app, U1, T1, V1.
      simpl. by rewrite !app_nil_r.
  - exists l1, o1, e1. auto 10.
Qed.

Lemma vae_epochs_spec ds verbose tb m es : ∀ l (o : obj attrs),
  model_ (self o) = Some m → built_from_config (self o) m →
  0 ≤ latent_dim (cfg (self o)) →
  Forall (λ x, ∃ b d, tshape x = [b; d] ∧ 0 ≤ b) ds →
  ∃ l' o' evs,
    for_each es (train_epoch ds verbose tb) l o = (Ok l', o')
    ∧ extends o o' evs
    ∧ updates evs = replicate (length es * length ds) Autoencoder
    ∧ update_targets evs
      = replicate (length es * length ds) (vae_trainable_variables m)
    ∧ saves evs = [].
Proof.
  induction es as [|e es IH]; intros l o Hm Hb Hlat Hds.
  - exists l, o, []. split; [done|]. split; [apply extends_refl | done].
  - destruct (vae_train_epoch_spec ds verbose tb m e l o Hm Hb Hlat Hds)
      as (l1 & o1 & e1 & Hep & E1 & U1 & T1 & V1).
    pose proof E1 as (S1 & _).
    destruct (IH l1 o1) as (l2 & o2 & e2 & Hrest & E2 & U2 & T2 & V2);
      [by rewrite S1 | by rewrite S1 | by rewrite S1 | done |].
    exists l2, o2, (e1 ++ e2). cbn [for_each].
    rewrite (bind_ok _ _ _ _ _ Hep), Hrest.
    split; [done|]. split; [by eapply extends_trans|].
    rewrite updates_app, update_targets_app, saves_app, U1, U2, T1, T2, V1, V2.
    cbn [length Nat.mul]. by rewrite !replicate_add.
Qed.

Lemma vae_save_checkpoint_trace (v : value) (o : obj attrs) :
  ∃ evs, trace (env (save_checkpoint v o).2) = trace (env o) ++ evs
         ∧ updates evs = [] ∧ update_targets evs = [].
Proof.
  destruct o as [a w].
  destruct v as [| | |s| |]; try (by exists []; simpl; rewrite app_nil_r).
  unfold save_checkpoint, bind, lift, get_self, in_world. simpl.
  destruct (last_char s) as [c|]; simpl; [|by exists []; rewrite app_nil_r].
  case_bool_decide; simpl;
    (destruct (model_ a) as [m|]; simpl; [|by exists []; rewrite app_nil_r];
     by eexists [_]).
Qed.

(** X20.  On batches of flattened images of the size [load_data] recorded,
    [fit] of the autoencoder builds the model and then makes exactly one
    optimizer step per batch and epoch, [epochs * len(train_ds)] in all,
    and each step is given every trainable variable of the model: those of
    the encoder's trunk, of the two heads and of the decoder. *)
Theorem vae_fit_update_protocol (o : obj attrs) train_ds epochs opt verbose lr
    tb save H W C :
  is_ok (load_model o).1 = true →
  image_size (self o) = Some [H; W; C] →
  is_Some (make_optimizer opt [("learning_rate"%string, lr)]) →
  Forall (λ x, is_flat_batch (H * W * C) x = true) train_ds →
  0 ≤ latent_dim (cfg (self o)) →
  ∃ m o1 new,
    load_model o = (Ok tt, o1) ∧ model_ (self o1) = Some m
    ∧ trace (env (fit (Some train_ds) epochs opt verbose lr tb save o).2)
      = trace (env o) ++ new
    ∧ updates new
      = replicate (Z.to_nat epochs * length train_ds) Autoencoder
    ∧ update_targets new
      = replicate (Z.to_nat epochs * length train_ds)
                  (vae_trainable_variables m).
Proof.
  intros Hload Hi [op Hop] Hds Hlat.
  apply is_ok_inv in Hload as ([] & o1 & Hl).
  destruct (vae_load_model_built o o1 Hl) as (m & Hm & Hb & Hi1 & Hc1).
  pose proof (vae_load_model_inv o o1 Hl)
    as (_ & _ & _ & _ & _ & _ & _ & Tl & _).
  assert (Hds' : Forall (λ x, ∃ b d, tshape x = [b; d] ∧ 0 ≤ b) train_ds).
  { eapply Forall_impl; [exact Hds|]. intros x Hx.
    apply is_flat_batch_shape in Hx as (b & Hx & Hb0). eauto. }
  destruct (vae_epochs_spec train_ds verbose tb m (range epochs)
              (Locals op 0 Mean_new) o1 Hm Hb)
    as (l & o2 & evs & Hloop & E & U & T & V); [by rewrite Hc1 | done |].
  destruct (vae_save_checkpoint_trace save o2) as (post & Tpost & Upost & Ppost).
  exists m, o1, (evs ++ post). split; [done|]. split; [done|].
  assert (Htr : training train_ds epochs opt verbose lr tb o = (Ok l, o2)).
  { unfold training. rewrite (bind_ok _ _ _ _ _ Hl). rewrite Hop.
    unfold bind at 1, ret at 1. exact Hloop. }
  unfold fit. rewrite (bind_ok _ _ _ _ _ Htr), Tpost.
  destruct E as (_ & Te & _). rewrite Te, Tl, <- app_assoc.
  rewrite length_range in U, T.
  by rewrite updates_app, update_targets_app, U, T, Upost, Ppost, !app_nil_r.
Qed.

End VAEProtocol.

Lemma vae_fit_update_protocol_witness :
  ∃ m o1 new,
    VAE.load_model Toy.vae_loaded = (Ok tt, o1) ∧ VAE.model_ (self o1) = Some m
    ∧ trace (env (VAE.fit (Some [Toy.vae_batch; Toy.vae_batch]) 2 "SGD" 1
                    (1 / 1000) true (VStr "ckpt/") Toy.vae_loaded).2)
      = trace (env Toy.vae_loaded) ++ new
    ∧ updates new = replicate (Z.to_nat 2 * 2) Autoencoder
    ∧ update_targets new
      = replicate (Z.to_nat 2 * 2) (VAE.vae_trainable_variables m).
Proof.
  apply (vae_fit_update_protocol (B := Toy.backend) Toy.vae_loaded
           [Toy.vae_batch; Toy.vae_batch] 2 "SGD" 1 (1 / 1000) true
           (VStr "ckpt/") 1 1 1).
  - vm_compute. reflexivity.
  - reflexivity.
  - vm_compute. eauto.
  - repeat constructor.
  - vm_compute. discriminate.
Defined.

(** ** Samples of the data of the autoencoder *)

Section VAEGetSample.
Context `{B : Backend}.
Import VAE.

Lemma reshape_loop (a : attrs) h w c (l : list tensor) :
  image_size a = Some [h; w; c] → 0 ≤ h → 0 ≤ w → 0 ≤ c →
  Forall (λ s, tshape s = [h * w * c]) l →
  ∀ acc,
    rfor_each l
      (λ img acc,
         h <~ image_dim a 0 ;;
         w <~ image_dim a 1 ;;
         ch <~ image_dim a 2 ;;
         img <~ reshape_to img [h; w; ch] ;;
         Ok (acc ++ [img])) acc
    = Ok (acc ++ map (λ x, Tensor [h; w; c] (tdata x)) l).
Proof.
  intros Hi Hh Hw Hc Hl. induction Hl as [|x l Hx _ IH]; intros acc.
  - cbn. by rewrite app_nil_r.
  - cbn [rfor_each]. unfold image_dim. rewrite Hi.
    change (index [h; w; c] 0) with (Ok h).
    change (index [h; w; c] 1) with (Ok w).
    change (index [h; w; c] 2) with (Ok c).
    cbn [rbind]. unfold reshape_to. rewrite Hx.
    replace (forallb (λ d : Z, 0 <=? d) [h; w; c]
             && (numel [h * w * c] =? numel [h; w; c])) with true.
    + cbn [rbind]. unfold image_dim in IH. rewrite Hi in IH.
      rewrite IH. cbn [map]. by rewrite <- app_assoc.
    + symmetry. cbn [forallb numel fold_right].
      rewrite !andb_true_iff. split_and!; try (apply Z.leb_le; lia); try done.
      apply Z.eqb_eq. ring.
Qed.

Lemma reshape_loop_none (a : attrs) (x : tensor) l acc :
  image_size a = None →
  rfor_each (x :: l)
    (λ img acc,
       h <~ image_dim a 0 ;;
       w <~ image_dim a 1 ;;
       ch <~ image_dim a 2 ;;
       img <~ reshape_to img [h; w; ch] ;;
       Ok (acc ++ [img])) acc
  = Raise TypeError.
Proof. intros Hi. cbn [rfor_each]. unfold image_dim. by rewrite Hi. Qed.

(** X21.  [get_sample] of the autoencoder gives every example it takes the
    shape of an image: on batches of flattened images of the recorded
    size it returns the first [n_samples] examples, in order, each with
    its values unchanged and the shape [[h; w; c]].  Unlike the sampler of
    the GAN it needs the image size: before [load_data] it raises
    [TypeError] as soon as there is an example to take. *)
Theorem vae_get_sample_images (o : obj attrs) ds n d :
  Forall (λ b, ∃ m, tshape b = [m; d] ∧ 0 ≤ m ∧ well_formed b) ds →
  ∃ all,
    unbatch ds = Ok all
    ∧ (∀ h w c,
         image_size (self o) = Some [h; w; c] → 0 ≤ h → 0 ≤ w → 0 ≤ c →
         d = h * w * c →
         ∃ t, get_sample (Some ds) n None o = (Ok (Some t), o)
              ∧ (ds_take n all = [] → t = Tensor [0] [])
              ∧ (ds_take n all ≠ [] →
                 tshape t = Z.of_nat (length (ds_take n all)) :: [h; w; c]
                 ∧ unstack t
                   = Ok (map (λ x, Tensor [h; w; c] (tdata x)) (ds_take n all))))
    ∧ (image_size (self o) = None → ds_take n all ≠ [] →
       ∀ save_dir, get_sample (Some ds) n save_dir o = (Raise TypeError, o)).
Proof.
  intros Hds. destruct (unbatch_spec [d] ds Hds) as (all & Hu & Hl & Hall).
  pose proof (ds_take_Forall _ n all Hall) as Htake.
  exists all. split; [done|]. split.
  - intros h w c Hi Hh Hw Hc ->.
    assert (Hflat : Forall (λ s, tshape s = [h * w * c]) (ds_take n all)).
    { eapply Forall_impl; [exact Htake|]. by intros s [? _]. }
    set (imgs := map (λ x, Tensor [h; w; c] (tdata x)) (ds_take n all)).
    assert (Hget : ∀ t, np_array imgs = Ok t →
                        get_sample (Some ds) n None o = (Ok (Some t), o)).
    { intros t Hnp. unfold get_sample. unfold bind at 1, lift at 1. rewrite Hu.
      unfold bind at 1, get_self. cbn [fst snd].
      unfold bind at 1, lift at 1.
      rewrite (reshape_loop (self o) h w c _ Hi Hh Hw Hc Hflat).
      cbn [app]. fold imgs. unfold bind at 1, lift at 1. rewrite Hnp. done. }
    assert (Himgs : Forall (λ s, tshape s = [h; w; c]
                                 ∧ length (tdata s) = Z.to_nat (numel [h; w; c]))
                           imgs).
    { subst imgs. apply Forall_fmap. eapply Forall_impl; [exact Htake|].
      intros s [_ Hlen]. unfold compose. cbn [tshape tdata]. split; [done|].
      rewrite Hlen. f_equal. cbn [numel fold_right]. ring. }
    destruct (ds_take n all) as [|x l] eqn:E.
    + exists (Tensor [0] []). split; [by apply Hget|]. done.
    + destruct (unstack_np_array [h; w; c] imgs) as (t & Hnp & Hsh & Hun);
        [done | done |].
      exists t. split; [by apply Hget|]. split; [done|]. intros _.
      rewrite Hsh, Hun. subst imgs. by rewrite length_map.
  - intros Hi Hne sd. destruct (ds_take n all) as [|x l] eqn:E; [done|].
    unfold get_sample. unfold bind at 1, lift at 1. rewrite Hu.
    unfold bind at 1, get_self. cbn [fst snd].
    unfold bind at 1, lift at 1. rewrite E.
    by rewrite (reshape_loop_none (self o) x l [] Hi).
Qed.

End VAEGetSample.

Lemma vae_get_sample_images_witness :
  ∃ all,
    unbatch [Toy.vae_batch] = Ok all
    ∧ (∀ h w c,
         VAE.image_size (self Toy.vae_loaded) = Some [h; w; c] →
         0 ≤ h → 0 ≤ w → 0 ≤ c → 1 = h * w * c →
         ∃ t, VAE.get_sample (Some [Toy.vae_batch]) 1 None Toy.vae_loaded
              = (Ok (Some t), Toy.vae_loaded)
              ∧ (ds_take 1 all = [] → t = Tensor [0] [])
              ∧ (ds_take 1 all ≠ [] →
                 tshape t = Z.of_nat (length (ds_take 1 all)) :: [h; w; c]
                 ∧ unstack t
                   = Ok (map (λ x, Tensor [h; w; c] (tdata x)) (ds_take 1 all))))
    ∧ (VAE.image_size (self Toy.vae_loaded) = None → ds_take 1 all ≠ [] →
       ∀ save_dir,
         VAE.get_sample (Some [Toy.vae_batch]) 1 save_dir Toy.vae_loaded
         = (Raise TypeError, Toy.vae_loaded)).
Proof.
  apply (vae_get_sample_images (B := Toy.backend) Toy.vae_loaded
           [Toy.vae_batch] 1 1).
  repeat constructor; exists 2; (split; [reflexivity|]); (split; [lia|]);
    vm_compute; reflexivity.
Defined.

(** ** The forward pass of the convolutional autoencoder *)

Ltac rbind_inv H :=
  repeat match type of H with
         | rbind ?c _ = Ok _ =>
             let E := fresh "E" in
             destruct c eqn:E; [cbn [rbind] in H | discriminate H]
         end.

Section ConvAECall.
Context `{B : Backend} `{!BackendLaws B}.
Import ConvolutionalAutoencoder.

Lemma rfor_each_inv {A L} (P : L → Prop) (body : A → L → result L) l :
  (∀ x acc acc', P acc → body x acc = Ok acc' → P acc') →
  ∀ acc r, P acc → rfor_each l body acc = Ok r → P r.
Proof.
  intros Hbody. induction l as [|x l IH]; intros acc r Hacc H; cbn in H.
  - by injection H as <-.
  - destruct (body x acc) as [acc'|] eqn:E; [|discriminate].
    cbn in H. eapply IH; [|exact H]. by eapply Hbody.
Qed.

(** The encoder maps a batch of images to a batch of codes. *)
Lemma convae_encoder_shape a params ls n h w c :
  encoder_layers_of a params = Ok ls →
  ∃ d, output_shape ls [n; h; w; c] = Some [n; d].
Proof.
  unfold encoder_layers_of. intros H. rbind_inv H.
  destruct (negb _); [discriminate|]. rbind_inv H.
  injection H as <-.
  match goal with
  | E : rfor_each ?l ?body ?first = Ok ?r |- _ =>
      assert (Hs : ∃ h' w' c',
                 output_shape r [n; h; w; c] = Some [n; h'; w'; c']);
      [ apply (rfor_each_inv
                 (λ acc, ∃ h' w' c',
                    output_shape acc [n; h; w; c] = Some [n; h'; w'; c'])
                 body l) with (acc := first); [ | | exact E] | ]
  end.
  - intros i acc acc' (h1 & w1 & c1 & Hacc) Hb. rbind_inv Hb.
    injection Hb as <-. rewrite output_shape_app, Hacc. cbn. eauto.
  - cbn. eauto.
  - destruct Hs as (h' & w' & c' & Hs).
    eexists. rewrite output_shape_app, Hs. cbn. reflexivity.
Qed.

(** The decoder maps a batch of codes to a batch of images whose height
    and width are four times the quarter, rounded down, of those of the
    data. *)
Lemma convae_decoder_shape a params ls H W C n d :
  decoder_layers_of a params = Ok ls →
  image_size a = Some [H; W; C] →
  output_shape ls [n; d] = Some [n; 4 * (H / 4); 4 * (W / 4); C].
Proof.
  unfold decoder_layers_of, image_dim. intros Hl Hi. rewrite Hi in Hl.
  change (index [H; W; C] 0) with (Ok H) in Hl.
  change (index [H; W; C] 1) with (Ok W) in Hl.
  change (index [H; W; C] 2) with (Ok C) in Hl.
  cbv zeta in Hl.
  destruct (len _) as [cnt|]; [|discriminate]. cbn [rbind] in Hl.
  destruct (negb _); [discriminate|]. cbn [rbind] in Hl.
  destruct (getitem _ 0) as [v0|]; [|discriminate]. cbn [rbind] in Hl.
  destruct (as_int v0) as [c0|]; [|discriminate]. cbn [rbind] in Hl.
  destruct (as_opt_str _) as [act|]; [|discriminate]. cbn [rbind] in Hl.
  destruct (as_opt_str _) as [ki|]; [|discriminate]. cbn [rbind] in Hl.
  destruct (as_opt_str _) as [kr|]; [|discriminate]. cbn [rbind] in Hl.
  destruct (as_int _) as [dI|]; [|discriminate]. cbn [rbind] in Hl.
  destruct (as_pair _) as [ks|]; [|discriminate]. cbn [rbind] in Hl.
  destruct (as_int _) as [count|]; [|discriminate]. cbn [rbind] in Hl.
  match type of Hl with
  | context [rfor_each _ _ (?f, 0)] => set (first := f) in *
  end.
  assert (Hf : output_shape first [n; d] = Some [n; H / 4; W / 4; c0 * 2]).
  { subst first. simpl.
    replace (H / 4 * (W / 4) * (c0 * 2) * 1 =? H / 4 * (W / 4 * (c0 * 2 * 1)))
      with true; [done|]. symmetry. apply Z.eqb_eq. ring. }
  assert (Hloop : ∀ (l : list Z)
                    (body : Z → list layer * Z → result (list layer * Z))
                    acc r hh ww,
            (∀ x a1 a2, body x a1 = Ok a2 →
               ∃ c, getitem (param params "dec_channels" (VList [VInt 64; VInt 32])) a1.2
                    = Ok c
                    ∧ ∃ c', as_int c = Ok c'
                      ∧ a2.1 = a1.1 ++ [Conv2DTranspose c' ks (1, 1) true None
                                          (Some (KernelOpts ki kr))]) →
            rfor_each l body acc = Ok r →
            (∃ ch, output_shape acc.1 [n; d] = Some [n; hh; ww; ch]) →
            ∃ ch, output_shape r.1 [n; d] = Some [n; hh; ww; ch]).
  { intros l body acc r hh ww Hbody Hrun Hacc.
    apply (rfor_each_inv
             (λ a0 : list layer * Z,
                ∃ ch, output_shape a0.1 [n; d] = Some [n; hh; ww; ch])
             body l) with (acc := acc); [|done|done].
    intros x a1 a2 (ch & Hch) Hb.
    apply Hbody in Hb as (cv & _ & c' & _ & ->).
    rewrite output_shape_app, Hch. cbn. rewrite !Z.mul_1_r. eauto. }
  assert (Hstep : ∀ (x : Z) (a1 a2 : list layer * Z),
            (ls <~ (c <~ getitem (param params "dec_channels"
                                    (VList [VInt 64; VInt 32])) a1.2 ;;
                    c <~ as_int c ;;
                    Ok (a1.1 ++ [Conv2DTranspose c ks (1, 1) true None
                                   (Some (KernelOpts ki kr))])) ;;
             Ok (ls, a1.2 + 1)) = Ok a2 →
            ∃ c, getitem (param params "dec_channels" (VList [VInt 64; VInt 32])) a1.2
                 = Ok c
                 ∧ ∃ c', as_int c = Ok c'
                   ∧ a2.1 = a1.1 ++ [Conv2DTranspose c' ks (1, 1) true None
                                       (Some (KernelOpts ki kr))]).
  { intros x a1 a2 Hb.
    destruct (getitem _ a1.2) as [cv|]; [|discriminate]. cbn [rbind] in Hb.
    destruct (as_int cv) as [c'|] eqn:Ea; [|discriminate]. cbn [rbind] in Hb.
    injection Hb as <-. exists cv. split; [done|]. by exists c'. }
  destruct (rfor_each _ _ (first, 0)) as [[ls1 k1]|] eqn:E1; [|discriminate].
  cbn [rbind fst snd] in Hl.
  destruct (Hloop _ _ _ _ (H / 4) (W / 4) Hstep E1) as (ch1 & Hs1); [eauto|].
  cbn [fst] in Hs1.
  destruct (getitem _ k1) as [cv|]; [|discriminate]. cbn [rbind] in Hl.
  destruct (as_int cv) as [c2|]; [|discriminate]. cbn [rbind] in Hl.
  match type of Hl with
  | context [rfor_each _ _ (?f, k1)] => set (ls2 := f) in *
  end.
  assert (Hs2 : output_shape ls2 [n; d] = Some [n; H / 4 * 2; W / 4 * 2; c2]).
  { subst ls2. rewrite output_shape_app, Hs1. done. }
  destruct (rfor_each _ _ (ls2, k1)) as [[ls3 k3]|] eqn:E3; [|discriminate].
  cbn [rbind fst snd] in Hl.
  destruct (Hloop _ _ _ _ (H / 4 * 2) (W / 4 * 2) Hstep E3) as (ch3 & Hs3);
    [eauto|].
  cbn [fst] in Hs3. injection Hl as <-.
  rewrite output_shape_app, Hs3. cbn.
  replace (H / 4 * 2 * 2) with (4 * (H / 4)) by lia.
  replace (W / 4 * 2 * 2) with (4 * (W / 4)) by lia. done.
Qed.

Lemma decoder_layers_image_size a a' params :
  image_size a' = image_size a →
  decoder_layers_of a' params = decoder_layers_of a params.
Proof. intros Hi. unfold decoder_layers_of, image_dim. by rewrite Hi. Qed.

(** What a successful [build_model] leaves. *)
Lemma build_model_inv params (o o1 : obj attrs) :
  build_model params o = (Ok tt, o1) →
  ∃ e d, self o1 = Attrs (Some e) (Some d) (image_size (self o))
         ∧ encoder_layers_of (self o) params = Ok (layers e)
         ∧ decoder_layers_of (self o) params = Ok (layers d).
Proof.
  unfold build_model. intros H.
  apply bind_inv in H as (e & o2 & He & H).
  apply bind_inv in H as ([] & o3 & Hset & H).
  unfold set_self, modify in Hset. injection Hset as <-.
  apply bind_inv in H as (d & o4 & Hd & H).
  unfold set_self, modify in H. injection H as <-.
  pose proof (encoder_self _ _ _ _ He) as Hs.
  unfold encoder in He.
  apply bind_inv in He as (a & o5 & Ha & He). injection Ha as <- <-.
  apply bind_inv in He as (le & o5 & Hle & He).
  unfold lift in Hle. injection Hle as Hle <-.
  apply new_model_inv in He as (Le & _).
  unfold decoder in Hd.
  apply bind_inv in Hd as (a & o5 & Ha & Hd). injection Ha as <- <-.
  apply bind_inv in Hd as (ld & o5 & Hld & Hd).
  unfold lift in Hld. injection Hld as Hld <-.
  apply new_model_inv in Hd as (Ld & Sd & _).
  exists e, d. cbn [self]. rewrite Sd. cbn [self enc image_size].
  rewrite Hs. split; [done|]. split; [by rewrite Le|].
  rewrite Ld. rewrite <- Hld. symmetry.
  apply decoder_layers_image_size. cbn [self image_size]. by rewrite Hs.
Qed.

(** X22.  After [build_model] has succeeded on data of size [H x W x C],
    large enough for every pooling of the encoder, [call] maps a batch of
    [n] images of that size to [n] images of height [4 * (H // 4)] and
    width [4 * (W // 4)] with [C] channels, and changes nothing.  The
    output has the shape of the input when [H] and [W] are multiples of
    four.  Before [build_model], [call] raises [TypeError]. *)
Theorem call_shape params (o o1 : obj attrs) H W C x n :
  build_model params o = (Ok tt, o1) →
  image_size (self o) = Some [H; W; C] →
  tshape x = [n; H; W; C] →
  (∀ e, enc (self o1) = Some e → pools_fit (layers e) [n; H; W; C] = true) →
  (∃ t, call x o1 = (Ok t, o1)
        ∧ tshape t = [n; 4 * (H / 4); 4 * (W / 4); C])
  ∧ (H mod 4 = 0 → W mod 4 = 0 →
     [n; 4 * (H / 4); 4 * (W / 4); C] = [n; H; W; C])
  ∧ (enc (self o) = None → call x o = (Raise TypeError, o)).
Proof.
  intros Hb Hi Hx _.
  destruct (build_model_inv params o o1 Hb) as (e & d & Hs & He & Hd).
  split_and!.
  - destruct (convae_encoder_shape _ _ _ n H W C He) as (dI & Hes).
    destruct o1 as [a1 w1]. cbn [self] in Hs. subst a1.
    eexists. split.
    + unfold call, bind, get_self, lift, in_world, get, ret.
      cbn [fst snd self env enc dec callable]. reflexivity.
    + unfold call_model. apply apply_layers_shape.
      rewrite (apply_layers_shape _ _ _ _ [n; dI]) by (by rewrite Hx).
      by apply (convae_decoder_shape (self o) params).
  - intros HH HW.
    pose proof (Z.div_exact H 4 ltac:(lia)) as [_ E1].
    pose proof (Z.div_exact W 4 ltac:(lia)) as [_ E2].
    by rewrite <- E1, <- E2.
  - intros Hn. unfold call, bind, get_self, lift. cbn [fst snd].
    by rewrite Hn.
Qed.

End ConvAECall.

Lemma call_shape_witness :
  ∃ o1,
    ConvolutionalAutoencoder.build_model ConvolutionalAutoencoder.default_params
      Toy.convae_8 = (Ok tt, o1)
    ∧ (∃ t, ConvolutionalAutoencoder.call (zeros [2; 8; 8; 1]) o1 = (Ok t, o1)
            ∧ tshape t = [2; 4 * (8 / 4); 4 * (8 / 4); 1])
    ∧ (8 mod 4 = 0 → 8 mod 4 = 0 →
       [2; 4 * (8 / 4); 4 * (8 / 4); 1] = [2; 8; 8; 1])
    ∧ (ConvolutionalAutoencoder.enc (self Toy.convae_8) = None →
       ConvolutionalAutoencoder.call (zeros [2; 8; 8; 1]) Toy.convae_8
       = (Raise TypeError, Toy.convae_8)).
Proof.
  destruct (is_ok_inv
              (ConvolutionalAutoencoder.build_model
                 ConvolutionalAutoencoder.default_params Toy.convae_8))
    as ([] & o1 & Hrun); [vm_compute; reflexivity|].
  exists o1. split; [exact Hrun|].
  apply (call_shape (B := Toy.backend) ConvolutionalAutoencoder.default_params
           Toy.convae_8 o1 8 8 1 (zeros [2; 8; 8; 1]) 2 Hrun);
    [reflexivity | reflexivity |].
  intros e He. vm_compute in Hrun. injection Hrun as <-.
  cbn in He. injection He as <-. vm_compute. reflexivity.
Defined.

(** ** The line printed after an epoch *)

Section EpochReport.
Context `{B : Backend}.
Import DCGAN.

Lemma Mean_fold (xs : list R) : ∀ m,
  total (foldl Mean_update m xs) = (total m + rsum xs)%R
  ∧ count (foldl Mean_update m xs) = (count m + length xs)%nat.
Proof.
  induction xs as [|x xs IH]; intros m; cbn [foldl rsum fold_right length].
  - split; [lra | lia].
  - destruct (IH (Mean_update m x)) as [-> ->]. cbn [Mean_update total count].
    fold (rsum xs). split; [lra | lia].
Qed.

Lemma Mean_result_fold (xs : list R) :
  Mean_result (foldl Mean_update Mean_new xs) = mean_of xs.
Proof.
  destruct (Mean_fold xs Mean_new) as [Ht Hc]. unfold Mean_result.
  rewrite Ht, Hc. cbn [Mean_new total count Nat.add].
  destruct xs as [|x xs]; [done|]. cbn [length mean_of]. by rewrite Rplus_0_l.
Qed.

(** X23.  The line printed at the end of an epoch has its two numbers
    under each other's label: what follows ["D_loss:"] is the mean of the
    losses the generator's tapes recorded in this epoch, and what follows
    ["G_loss"] is the mean of the discriminator's.  The data are batches
    of images of the recorded size, whose height and width are multiples
    of four. *)
Theorem epoch_report_swaps_labels (o : obj attrs) ds tb epoch l H W C :
  trainable o →
  image_size (self o) = Some [H; W; C] → H mod 4 = 0 → W mod 4 = 0 →
  batches_of [H; W; C] ds →
  ∃ l' o' evs pairs,
    train_epoch ds 1 tb epoch l o = (Ok l', o')
    ∧ trace (env o')
      = trace (env o) ++ evs
        ++ [EvPrint [PStr "Epoch:"; PInt (epoch + 1);
                     PStr "D_loss:"; PReal (mean_of (map snd pairs));
                     PStr "G_loss"; PReal (mean_of (map fst pairs))]]
    ∧ gradient_losses evs = flat_pairs pairs
    ∧ length pairs = length ds.
Proof.
  intros Ht _ _ _ Hds%batches_of_is_batch.
  destruct (epoch_loop_spec tb ds
              (Locals (gen_optimizer l) (disc_optimizer l) (steps l)
                      (reset_states (generator_loss l))
                      (reset_states (discriminator_loss l))) o Ht Hds)
    as (l1 & o1 & e1 & Hloop & _).
  destruct (epoch_loop_inv tb ds _ o l1 o1 Hloop)
    as (evs & pairs & T & G & Hlen & M1 & M2).
  cbn [generator_loss discriminator_loss reset_states] in M1, M2.
  change (MkMean 0 0) with Mean_new in M1, M2.
  eexists l1, _, evs, pairs. split.
  - unfold train_epoch. rewrite (bind_ok _ _ _ _ _ Hloop).
    change (1 =? 1) with true. cbv iota. reflexivity.
  - split; [|done]. cbn [env trace].
    by rewrite T, M1, M2, !Mean_result_fold, <- app_assoc.
Qed.

End EpochReport.

Lemma epoch_report_swaps_labels_witness :
  ∃ l' o' evs pairs,
    DCGAN.train_epoch [Toy.batch; Toy.batch] 1 false 0
      (DCGAN.Locals Toy.opt0 Toy.opt0 0 Mean_new Mean_new) Toy.dcgan_built
    = (Ok l', o')
    ∧ trace (env o')
      = trace (env Toy.dcgan_built) ++ evs
        ++ [EvPrint [PStr "Epoch:"; PInt (0 + 1);
                     PStr "D_loss:"; PReal (mean_of (map snd pairs));
                     PStr "G_loss"; PReal (mean_of (map fst pairs))]]
    ∧ gradient_losses evs = flat_pairs pairs
    ∧ length pairs = length [Toy.batch; Toy.batch].
Proof.
  apply (epoch_report_swaps_labels (B := Toy.backend) Toy.dcgan_built
           [Toy.batch; Toy.batch] false 0
           (DCGAN.Locals Toy.opt0 Toy.opt0 0 Mean_new Mean_new) 4 4 1).
  - eexists _, _. vm_compute. split; [reflexivity|]. split; [reflexivity|].
    discriminate.
  - reflexivity.
  - reflexivity.
  - reflexivity.
  - repeat constructor; exists 2; (split; [reflexivity | lia]).
Defined.

(** ** The reparameterisation *)

Section Sampling.
Context `{B : Backend}.
Import VAE.

(** X24.  [sampling] reads [z_var] as the logarithm of a variance: every
    entry of its result is the entry of [z_mean] plus the noise scaled by
    a positive factor whose square is [exp(z_var)], the quantity that
    stands for the variance in the KL term.  The result has the shape of
    [z_mean]. *)
Theorem sampling_uses_log_variance z_mean z_var epsilon (i : nat) m v e :
  tdata z_mean !! i = Some m → tdata z_var !! i = Some v →
  tdata epsilon !! i = Some e →
  ∃ sigma,
    tdata (sampling z_mean z_var epsilon) !! i = Some (m + sigma * e)%R
    ∧ (0 < sigma)%R ∧ (sigma * sigma = exp v)%R
    ∧ tshape (sampling z_mean z_var epsilon) = tshape z_mean.
Proof.
  intros Hm Hv He. exists (exp (1 / 2 * v)). split_and!.
  - unfold sampling, t_add, t_mul, t_exp, t_scale, t_map2, t_map.
    cbn [tdata tshape].
    apply lookup_zip_with_Some. exists m, (exp (1 / 2 * v) * e)%R.
    split; [done|]. split; [done|].
    apply lookup_zip_with_Some. exists (exp (1 / 2 * v)), e.
    split; [done|]. split; [|done].
    by rewrite !list_lookup_fmap, Hv.
  - apply exp_pos.
  - rewrite <- exp_plus. f_equal. lra.
  - done.
Qed.

End Sampling.

Lemma sampling_uses_log_variance_witness :
  ∃ sigma,
    tdata (VAE.sampling (Tensor [1; 2] [1; 0]%R) (Tensor [1; 2] [0; 2]%R)
             (Tensor [1; 2] [3; 4]%R)) !! 1%nat
    = Some (0 + sigma * 4)%R
    ∧ (0 < sigma)%R ∧ (sigma * sigma = exp 2)%R
    ∧ tshape (VAE.sampling (Tensor [1; 2] [1; 0]%R) (Tensor [1; 2] [0; 2]%R)
                (Tensor [1; 2] [3; 4]%R)) = [1; 2].
Proof.
  apply (sampling_uses_log_variance (Tensor [1; 2] [1; 0]%R)
           (Tensor [1; 2] [0; 2]%R) (Tensor [1; 2] [3; 4]%R) 1 0%R 2%R 4%R);
    reflexivity.
Defined.
